(** * PixelWiz: the operation catalog, the task dispatcher and the batch
      sequencer, embedded from [src/core/image_processor.py] and
      [src/core/threading_manager.py]. *)

From Stdlib Require Import ZArith List String Ascii Bool Lia QArith Qround.
From Stdlib Require Import Floats.SpecFloat DecimalString.
From stdpp Require Import gmap strings.
Import ListNotations.

Local Open Scope string_scope.
Local Open Scope Z_scope.

(** ** Python values, exceptions and results *)

Module Py.

(** The exception classes the modelled code can raise. *)
Inductive exc_class :=
  ValueError | TypeError | ZeroDivisionError | OverflowError | cv2_error.

Record exception := Exc { exc_type : exc_class; exc_str : string }.

(** A call either returns a value or raises. *)
Inductive result (A : Type) :=
| Return (a : A)
| Raise (e : exception).
Arguments Return {A} a.
Arguments Raise {A} e.

(** Sequencing: an exception raised by [r] skips the rest. *)
#[export] Instance result_bind : MBind result := fun A B k r =>
  match r with
  | Return a => k a
  | Raise e => Raise e
  end.

#[export] Instance result_ret : MRet result := fun A a => Return a.

Definition is_return {A} (r : result A) : bool :=
  match r with Return _ => true | Raise _ => false end.

(** [a[start:stop]] on a sequence, with Python's treatment of negative
    and out-of-range bounds. *)
Definition slice_index (i : Z) (len : nat) : nat :=
  if i <? 0 then Z.to_nat (Z.max 0 (i + Z.of_nat len))
  else Z.to_nat (Z.min i (Z.of_nat len)).

Definition slice {A} (l : list A) (start stop : Z) : list A :=
  let s := slice_index start (length l) in
  let e := slice_index stop (length l) in
  firstn (e - s) (skipn s l).

End Py.

Export Py.

(** ** Images

    An image is a numpy array of 8-bit channels: two-dimensional
    (height x width) for grayscale, three-dimensional
    (height x width x channels) for colour.  Rows are kept as nested lists;
    a well-formed image is rectangular. *)

Inductive array (E : Type) :=
| Gray (rows : list (list E))
| Color (rows : list (list (list E))).
Arguments Gray {E} rows.
Arguments Color {E} rows.

(** The 8-bit images; wider element types appear only inside operations. *)
Abbreviation ndarray := (array Z).

(** An operation applied to every element. *)
Definition array_map {E F} (f : E -> F) (a : array E) : array F :=
  match a with
  | Gray g => Gray (map (map f) g)
  | Color g => Color (map (map (map f)) g)
  end.

Section Grid.
Context {A : Type}.

Definition grid_height (g : list (list A)) : nat := length g.

Definition grid_width (g : list (list A)) : nat :=
  match g with
  | [] => O
  | r :: _ => length r
  end.

(** Every row has the same length [w]. *)
Definition rect (w : nat) (g : list (list A)) : Prop :=
  Forall (fun r => length r = w) g.

(** [g[y0:y1, x0:x1]] *)
Definition grid_slice (g : list (list A)) (y0 y1 x0 x1 : Z) : list (list A) :=
  map (fun r => Py.slice r x0 x1) (Py.slice g y0 y1).

(** [cv2.flip(g, 1)]: mirror around the vertical axis. *)
Definition grid_flip_h (g : list (list A)) : list (list A) := map (@rev A) g.

(** [cv2.flip(g, 0)]: mirror around the horizontal axis. *)
Definition grid_flip_v (g : list (list A)) : list (list A) := rev g.

End Grid.

Definition img_height {E} (image : array E) : nat :=
  match image with
  | Gray g => grid_height g
  | Color g => grid_height g
  end.

Definition img_width {E} (image : array E) : nat :=
  match image with
  | Gray g => grid_width g
  | Color g => grid_width g
  end.

(** [image.shape] *)
Definition shape {E} (image : array E) : list nat :=
  match image with
  | Gray g => [grid_height g; grid_width g]
  | Color g =>
      [grid_height g; grid_width g;
       match g with (p :: _) :: _ => length p | _ => O end]
  end.

(** A well-formed image: at least one pixel, rectangular, the same number
    of channels in every pixel, every channel a byte. *)
Definition byte_range (v : Z) : Prop := 0 <= v <= 255.

Definition wf_image (image : ndarray) : Prop :=
  match image with
  | Gray g =>
      (0 < grid_height g)%nat /\ (0 < grid_width g)%nat /\
      rect (grid_width g) g /\ Forall (Forall byte_range) g
  | Color g =>
      (0 < grid_height g)%nat /\ (0 < grid_width g)%nat /\
      rect (grid_width g) g /\
      (exists c, Forall (Forall (fun p => length p = c)) g) /\
      Forall (Forall (Forall byte_range)) g
  end.

(** ** Floating point

    numpy computes on [float32] arrays and Python on [float] (binary64).
    Both are IEEE 754 formats; their operations are the Standard Library's
    [SpecFloat] ones at the format's precision and exponent range. *)

Section IEEE.
Variables prec emax : Z.

Definition fl_of_Z (z : Z) : spec_float := binary_normalize prec emax z 0 false.

(** Conversion of a value of another format: rounds to nearest even. *)
Definition fl_round (f : spec_float) : spec_float :=
  match f with
  | S754_finite s m e => binary_normalize prec emax (cond_Zopp s (Zpos m)) e s
  | _ => f
  end.

(** Truncation toward zero; nothing for NaN and the infinities. *)
Definition fl_trunc (f : spec_float) : option Z :=
  match f with
  | S754_zero _ => Some 0
  | S754_finite s m e =>
      let a := if 0 <=? e then Z.shiftl (Zpos m) e else Z.shiftr (Zpos m) (- e) in
      Some (cond_Zopp s a)
  | _ => None
  end.

Definition fl_is_nan (f : spec_float) : bool :=
  match f with S754_nan => true | _ => false end.

(** [np.clip(x, lo, hi)] on one element; NaN stays NaN. *)
Definition fl_clip (x lo hi : spec_float) : spec_float :=
  if fl_is_nan x then x
  else if SFltb x lo then lo
  else if SFltb hi x then hi
  else x.

(** The exact rational value of a finite float. *)
Definition fl_to_Q (f : spec_float) : option Q :=
  match f with
  | S754_zero _ => Some 0%Q
  | S754_finite s m e =>
      let q := if 0 <=? e then inject_Z (Z.shiftl (Zpos m) e)
               else Qmake (Zpos m) (Pos.shiftl 1 (Z.to_N (- e))) in
      Some (if s then Qopp q else q)
  | _ => None
  end.
End IEEE.

Module F32.
Definition prec := 24.
Definition emax := 128.
Definition of_Z := fl_of_Z prec emax.
Definition of_float := fl_round prec emax.
Definition mul := SFmul prec emax.
Definition add := SFadd prec emax.
End F32.

Module F64.
Definition prec := 53.
Definition emax := 1024.
Definition of_Z := fl_of_Z prec emax.
Definition make (m e : Z) : spec_float := binary_normalize prec emax m e false.
Definition mul := SFmul prec emax.
Definition add := SFadd prec emax.
Definition sub := SFsub prec emax.
Definition div := SFdiv prec emax.
Definition one : spec_float := of_Z 1.
Definition zero : spec_float := S754_zero false.
End F64.

(** [x.astype(np.uint8)] on one float element.  The C conversion truncates;
    on a NaN it is left to the platform and yields 0 on x86. *)
Definition to_uint8 (f : spec_float) : Z :=
  match fl_trunc f with
  | Some z => z mod 256
  | None => 0
  end.

(** ** Parameter bags

    Operations receive their parameters as keyword arguments, a dictionary
    from names to dynamically typed values. *)

Inductive NoiseType := GAUSSIAN | SALT_PEPPER.

Inductive FilterType := GRAYSCALE | SEPIA | INVERT | SOBEL_EDGE | CANNY_EDGE | EMBOSS.

Inductive value :=
| VInt (z : Z)
| VFloat (f : spec_float)
| VBool (b : bool)
| VStr (s : string)
| VNoise (n : NoiseType)
| VFilter (f : FilterType).

Abbreviation Kwargs := (gmap string value).

(** [kwargs.get(key, default)] *)
Definition kwargs_get (kwargs : Kwargs) (key : string) (default : value) : value :=
  match kwargs !! key with
  | Some v => v
  | None => default
  end.

Definition type_error {A} (what : string) : result A :=
  Raise (Exc TypeError what).

(** A value used where Python needs an integer (an index, a slice bound):
    [int] and [bool] qualify, anything else raises [TypeError]. *)
Definition as_index (v : value) : result Z :=
  match v with
  | VInt z => Return z
  | VBool b => Return (if b then 1 else 0)
  | _ => type_error "slice indices must be integers or None or have an __index__ method"
  end.

(** A value used as an operand of Python's float arithmetic; [bool] is a
    subtype of [int]. *)
Definition as_float (v : value) : result spec_float :=
  match v with
  | VInt z => Return (F64.of_Z z)
  | VBool b => Return (F64.of_Z (if b then 1 else 0))
  | VFloat f => Return f
  | _ => type_error "unsupported operand type(s)"
  end.

(** The numbers among the values. *)
Inductive number :=
| NInt (z : Z)
| NFloat (f : spec_float).

Definition as_number (v : value) : option number :=
  match v with
  | VInt z => Some (NInt z)
  | VBool b => Some (NInt (if b then 1 else 0))
  | VFloat f => Some (NFloat f)
  | _ => None
  end.

Definition number_to_float (n : number) : spec_float :=
  match n with
  | NInt z => F64.of_Z z
  | NFloat f => f
  end.

(** [z < f] and [f < z] for an integer and a float: Python compares the
    two exactly, without converting the integer. *)
Definition Z_lt_float (z : Z) (f : spec_float) : bool :=
  match f with
  | S754_nan => false
  | S754_infinity s => negb s
  | _ => match fl_to_Q f with
         | Some q => negb (Qle_bool q (inject_Z z))
         | None => false
         end
  end.

Definition float_lt_Z (f : spec_float) (z : Z) : bool :=
  match f with
  | S754_nan => false
  | S754_infinity s => s
  | _ => match fl_to_Q f with
         | Some q => negb (Qle_bool (inject_Z z) q)
         | None => false
         end
  end.

(** [a < b]: defined between numbers and between strings. *)
Definition py_lt (a b : value) : result bool :=
  match as_number a, as_number b with
  | Some (NInt x), Some (NInt y) => Return (x <? y)
  | Some (NInt x), Some (NFloat g) => Return (Z_lt_float x g)
  | Some (NFloat f), Some (NInt y) => Return (float_lt_Z f y)
  | Some (NFloat f), Some (NFloat g) => Return (SFltb f g)
  | _, _ =>
      match a, b with
      | VStr s, VStr t => Return (String.ltb s t)
      | _, _ => type_error "'<' not supported between instances"
      end
  end.

(** [min(a, b)] and [max(a, b)]: the second argument is returned only when
    it compares strictly below (above) the first. *)
Definition builtin_min (a b : value) : result value :=
  below ← py_lt b a;
  Return (if below : bool then b else a).

Definition builtin_max (a b : value) : result value :=
  above ← py_lt a b;
  Return (if above : bool then b else a).

(** [s * n] on a string. *)
Fixpoint str_repeat (s : string) (n : nat) : string :=
  match n with
  | O => ""
  | S n => s +:+ str_repeat s n
  end.

(** [a + b], [a - b] and [a * b]: integer arithmetic on two integers,
    binary64 arithmetic when a float takes part; [+] also joins two strings
    and [*] repeats a string. *)
Definition py_add (a b : value) : result value :=
  match as_number a, as_number b with
  | Some (NInt x), Some (NInt y) => Return (VInt (x + y))
  | Some x, Some y => Return (VFloat (F64.add (number_to_float x) (number_to_float y)))
  | _, _ =>
      match a, b with
      | VStr s, VStr t => Return (VStr (s +:+ t))
      | _, _ => type_error "unsupported operand type(s) for +"
      end
  end.

Definition py_sub (a b : value) : result value :=
  match as_number a, as_number b with
  | Some (NInt x), Some (NInt y) => Return (VInt (x - y))
  | Some x, Some y => Return (VFloat (F64.sub (number_to_float x) (number_to_float y)))
  | _, _ => type_error "unsupported operand type(s) for -"
  end.

Definition py_mul (a b : value) : result value :=
  match as_number a, as_number b with
  | Some (NInt x), Some (NInt y) => Return (VInt (x * y))
  | Some x, Some y => Return (VFloat (F64.mul (number_to_float x) (number_to_float y)))
  | _, _ =>
      match a, as_number b, as_number a, b with
      | VStr s, Some (NInt n), _, _ => Return (VStr (str_repeat s (Z.to_nat n)))
      | _, _, Some (NInt n), VStr s => Return (VStr (str_repeat s (Z.to_nat n)))
      | _, _, _, _ => type_error "unsupported operand type(s) for *"
      end
  end.

(** A Python scalar combined with a [float32] array takes the array's type. *)
Definition as_float32 (v : value) : result spec_float :=
  match v with
  | VInt z => Return (F32.of_Z z)
  | VBool b => Return (F32.of_Z (if b then 1 else 0))
  | VFloat f => Return (F32.of_float f)
  | _ => type_error "unsupported operand type(s)"
  end.

(** [v == n] for an integer literal [n]. *)
Definition eq_int (v : value) (n : Z) : bool :=
  match v with
  | VInt z => z =? n
  | VBool b => (if b then 1 else 0) =? n
  | VFloat f => SFeqb f (F64.of_Z n)
  | _ => false
  end.

(** [v == s] for a string literal [s]. *)
Definition eq_str (v : value) (s : string) : bool :=
  match v with
  | VStr t => String.eqb t s
  | _ => false
  end.

(** Truth value of [v] in an [if]. *)
Definition truthy (v : value) : bool :=
  match v with
  | VInt z => negb (z =? 0)
  | VFloat f => match f with S754_zero _ => false | _ => true end
  | VBool b => b
  | VStr s => negb (String.eqb s "")
  | VNoise _ | VFilter _ => true
  end.

(** [int(f)] *)
Definition py_int (f : spec_float) : result Z :=
  match fl_trunc f with
  | Some z => Return z
  | None =>
      if fl_is_nan f then Raise (Exc ValueError "cannot convert float NaN to integer")
      else Raise (Exc OverflowError "cannot convert float infinity to integer")
  end.

(** [a / b]: always a float.  A zero divisor raises, with one message when
    both operands are integers and another when a float takes part. *)
Definition py_truediv (a b : value) : result spec_float :=
  match as_number a, as_number b with
  | Some (NInt x), Some (NInt y) =>
      if y =? 0 then Raise (Exc ZeroDivisionError "division by zero")
      else Return (F64.div (F64.of_Z x) (F64.of_Z y))
  | Some x, Some y =>
      match number_to_float y with
      | S754_zero _ => Raise (Exc ZeroDivisionError "float division by zero")
      | d => Return (F64.div (number_to_float x) d)
      end
  | _, _ => type_error "unsupported operand type(s) for /"
  end.

(** ** External collaborators

    The vision library's filters, the C library's trigonometry, numpy's
    random generator and the thread runtime are outside the repository.
    The operations whose result a property below depends on ([cv2.flip],
    [cv2.rotate], [cv2.warpAffine], [cv2.getRotationMatrix2D]) are defined
    from their documented contract further down; the others are taken as
    given. *)

Inductive ColorConversion := COLOR_RGB2GRAY | COLOR_GRAY2RGB.

Class Collaborators := {
  libm_cos : spec_float -> spec_float;
  libm_sin : spec_float -> spec_float;
  (** How the vision library rounds an interpolated value that lies exactly
      halfway between [n] and [n + 1]: up in some releases, to the even
      neighbour in others. *)
  cv2_round_half_up : Z -> bool;
  (** Whether the thread of a worker built from this image, operation and
      parameter bag, killed by [QThread.terminate()] before its [run] has
      returned, lets go of the interpreter.  A thread killed in the middle
      of a computation does not, and whoever waits for it waits for ever;
      which of the two happens is a matter of timing. *)
  Qt_terminate_releases : ndarray -> string -> gmap string value -> bool;
  cv2_filter2D : ndarray -> list (list Z) -> result ndarray;
  cv2_GaussianBlur : ndarray -> value * value -> spec_float -> result ndarray;
  cv2_addWeighted :
    ndarray -> spec_float -> ndarray -> spec_float -> spec_float -> result ndarray;
  cv2_medianBlur : ndarray -> value -> result ndarray;
  cv2_bilateralFilter : ndarray -> value -> spec_float -> spec_float -> result ndarray;
  cv2_cvtColor : ndarray -> ColorConversion -> result ndarray;
  cv2_transform : ndarray -> list (list spec_float) -> result ndarray;
  cv2_Sobel : ndarray -> Z -> Z -> Z -> result (array spec_float);
  cv2_Canny : ndarray -> Z -> Z -> result ndarray;
  cv2_resize : ndarray -> value * value -> result ndarray;
  (** [np.random.normal(0, scale, (h, w, c))], for whatever value is given
      as the scale *)
  np_random_normal : value -> nat -> nat -> nat -> result (list (list (list spec_float)));
  (** [np.random.random((h, w, c))] *)
  np_random_random : nat -> nat -> nat -> list (list (list spec_float))
}.

(** ** The vision library's geometric primitives *)

Module cv2.

Inductive RotateFlags := ROTATE_90_CLOCKWISE | ROTATE_180 | ROTATE_90_COUNTERCLOCKWISE.

Section Geometry.
Context {A : Type}.

(** Row [j] of the transpose is column [j] of the source. *)
Definition transpose (g : list (list A)) : list (list A) :=
  map (fun j => omap (fun r : list A => r !! j) g) (seq 0 (grid_width g)).

(** [cv2.rotate]: a transpose followed by a flip, or both flips. *)
Definition rotate_grid (g : list (list A)) (code : RotateFlags) : list (list A) :=
  match code with
  | ROTATE_90_CLOCKWISE => grid_flip_h (transpose g)
  | ROTATE_180 => grid_flip_v (grid_flip_h g)
  | ROTATE_90_COUNTERCLOCKWISE => grid_flip_v (transpose g)
  end.
End Geometry.

(** [cv2.flip(image, flipCode)]: 1 mirrors columns, 0 mirrors rows. *)
Definition flip (image : ndarray) (flipCode : Z) : ndarray :=
  match image with
  | Gray g => Gray (if 0 <? flipCode then grid_flip_h g else grid_flip_v g)
  | Color g => Color (if 0 <? flipCode then grid_flip_h g else grid_flip_v g)
  end.

Definition rotate (image : ndarray) (code : RotateFlags) : ndarray :=
  match image with
  | Gray g => Gray (rotate_grid g code)
  | Color g => Color (rotate_grid g code)
  end.

(** A 2x3 affine matrix of doubles. *)
Record Matx23 := {
  m00 : spec_float; m01 : spec_float; m02 : spec_float;
  m10 : spec_float; m11 : spec_float; m12 : spec_float
}.

(** The double nearest to pi / 180. *)
Definition deg2rad : spec_float := F64.make 5030569068109113 (-58).

(** A Python value passed where the library takes a [double]: an [int] or
    a [float]; a [bool] is refused like any other type. *)
Definition as_double (v : value) : result spec_float :=
  match v with
  | VInt z => Return (F64.of_Z z)
  | VFloat f => Return f
  | _ => type_error "Argument 'angle' can not be treated as a double"
  end.

Definition getRotationMatrix2D `{Collaborators}
    (center : Z * Z) (angle scale : spec_float) : Matx23 :=
  let angle := F64.mul angle deg2rad in
  let alpha := F64.mul (libm_cos angle) scale in
  let beta := F64.mul (libm_sin angle) scale in
  let cx := F64.of_Z (fst center) in
  let cy := F64.of_Z (snd center) in
  {| m00 := alpha; m01 := beta;
     m02 := F64.sub (F64.mul (F64.sub F64.one alpha) cx) (F64.mul beta cy);
     m10 := SFopp beta; m11 := alpha;
     m12 := F64.add (F64.mul beta cx) (F64.mul (F64.sub F64.one alpha) cy) |}.

(** The source pixel at column [x], row [y], channel [c]; 0 outside the
    image (constant border). *)
Definition pixel_at (g : list (list (list Z))) (c : nat) (x y : Z) : Z :=
  if (x <? 0) || (y <? 0) then 0
  else match g !! Z.to_nat y with
       | Some row =>
           match row !! Z.to_nat x with
           | Some p => match p !! c with Some v => v | None => 0 end
           | None => 0
           end
       | None => 0
       end.

(** Rounding to the nearest integer; at an exact half the library's rule
    decides. *)
Definition round_nearest `{Collaborators} (v : Q) : Z :=
  let n := Qfloor v in
  match (v - inject_Z n ?= 1 # 2)%Q with
  | Lt => n
  | Gt => n + 1
  | Eq => if cv2_round_half_up n then n + 1 else n
  end.

(** Bilinear interpolation at the real position [(sx, sy)], rounded to the
    nearest integer. *)
Definition bilinear `{Collaborators} (g : list (list (list Z))) (c : nat) (sx sy : Q) : Z :=
  let x0 := Qfloor sx in
  let y0 := Qfloor sy in
  let fx := (sx - inject_Z x0)%Q in
  let fy := (sy - inject_Z y0)%Q in
  let s (dx dy : Z) := inject_Z (pixel_at g c (x0 + dx) (y0 + dy)) in
  let s00 := s 0 0 in
  let s10 := s 1 0 in
  let s01 := s 0 1 in
  let s11 := s 1 1 in
  let v := ((1 - fx) * (1 - fy) * s00 + fx * (1 - fy) * s10
            + (1 - fx) * fy * s01 + fx * fy * s11)%Q in
  round_nearest v.

(** [invertAffineTransform], over the exact values of the entries. *)
Definition invert (a b tx c d ty : Q) : Q * Q * Q * Q * Q * Q :=
  let det := (a * d - b * c)%Q in
  let k := if Qeq_bool det 0 then 0%Q else (/ det)%Q in
  let a11 := (d * k)%Q in
  let a22 := (a * k)%Q in
  let a12 := (- b * k)%Q in
  let a21 := (- c * k)%Q in
  (a11, a12, (- a11 * tx - a12 * ty)%Q, a21, a22, (- a21 * tx - a22 * ty)%Q).

Definition warp_grid `{Collaborators} (g : list (list (list Z))) (channels : nat)
    (inv : Q * Q * Q * Q * Q * Q) (new_w new_h : nat) : list (list (list Z)) :=
  let '(a11, a12, b1, a21, a22, b2) := inv in
  map (fun y =>
    map (fun x =>
      let qx := inject_Z (Z.of_nat x) in
      let qy := inject_Z (Z.of_nat y) in
      let sx := (a11 * qx + a12 * qy + b1)%Q in
      let sy := (a21 * qx + a22 * qy + b2)%Q in
      map (fun c => bilinear g c sx sy) (seq 0 channels))
    (seq 0 new_w))
  (seq 0 new_h).

(** [cv2.warpAffine(image, M, dsize)] with its defaults: the destination
    pixel [(x, y)] is the source sampled at the inverse of [M], bilinear
    interpolation, constant zero border.  The library evaluates the same
    formula in fixed point; the two agree wherever the sampled
    position is a multiple of 1/32. *)
Definition warpAffine `{Collaborators} (image : ndarray) (M : Matx23) (dsize : Z * Z)
    : result ndarray :=
  let '(new_w, new_h) := dsize in
  if (new_w <=? 0) || (new_h <=? 0) then
    Raise (Exc cv2_error "(-215:Assertion failed) dsize.area() > 0")
  else
    match fl_to_Q (m00 M), fl_to_Q (m01 M), fl_to_Q (m02 M),
          fl_to_Q (m10 M), fl_to_Q (m11 M), fl_to_Q (m12 M) with
    | Some a, Some b, Some tx, Some c, Some d, Some ty =>
        let inv := invert a b tx c d ty in
        match image with
        | Gray g =>
            let g3 := map (map (fun v => [v])) g in
            let r := warp_grid g3 1 inv (Z.to_nat new_w) (Z.to_nat new_h) in
            Return (Gray (map (map (fun p => match p with v :: _ => v | [] => 0 end)) r))
        | Color g =>
            let channels := match g with (p :: _) :: _ => length p | _ => O end in
            Return (Color (warp_grid g channels inv (Z.to_nat new_w) (Z.to_nat new_h)))
        end
    | _, _, _, _, _, _ =>
        Raise (Exc cv2_error "transformation matrix is not finite")
    end.

End cv2.

(** ** The operation catalog ([ImageProcessor]) *)

Module ImageProcessor.
Section Operations.
Context `{Collaborators}.

Definition rotate_image (image : ndarray) (angle : value) : result ndarray :=
  if eq_int angle 90 then Return (cv2.rotate image cv2.ROTATE_90_CLOCKWISE)
  else if eq_int angle 180 then Return (cv2.rotate image cv2.ROTATE_180)
  else if eq_int angle 270 then Return (cv2.rotate image cv2.ROTATE_90_COUNTERCLOCKWISE)
  else
    let h := Z.of_nat (img_height image) in
    let w := Z.of_nat (img_width image) in
    let center := (w / 2, h / 2) in
    a ← cv2.as_double angle;
    let rotation_matrix := cv2.getRotationMatrix2D center a F64.one in
    let cos_val := SFabs (cv2.m00 rotation_matrix) in
    let sin_val := SFabs (cv2.m01 rotation_matrix) in
    new_w ← py_int (F64.add (F64.mul (F64.of_Z h) sin_val)
                            (F64.mul (F64.of_Z w) cos_val));
    new_h ← py_int (F64.add (F64.mul (F64.of_Z h) cos_val)
                            (F64.mul (F64.of_Z w) sin_val));
    let half n := F64.div (F64.of_Z n) (F64.of_Z 2) in
    let rotation_matrix :=
      {| cv2.m00 := cv2.m00 rotation_matrix;
         cv2.m01 := cv2.m01 rotation_matrix;
         cv2.m02 := F64.add (cv2.m02 rotation_matrix)
                      (F64.sub (half new_w) (F64.of_Z (fst center)));
         cv2.m10 := cv2.m10 rotation_matrix;
         cv2.m11 := cv2.m11 rotation_matrix;
         cv2.m12 := F64.add (cv2.m12 rotation_matrix)
                      (F64.sub (half new_h) (F64.of_Z (snd center))) |} in
    cv2.warpAffine image rotation_matrix (new_w, new_h).

Definition crop_image (image : ndarray) (x y width height : Z) : ndarray :=
  let h := Z.of_nat (img_height image) in
  let w := Z.of_nat (img_width image) in
  let x := Z.max 0 (Z.min x w) in
  let y := Z.max 0 (Z.min y h) in
  let width := Z.min width (w - x) in
  let height := Z.min height (h - y) in
  match image with
  | Gray g => Gray (grid_slice g y (y + height) x (x + width))
  | Color g => Color (grid_slice g y (y + height) x (x + width))
  end.

(** [crop_image] as Python runs it on arguments of any type, which is how
    the worker calls it with the values of a parameter bag: [min], [max],
    [-] and [+] take what they are given, and only the slice insists on
    integers.  On integers it is [crop_image] above. *)
Definition crop_image_values (image : ndarray) (x y width height : value)
    : result ndarray :=
  let h := VInt (Z.of_nat (img_height image)) in
  let w := VInt (Z.of_nat (img_width image)) in
  m ← builtin_min x w;
  x ← builtin_max (VInt 0) m;
  m ← builtin_min y h;
  y ← builtin_max (VInt 0) m;
  d ← py_sub w x;
  width ← builtin_min width d;
  d ← py_sub h y;
  height ← builtin_min height d;
  y1 ← py_add y height;
  x1 ← py_add x width;
  y0 ← as_index y;
  y1 ← as_index y1;
  x0 ← as_index x;
  x1 ← as_index x1;
  Return match image with
         | Gray g => Gray (grid_slice g y0 y1 x0 x1)
         | Color g => Color (grid_slice g y0 y1 x0 x1)
         end.

Definition flip_image (image : ndarray) (horizontal : value) : ndarray :=
  if truthy horizontal then cv2.flip image 1
  else cv2.flip image 0.

Definition adjust_brightness_contrast
    (image : ndarray) (brightness contrast : value) : result ndarray :=
  let adjusted := array_map F32.of_Z image in
  c ← as_float32 contrast;
  b ← as_float32 brightness;
  let adjusted := array_map (fun v => F32.add (F32.mul v c) b) adjusted in
  let adjusted :=
    array_map (fun v => fl_clip v (F32.of_Z 0) (F32.of_Z 255)) adjusted in
  Return (array_map to_uint8 adjusted).

(** [np.clip(a, 0, 255).astype(np.uint8)] on an 8-bit array. *)
Definition clip_uint8 (a : ndarray) : ndarray :=
  array_map (fun v => Z.max 0 (Z.min v 255) mod 256) a.

Definition sharpen_image (image : ndarray) (method strength : value) : result ndarray :=
  if eq_str method "laplacian" then
    let kernel := [[0; -1; 0]; [-1; 5; -1]; [0; -1; 0]] in
    sharpened ← cv2_filter2D image kernel;
    Return (clip_uint8 sharpened)
  else if eq_str method "unsharp_mask" then
    gaussian ← cv2_GaussianBlur image (VInt 0, VInt 0) (F64.of_Z 2);
    s ← as_float strength;
    sharpened ← cv2_addWeighted image (F64.add F64.one s) gaussian (SFopp s) F64.zero;
    Return (clip_uint8 sharpened)
  else Return image.

(** Element-wise combination of two arrays of one shape. *)
Definition zip3 {X Y W} (f : X -> Y -> W)
    (a : list (list (list X))) (b : list (list (list Y))) : list (list (list W)) :=
  zip_with (zip_with (zip_with f)) a b.

Definition add_noise (image : ndarray) (noise_type intensity : value) : result ndarray :=
  match image with
  | Color g =>
      match shape image with
      | [h; w; c] =>
          let noisy_image := map (map (map F32.of_Z)) g in
          noisy_image ←
            match noise_type with
            | VNoise GAUSSIAN =>
                scale ← py_mul intensity (VInt 255);
                noise ← np_random_normal scale h w c;
                Return (zip3 (fun v n => F32.of_float (F64.add v n)) noisy_image noise)
            | VNoise SALT_PEPPER =>
                let noise := np_random_random h w c in
                half ← py_truediv intensity (VInt 2);
                let pepper :=
                  zip3 (fun v n => if SFltb n half then F32.of_Z 0 else v)
                       noisy_image noise in
                Return (zip3 (fun v n => if SFltb (F64.sub F64.one half) n
                                         then F32.of_Z 255 else v)
                             pepper noise)
            | _ => Return noisy_image
            end;
          Return (Color (map (map (map (fun v =>
                    to_uint8 (fl_clip v (F32.of_Z 0) (F32.of_Z 255))))) noisy_image))
      | _ => Raise (Exc ValueError "not enough values to unpack (expected 3, got 2)")
      end
  | Gray _ => Raise (Exc ValueError "not enough values to unpack (expected 3, got 2)")
  end.

Definition blur_image (image : ndarray) (blur_type kernel_size : value) : result ndarray :=
  if eq_str blur_type "gaussian" then
    cv2_GaussianBlur image (kernel_size, kernel_size) F64.zero
  else if eq_str blur_type "median" then
    cv2_medianBlur image kernel_size
  else if eq_str blur_type "bilateral" then
    cv2_bilateralFilter image kernel_size (F64.of_Z 80) (F64.of_Z 80)
  else Return image.

(** A decimal literal [n / 1000] as the nearest double. *)
Definition milli (n : Z) : spec_float := F64.div (F64.of_Z n) (F64.of_Z 1000).

Definition apply_filter (image : ndarray) (filter_type : value) : result ndarray :=
  match filter_type with
  | VFilter GRAYSCALE =>
      gray ← cv2_cvtColor image COLOR_RGB2GRAY;
      cv2_cvtColor gray COLOR_GRAY2RGB
  | VFilter SEPIA =>
      let sepia_kernel :=
        [[milli 272; milli 534; milli 131];
         [milli 349; milli 686; milli 168];
         [milli 393; milli 769; milli 189]] in
      sepia_image ← cv2_transform image sepia_kernel;
      Return (clip_uint8 sepia_image)
  | VFilter INVERT =>
      Return (array_map (fun v => (255 - v) mod 256) image)
  | VFilter SOBEL_EDGE =>
      gray ← cv2_cvtColor image COLOR_RGB2GRAY;
      sobel_x ← cv2_Sobel gray 1 0 3;
      sobel_y ← cv2_Sobel gray 0 1 3;
      match sobel_x, sobel_y with
      | Gray gx, Gray gy =>
          let sobel :=
            zip_with (zip_with (fun a b =>
              SFsqrt F64.prec F64.emax (F64.add (F64.mul a a) (F64.mul b b)))) gx gy in
          let sobel :=
            map (map (fun v => to_uint8 (fl_clip v (F64.of_Z 0) (F64.of_Z 255)))) sobel in
          cv2_cvtColor (Gray sobel) COLOR_GRAY2RGB
      | _, _ => Raise (Exc ValueError "operands could not be broadcast together")
      end
  | VFilter CANNY_EDGE =>
      gray ← cv2_cvtColor image COLOR_RGB2GRAY;
      edges ← cv2_Canny gray 100 200;
      cv2_cvtColor edges COLOR_GRAY2RGB
  | VFilter EMBOSS =>
      let emboss_kernel := [[-2; -1; 0]; [-1; 1; 1]; [0; 1; 2]] in
      gray ← cv2_cvtColor image COLOR_RGB2GRAY;
      embossed ← cv2_filter2D gray emboss_kernel;
      let embossed := clip_uint8 (array_map (fun v => (v + 128) mod 256) embossed) in
      cv2_cvtColor embossed COLOR_GRAY2RGB
  | _ => Return image
  end.

Definition resize_image (image : ndarray) (width height maintain_aspect : value)
    : result ndarray :=
  if truthy maintain_aspect then
    let h := VInt (Z.of_nat (img_height image)) in
    let w := VInt (Z.of_nat (img_width image)) in
    aspect_ratio ← py_truediv w h;
    ratio ← py_truediv width height;
    if SFltb aspect_ratio ratio then
      hf ← as_float height;
      new_width ← py_int (F64.mul hf aspect_ratio);
      cv2_resize image (VInt new_width, height)
    else
      scaled ← py_truediv width (VFloat aspect_ratio);
      new_height ← py_int scaled;
      cv2_resize image (width, VInt new_height)
  else cv2_resize image (width, height).

End Operations.
End ImageProcessor.

(** ** The background worker ([ImageProcessingWorker]) *)

Module ImageProcessingWorker.

(** The request a worker is constructed with: a private copy of the image,
    the operation name and the parameter bag. *)
Record t := Build { image : ndarray; operation : string; kwargs : Kwargs }.

(** The signals a worker sends to the thread that owns the manager. *)
Inductive signal :=
| finished (result : ndarray)
| error (msg : string)
| progress (percent : Z)
| status_update (msg : string).

Definition real_time_operations : list string := ["brightness_contrast"].

(** [operation in real_time_operations] *)
Definition is_real_time (operation : string) : bool :=
  existsb (String.eqb operation) real_time_operations.

Section Run.
Context `{Collaborators}.

(** The dispatch on the operation name.  Returns the signals emitted on
    the way and the outcome: an image, [None], or an exception. *)
Definition _execute_operation (self : t) : list signal * result (option ndarray) :=
  let get := kwargs_get (kwargs self) in
  let shape0 := VInt (Z.of_nat (img_height (image self))) in
  let shape1 := VInt (Z.of_nat (img_width (image self))) in
  let emitted := if is_real_time (operation self) then [] else [progress 30] in
  let outcome : result ndarray :=
    if String.eqb (operation self) "rotate" then
      ImageProcessor.rotate_image (image self) (get "angle" (VInt 0))
    else if String.eqb (operation self) "crop" then
      ImageProcessor.crop_image_values (image self)
        (get "x" (VInt 0)) (get "y" (VInt 0))
        (get "width" shape1) (get "height" shape0)
    else if String.eqb (operation self) "flip" then
      Return (ImageProcessor.flip_image (image self) (get "horizontal" (VBool true)))
    else if String.eqb (operation self) "brightness_contrast" then
      ImageProcessor.adjust_brightness_contrast (image self)
        (get "brightness" (VInt 0)) (get "contrast" (VFloat F64.one))
    else if String.eqb (operation self) "sharpen" then
      ImageProcessor.sharpen_image (image self)
        (get "method" (VStr "laplacian")) (get "strength" (VFloat F64.one))
    else if String.eqb (operation self) "add_noise" then
      ImageProcessor.add_noise (image self)
        (get "noise_type" (VNoise GAUSSIAN))
        (get "intensity" (VFloat (F64.div (F64.of_Z 1) (F64.of_Z 10))))
    else if String.eqb (operation self) "blur" then
      ImageProcessor.blur_image (image self)
        (get "blur_type" (VStr "gaussian")) (get "kernel_size" (VInt 5))
    else if String.eqb (operation self) "filter" then
      ImageProcessor.apply_filter (image self) (get "filter_type" (VFilter GRAYSCALE))
    else if String.eqb (operation self) "resize" then
      ImageProcessor.resize_image (image self)
        (get "width" shape1) (get "height" shape0) (get "maintain_aspect" (VBool true))
    else
      Raise (Exc ValueError ("Unknown operation: " +:+ operation self)) in
  (emitted, img ← outcome; Return (Some img)).

(** [run]: the body of the worker thread, as the list of signals it
    emits, in order. *)
Definition run (self : t) : list signal :=
  let is_real_time := is_real_time (operation self) in
  let verbose (l : list signal) := if is_real_time then [] else l in
  let starting :=
    verbose [status_update ("Starting " +:+ operation self +:+ "..."); progress 10] in
  let '(emitted, result) := _execute_operation self in
  match result with
  | Return result =>
      let finalizing :=
        verbose [progress 90;
                 status_update ("Finalizing " +:+ operation self +:+ "...")] in
      match result with
      | Some result =>
          starting ++ emitted ++ finalizing
          ++ verbose [progress 100;
                      status_update (operation self +:+ " completed successfully")]
          ++ [finished result]
      | None =>
          starting ++ emitted ++ finalizing
          ++ [error ("Failed to execute " +:+ operation self)]
      end
  | Raise e =>
      let error_msg := "Error in " +:+ operation self +:+ ": " +:+ exc_str e in
      starting ++ emitted ++ [error error_msg]
  end.
End Run.

End ImageProcessingWorker.

(** ** The Qt runtime seen from the manager's thread

    A worker's signals cross threads: they are posted to the event queue of
    the thread that owns the manager and delivered there one by one.  A
    signal emitted on the manager's own thread calls its slots at once.  A
    worker's [run] is taken as one atomic step of the worker thread. *)

Module Qt.

(** The state of a worker's thread.  [Running]: started, [run] has not
    returned.  [Finished]: [run] has returned, or the thread was killed and
    is gone.  [Terminated]: killed in the middle of a computation; such a
    thread never lets go of the interpreter, it never counts as finished,
    and a [wait()] on it does not return. *)
Inductive thread_state := Running | Finished | Terminated.

(** What the manager's thread does to the outside: the signals it emits
    and the calls it makes on worker threads. *)
Inductive effect :=
| processing_finished (result : ndarray)
| processing_error (msg : string)
| processing_progress (percent : Z)
| processing_status (msg : string)
| batch_finished (result : ndarray)
| batch_error (msg : string)
| batch_progress (percent : Z) (label : string)
| start (w : ImageProcessingWorker.t)
| terminate (w : ImageProcessingWorker.t)
| wait (w : ImageProcessingWorker.t)
| quit (w : ImageProcessingWorker.t)
| deleteLater (w : ImageProcessingWorker.t).

End Qt.

(** ** The task dispatcher ([ThreadManager]) *)

Module ThreadManager.

Record worker_thread := {
  task : ImageProcessingWorker.t;
  thread : Qt.thread_state
}.

Record t := {
  current_worker : option worker_thread;
  operation_queue : list (string * Kwargs);
  is_processing : bool
}.

(** [__init__] *)
Definition init : t :=
  {| current_worker := None; operation_queue := []; is_processing := false |}.

(** The manager holds a worker that was killed and never lets go. *)
Definition wedged (m : t) : bool :=
  match current_worker m with
  | Some c =>
      match thread c with
      | Qt.Terminated => true
      | _ => false
      end
  | None => false
  end.

(** The manager together with whatever listens to its signals (state [L]),
    the queue of worker signals not delivered yet, and the effects so
    far, oldest first. *)
Record world (L : Type) := {
  self : t;
  listener : L;
  posted : list ImageProcessingWorker.signal;
  trace : list Qt.effect
}.
Arguments self {L} w.
Arguments listener {L} w.
Arguments posted {L} w.
Arguments trace {L} w.

Section Manager.
Context `{Collaborators} {L : Type}.

(** The slots connected to [processing_finished] and to
    [processing_error]. *)
Variable finished_slot : ndarray -> world L -> world L.
Variable error_slot : string -> world L -> world L.

Definition set_self (f : t -> t) (w : world L) : world L :=
  {| self := f (self w); listener := listener w;
     posted := posted w; trace := trace w |}.

Definition log (e : Qt.effect) (w : world L) : world L :=
  {| self := self w; listener := listener w;
     posted := posted w; trace := trace w ++ [e] |}.

Definition post (l : list ImageProcessingWorker.signal) (w : world L) : world L :=
  {| self := self w; listener := listener w;
     posted := posted w ++ l; trace := trace w |}.

Definition set_current_worker (c : option worker_thread) : world L -> world L :=
  set_self (fun m => {| current_worker := c;
                        operation_queue := operation_queue m;
                        is_processing := is_processing m |}).

Definition set_is_processing (b : bool) : world L -> world L :=
  set_self (fun m => {| current_worker := current_worker m;
                        operation_queue := operation_queue m;
                        is_processing := b |}).

(** [worker.terminate()] on a worker that is running: its thread is killed
    where it stands, and nothing of its [run] is posted.  Whether the thread
    lets go of the interpreter is the runtime's to say; the result is the
    worker as the call leaves it. *)
Definition terminate (c : worker_thread) : worker_thread :=
  let released :=
    Qt_terminate_releases (ImageProcessingWorker.image (task c))
      (ImageProcessingWorker.operation (task c))
      (ImageProcessingWorker.kwargs (task c)) in
  {| task := task c; thread := if released then Qt.Finished else Qt.Terminated |}.

(** [worker.wait()]: returns once the worker's thread has finished.  A
    worker still running completes first and its signals are posted; on a
    worker killed in the middle of a computation the call never returns
    ([None]). *)
Definition wait (c : worker_thread) (w : world L) : option (world L) :=
  match thread c with
  | Qt.Running =>
      Some (log (Qt.wait (task c)) (post (ImageProcessingWorker.run (task c)) w))
  | Qt.Finished => Some (log (Qt.wait (task c)) w)
  | Qt.Terminated => None
  end.

(** The manager's thread has called [wait()] on its worker and the call
    never returns: the state is the one at the call and stays so. *)
Definition stuck_in_wait (c : worker_thread) (w : world L) : world L :=
  log (Qt.wait (task c)) w.

(** The manager's thread sits in such a [wait()]: it executes nothing
    more, and its event loop delivers nothing. *)
Definition blocked (w : world L) : bool := wedged (self w).

Definition _cleanup_worker (w : world L) : world L :=
  match current_worker (self w) with
  | Some c =>
      let w := log (Qt.quit (task c)) w in
      match wait c w with
      | Some w =>
          let w := log (Qt.deleteLater (task c)) w in
          set_current_worker None w
      | None => stuck_in_wait c w
      end
  | None => w
  end.

Definition is_busy (w : world L) : bool := is_processing (self w).

Definition cancel_current_operation (w : world L) : world L :=
  match current_worker (self w) with
  | Some c =>
      match thread c with
      | Qt.Running =>
          let c := terminate c in
          let w := set_current_worker (Some c) w in
          let w := log (Qt.terminate (task c)) w in
          match wait c w with
          | Some w =>
              let w := _cleanup_worker w in
              let w := set_is_processing false w in
              log (Qt.processing_status "Operation cancelled") w
          | None => stuck_in_wait c w
          end
      | _ => w
      end
  | None => w
  end.

(** [processing_error.emit(msg)] *)
Definition emit_processing_error (msg : string) (w : world L) : world L :=
  error_slot msg (log (Qt.processing_error msg) w).

(** [processing_finished.emit(result)] *)
Definition emit_processing_finished (result : ndarray) (w : world L) : world L :=
  finished_slot result (log (Qt.processing_finished result) w).

(** The caller's [image] may be [None]; constructing the worker then
    fails on [image.copy()] and the [except] branch reports it.  The value
    returned is [None] when the call never returns, the manager's thread
    being stuck in the cancellation's [wait()]. *)
Definition process_image (image : option ndarray) (operation : string)
    (kwargs : Kwargs) (w : world L) : option bool * world L :=
  let try (w : world L) :=
    match image with
    | Some image =>
        let worker := ImageProcessingWorker.Build image operation kwargs in
        let w :=
          set_current_worker (Some {| task := worker; thread := Qt.Running |}) w in
        let w := set_is_processing true w in
        let w := log (Qt.start worker) w in
        (Some true, w)
    | None =>
        let error_msg :=
          "Failed to start processing: "
          +:+ "'NoneType' object has no attribute 'copy'" in
        (Some false, emit_processing_error error_msg w)
    end in
  if is_processing (self w) then
    if ImageProcessingWorker.is_real_time operation then
      let w := cancel_current_operation w in
      if blocked w then (None, w) else try w
    else
      (Some false, emit_processing_error "Another operation is already in progress" w)
  else try w.

(** The two handlers emit the manager's signal first, which runs the
    connected slot to its end, and clean up after it; when the slot leaves
    the manager's thread blocked, nothing comes after. *)
Definition _on_processing_finished (result : ndarray) (w : world L) : world L :=
  let w := set_is_processing false w in
  let w := emit_processing_finished result w in
  if blocked w then w else _cleanup_worker w.

Definition _on_processing_error (error_msg : string) (w : world L) : world L :=
  let w := set_is_processing false w in
  let w := emit_processing_error error_msg w in
  if blocked w then w else _cleanup_worker w.

(** Delivery of one posted worker signal to the slot connected to it. *)
Definition deliver (s : ImageProcessingWorker.signal) (w : world L) : world L :=
  match s with
  | ImageProcessingWorker.finished result => _on_processing_finished result w
  | ImageProcessingWorker.error msg => _on_processing_error msg w
  | ImageProcessingWorker.progress n => log (Qt.processing_progress n) w
  | ImageProcessingWorker.status_update msg => log (Qt.processing_status msg) w
  end.

(** One step of the system: the event loop delivers the oldest posted
    signal; with nothing posted, a running worker runs to its end.  While
    the manager's thread is blocked its event loop does not run, and the
    worker it waits for never ends. *)
Definition step (w : world L) : option (world L) :=
  if blocked w then None
  else
    match posted w with
    | s :: rest =>
        Some (deliver s {| self := self w; listener := listener w;
                           posted := rest; trace := trace w |})
    | [] =>
        match current_worker (self w) with
        | Some c =>
            match thread c with
            | Qt.Running =>
                let w := post (ImageProcessingWorker.run (task c)) w in
                Some (set_current_worker
                        (Some {| task := task c; thread := Qt.Finished |}) w)
            | _ => None
            end
        | None => None
        end
    end.

(** The system left to itself for at most [fuel] steps. *)
Fixpoint run_event_loop (fuel : nat) (w : world L) : world L :=
  match fuel with
  | O => w
  | S fuel =>
      match step w with
      | Some w' => run_event_loop fuel w'
      | None => w
      end
  end.

(** Nothing more happens: no signal posted and no worker running, or the
    manager's thread blocked. *)
Definition quiescent (w : world L) : Prop := step w = None.

End Manager.

(** A manager whose listeners keep no state of their own (the main
    window's slots only display what they receive). *)
Definition no_slot {A} (_ : A) (w : world unit) : world unit := w.

Definition fresh : world unit :=
  {| self := init; listener := tt; posted := []; trace := [] |}.

End ThreadManager.

(** ** The batch sequencer ([BatchProcessor]) *)

Module BatchProcessor.

(** The names [process_image] binds by position.  A dictionary that holds
    one of them cannot be handed on as keyword arguments: the call itself
    raises [TypeError], before the manager is entered. *)
Definition positional_names : list string := ["self"; "image"; "operation"].

Definition passable (params : option Kwargs) : bool :=
  match params with
  | Some p =>
      forallb (fun n => match p !! n with None => true | Some _ => false end)
              positional_names
  | None => true
  end.

(** One entry of the operations list: [{'name': ..., 'params': ...}],
    where ['params'] may be absent.  The entries considered are those whose
    parameters can be passed on. *)
Record operation := {
  name : string;
  params : option Kwargs;
  params_passable : Is_true (passable params)
}.

(** [operation.get('params', {})] *)
Definition get_params (op : operation) : Kwargs :=
  match params op with
  | Some p => p
  | None => ∅
  end.

(** The sequencer's own fields; its [thread_manager] is the manager of
    the world it lives in. *)
Record t := {
  operations_queue : list operation;
  current_image : option ndarray;
  current_operation_index : nat
}.

(** [__init__] *)
Definition init : t :=
  {| operations_queue := []; current_image := None; current_operation_index := 0 |}.

Abbreviation world := (ThreadManager.world t).

Definition fresh : world :=
  {| ThreadManager.self := ThreadManager.init;
     ThreadManager.listener := init;
     ThreadManager.posted := [];
     ThreadManager.trace := [] |}.

Definition set_batch (b : t) (w : world) : world :=
  {| ThreadManager.self := ThreadManager.self w;
     ThreadManager.listener := b;
     ThreadManager.posted := ThreadManager.posted w;
     ThreadManager.trace := ThreadManager.trace w |}.

(** [str(n)] for a natural number. *)
Definition str_nat (n : nat) : string :=
  DecimalString.NilZero.string_of_uint (Nat.to_uint n).

(** [int((index / total) * 100)], for [index < total]. *)
Definition percent (index total : nat) : Z :=
  let ratio := F64.div (F64.of_Z (Z.of_nat index)) (F64.of_Z (Z.of_nat total)) in
  match fl_trunc (F64.mul ratio (F64.of_Z 100)) with
  | Some p => p
  | None => 0
  end.

Section Sequencer.
Context `{Collaborators}.

Definition _on_operation_error (error_msg : string) (w : world) : world :=
  let index := current_operation_index (ThreadManager.listener w) in
  ThreadManager.log
    (Qt.batch_error ("Batch processing failed at operation " +:+ str_nat index
                     +:+ ": " +:+ error_msg)) w.

Definition emit_batch_finished (w : world) : world :=
  match current_image (ThreadManager.listener w) with
  | Some image => ThreadManager.log (Qt.batch_finished image) w
  | None => w
  end.

Definition _process_next_operation (w : world) : world :=
  let b := ThreadManager.listener w in
  let index := current_operation_index b in
  match operations_queue b !! index with
  | None => emit_batch_finished w
  | Some op =>
      let operation_name := name op in
      let operation_params := get_params op in
      let progress := percent index (length (operations_queue b)) in
      let w := ThreadManager.log
                 (Qt.batch_progress progress ("Processing: " +:+ operation_name)) w in
      snd (ThreadManager.process_image _on_operation_error
             (current_image b) operation_name operation_params w)
  end.

Definition process_batch (image : ndarray) (operations : list operation)
    (w : world) : world :=
  let w := set_batch {| operations_queue := operations;
                        current_image := Some image;
                        current_operation_index := 0 |} w in
  match operations with
  | [] => emit_batch_finished w
  | _ => _process_next_operation w
  end.

Definition _on_operation_finished (result : ndarray) (w : world) : world :=
  let b := ThreadManager.listener w in
  let w := set_batch {| operations_queue := operations_queue b;
                        current_image := Some result;
                        current_operation_index := S (current_operation_index b) |} w in
  _process_next_operation w.

(** The sequencer's world left to itself: the manager's signals are
    connected to the two handlers above. *)
Definition run_event_loop : nat -> world -> world :=
  ThreadManager.run_event_loop _on_operation_finished _on_operation_error.

Definition step : world -> option world :=
  ThreadManager.step _on_operation_finished _on_operation_error.

End Sequencer.

End BatchProcessor.

(** ** Fixtures

    Collaborators whose image routines refuse every call, for evaluating
    the code paths that do not consult them: the cosine and sine are those
    of the angle 0, a half is rounded up, and a killed worker lets go.
    A few concrete images follow. *)

Definition unavailable {A} : result A := Raise (Exc cv2_error "not available").

Definition no_collaborators : Collaborators := {|
  libm_cos := fun _ => F64.one;
  libm_sin := fun _ => F64.zero;
  cv2_round_half_up := fun _ => true;
  Qt_terminate_releases := fun _ _ _ => true;
  cv2_filter2D := fun _ _ => unavailable;
  cv2_GaussianBlur := fun _ _ _ => unavailable;
  cv2_addWeighted := fun _ _ _ _ _ => unavailable;
  cv2_medianBlur := fun _ _ => unavailable;
  cv2_bilateralFilter := fun _ _ _ _ => unavailable;
  cv2_cvtColor := fun _ _ => unavailable;
  cv2_transform := fun _ _ => unavailable;
  cv2_Sobel := fun _ _ _ _ => unavailable;
  cv2_Canny := fun _ _ _ => unavailable;
  cv2_resize := fun _ _ => unavailable;
  np_random_normal := fun _ _ _ _ => unavailable;
  np_random_random := fun _ _ _ => []
|}.

(** The same, with a runtime in which a killed worker never lets go. *)
Definition wedging_collaborators : Collaborators := {|
  libm_cos := fun _ => F64.one;
  libm_sin := fun _ => F64.zero;
  cv2_round_half_up := fun _ => true;
  Qt_terminate_releases := fun _ _ _ => false;
  cv2_filter2D := fun _ _ => unavailable;
  cv2_GaussianBlur := fun _ _ _ => unavailable;
  cv2_addWeighted := fun _ _ _ _ _ => unavailable;
  cv2_medianBlur := fun _ _ => unavailable;
  cv2_bilateralFilter := fun _ _ _ _ => unavailable;
  cv2_cvtColor := fun _ _ => unavailable;
  cv2_transform := fun _ _ => unavailable;
  cv2_Sobel := fun _ _ _ _ => unavailable;
  cv2_Canny := fun _ _ _ => unavailable;
  cv2_resize := fun _ _ => unavailable;
  np_random_normal := fun _ _ _ _ => unavailable;
  np_random_random := fun _ _ _ => []
|}.

(** An RGB image of [h] rows and [w] columns whose pixel at row [r], column
    [c] is [[r; c; 0]], so that a region shows where it was taken from. *)
Definition coordinate_image (h w : nat) : ndarray :=
  Color (map (fun r => map (fun c => [Z.of_nat r; Z.of_nat c; 0]) (seq 0 w)) (seq 0 h)).

(** The same region described directly: rows [y0 .. y0+h), columns
    [x0 .. x0+w). *)
Definition coordinate_region (y0 x0 h w : nat) : ndarray :=
  Color (map (fun r => map (fun c => [Z.of_nat r; Z.of_nat c; 0]) (seq x0 w)) (seq y0 h)).

Definition gray_2x3 : ndarray := Gray [[10; 20; 30]; [40; 50; 60]].

(** Every element of the array is an 8-bit value. *)
Definition is_uint8 (a : ndarray) : Prop :=
  match a with
  | Gray g => Forall (Forall byte_range) g
  | Color g => Forall (Forall (Forall byte_range)) g
  end.

(** [sub] occurs in [s]. *)
Definition Contains (sub s : string) : Prop :=
  exists pre post, s = pre +:+ sub +:+ post.

(** What [adjust_brightness_contrast] does to one channel value. *)
Definition adjust_channel (c b : spec_float) (v : Z) : Z :=
  to_uint8 (fl_clip (F32.add (F32.mul (F32.of_Z v) c) b) (F32.of_Z 0) (F32.of_Z 255)).

(** An image with at least one pixel whose rows all have the same length. *)
Definition rectangular (image : ndarray) : Prop :=
  match image with
  | Gray g => rect (grid_width g) g /\ (0 < grid_width g)%nat
  | Color g => rect (grid_width g) g /\ (0 < grid_width g)%nat
  end.

(** The rotation that undoes a rotation by [angle] degrees. *)
Definition inverse_angle (angle : Z) : Z := (360 - angle) mod 360.

(** Rotating, then rotating by the inverse angle. *)
Definition rotate_round_trip `{Collaborators} (image : ndarray) (angle : Z)
    : result ndarray :=
  rotated ← ImageProcessor.rotate_image image (VInt angle);
  ImageProcessor.rotate_image rotated (VInt (inverse_angle angle)).

(** The largest side, exclusive, that the vision library warps. *)
Definition max_side : Z := 32768.

(** The translation the arbitrary-angle path adds along an axis of [n]
    pixels when the angle is zero: [n / 2 - n // 2]. *)
Definition half_pixel_shift (n : Z) : spec_float :=
  F64.add F64.zero (F64.sub (F64.div (F64.of_Z n) (F64.of_Z 2)) (F64.of_Z (n / 2))).

(** The matrix the arbitrary-angle path hands to [warpAffine] at angle 0. *)
Definition zero_turn_matrix (w h : Z) : cv2.Matx23 :=
  {| cv2.m00 := F64.one; cv2.m01 := F64.zero; cv2.m02 := half_pixel_shift w;
     cv2.m10 := SFopp F64.zero; cv2.m11 := F64.one; cv2.m12 := half_pixel_shift h |}.

(** Structural equality of two floats. *)
Definition sf_same (a b : spec_float) : bool :=
  match a, b with
  | S754_zero s, S754_zero s' => Bool.eqb s s'
  | S754_infinity s, S754_infinity s' => Bool.eqb s s'
  | S754_nan, S754_nan => true
  | S754_finite s m e, S754_finite s' m' e' => Bool.eqb s s' && (m =? m')%positive && (e =? e')
  | _, _ => false
  end.

Definition is_finite (f : spec_float) : bool :=
  match f with
  | S754_zero _ | S754_finite _ _ _ => true
  | _ => false
  end.

(** The binary64 facts the zero-degree rotation relies on, for one side
    length [n]: multiplying by one and adding zero are exact, a product with
    zero is zero, [int] gives [n] back, and the half-pixel translation is
    finite. *)
Definition side_ok (n : Z) : bool :=
  sf_same (F64.mul (F64.of_Z n) F64.zero) F64.zero
  && sf_same (F64.mul F64.zero (F64.of_Z n)) F64.zero
  && sf_same (F64.mul (F64.of_Z n) F64.one) (F64.of_Z n)
  && sf_same (F64.add F64.zero (F64.of_Z n)) (F64.of_Z n)
  && sf_same (F64.add (F64.of_Z n) F64.zero) (F64.of_Z n)
  && match fl_trunc (F64.of_Z n) with Some z => z =? n | None => false end
  && is_finite (half_pixel_shift n).

(** On a side of even length [2 * n] the half-pixel translation is zero. *)
Definition even_side_ok (n : Z) : bool :=
  sf_same (half_pixel_shift (2 * n)) F64.zero.

(** [f] holds of the [k] integers from [n] on. *)
Fixpoint forall_from (f : Z -> bool) (k : nat) (n : Z) : bool :=
  match k with
  | O => true
  | S k => f n && forall_from f k (n + 1)
  end.

(** ** Vocabulary for the dispatcher's properties *)

(** The manager's world with [p] put in front of its trace. *)
Definition prefix_trace {L} (p : list Qt.effect) (w : ThreadManager.world L)
    : ThreadManager.world L :=
  {| ThreadManager.self := ThreadManager.self w;
     ThreadManager.listener := ThreadManager.listener w;
     ThreadManager.posted := ThreadManager.posted w;
     ThreadManager.trace := (p ++ ThreadManager.trace w)%list |}.

(** The world with its trace forgotten. *)
Definition clear_trace {L} (w : ThreadManager.world L) : ThreadManager.world L :=
  {| ThreadManager.self := ThreadManager.self w;
     ThreadManager.listener := ThreadManager.listener w;
     ThreadManager.posted := ThreadManager.posted w;
     ThreadManager.trace := [] |}.

(** A manager with no listener, left to itself. *)
Definition run_alone `{Collaborators} : nat -> ThreadManager.world unit -> ThreadManager.world unit :=
  ThreadManager.run_event_loop ThreadManager.no_slot ThreadManager.no_slot.

(** Progress and status signals: they are forwarded and change nothing. *)
Definition is_chatter (s : ImageProcessingWorker.signal) : bool :=
  match s with
  | ImageProcessingWorker.progress _ | ImageProcessingWorker.status_update _ => true
  | _ => false
  end.

(** What the manager emits on receiving a progress or status signal. *)
Definition forwarded (s : ImageProcessingWorker.signal) : list Qt.effect :=
  match s with
  | ImageProcessingWorker.progress n => [Qt.processing_progress n]
  | ImageProcessingWorker.status_update msg => [Qt.processing_status msg]
  | _ => []
  end.

Definition is_start (e : Qt.effect) : bool :=
  match e with Qt.start _ => true | _ => false end.

(** The effects by which a batch ends. *)
Definition is_batch_outcome (e : Qt.effect) : bool :=
  match e with Qt.batch_finished _ | Qt.batch_error _ => true | _ => false end.

(** What the worker reports for an outcome that is not an image. *)
Definition failure_message (operation : string) (outcome : result (option ndarray))
    : string :=
  match outcome with
  | Raise e => "Error in " +:+ operation +:+ ": " +:+ exc_str e
  | _ => "Failed to execute " +:+ operation
  end.

Definition failed (outcome : result (option ndarray)) : Prop :=
  match outcome with
  | Return (Some _) => False
  | _ => True
  end.

(** A manager in the middle of a brightness adjustment. *)
Definition busy_world : ThreadManager.world unit :=
  snd (ThreadManager.process_image (H := no_collaborators) ThreadManager.no_slot
         (Some gray_2x3) "brightness_contrast" {[ "brightness" := VInt 10 ]}
         ThreadManager.fresh).

(** The worker the sequencer starts for step [op] on [image]. *)
Definition batch_worker (image : ndarray) (op : BatchProcessor.operation)
    : ImageProcessingWorker.t :=
  ImageProcessingWorker.Build image (BatchProcessor.name op) (BatchProcessor.get_params op).

(** What applying step [op] to [image] yields. *)
Definition apply_operation `{Collaborators} (image : ndarray)
    (op : BatchProcessor.operation) : result (option ndarray) :=
  snd (ImageProcessingWorker._execute_operation (batch_worker image op)).

(** The second world's trace starts with the first world's: the trace is
    a history. *)
Definition extends {L} (w w' : ThreadManager.world L) : Prop :=
  exists d, ThreadManager.trace w' = (ThreadManager.trace w ++ d)%list.

(** Batch steps used as examples. *)
Definition flip_step : BatchProcessor.operation :=
  {| BatchProcessor.name := "flip"; BatchProcessor.params := None;
     BatchProcessor.params_passable := I |}.

Definition crop_step : BatchProcessor.operation :=
  {| BatchProcessor.name := "crop";
     BatchProcessor.params := Some {[ "x" := VInt 1 ]};
     BatchProcessor.params_passable := I |}.

Definition unknown_step : BatchProcessor.operation :=
  {| BatchProcessor.name := "posterize"; BatchProcessor.params := None;
     BatchProcessor.params_passable := I |}.

(** The value each named parameter takes when the caller leaves it out. *)
Definition default_kwargs (image : ndarray) : Kwargs :=
  list_to_map
    [("angle", VInt 0);
     ("x", VInt 0);
     ("y", VInt 0);
     ("width", VInt (Z.of_nat (img_width image)));
     ("height", VInt (Z.of_nat (img_height image)));
     ("horizontal", VBool true);
     ("brightness", VInt 0);
     ("contrast", VFloat F64.one);
     ("method", VStr "laplacian");
     ("strength", VFloat F64.one);
     ("noise_type", VNoise GAUSSIAN);
     ("intensity", VFloat (F64.div (F64.of_Z 1) (F64.of_Z 10)));
     ("blur_type", VStr "gaussian");
     ("kernel_size", VInt 5);
     ("filter_type", VFilter GRAYSCALE);
     ("maintain_aspect", VBool true)].

(** The request with every parameter the caller left out written in. *)
Definition with_defaults (t : ImageProcessingWorker.t) : ImageProcessingWorker.t :=
  ImageProcessingWorker.Build (ImageProcessingWorker.image t)
    (ImageProcessingWorker.operation t)
    (ImageProcessingWorker.kwargs t ∪ default_kwargs (ImageProcessingWorker.image t)).

(** A crop request that names all four parameters. *)
Definition crop_request (image : ndarray) (x y width height : Z) : ImageProcessingWorker.t :=
  ImageProcessingWorker.Build image "crop"
    (list_to_map [("x", VInt x); ("y", VInt y);
                  ("width", VInt width); ("height", VInt height)]).

(** ** Helpers of [utils/image_utils.py] *)

Module image_utils.

(** Python's [min(a, b)] and [max(a, b)] on floats: the second argument wins
    only when it compares strictly below (above) the first. *)
Definition py_min (a b : spec_float) : spec_float := if SFltb b a then b else a.

Definition py_max (a b : spec_float) : spec_float := if SFltb a b then b else a.

Definition clamp_value (value min_val max_val : spec_float) : spec_float :=
  py_max min_val (py_min value max_val).

(** [ensure_image_bounds]; the image may be [None]. *)
Definition ensure_image_bounds (image : option ndarray) (x y width height : Z)
    : Z * Z * Z * Z :=
  match image with
  | None => (0, 0, 0, 0)
  | Some image =>
      let img_height := Z.of_nat (img_height image) in
      let img_width := Z.of_nat (img_width image) in
      let x := Z.max 0 (Z.min x (img_width - 1)) in
      let y := Z.max 0 (Z.min y (img_height - 1)) in
      let width := Z.max 1 (Z.min width (img_width - x)) in
      let height := Z.max 1 (Z.min height (img_height - y)) in
      (x, y, width, height)
  end.

End image_utils.

(** The pixel at a row and column, as its list of channels. *)
Definition pixel (image : ndarray) (row col : nat) : option (list Z) :=
  match image with
  | Gray g => (fun v => [v]) <$> (g !! row ≫= (fun r : list Z => r !! col))
  | Color g => g !! row ≫= (fun r : list (list Z) => r !! col)
  end.

(** The names [_execute_operation] dispatches on. *)
Definition catalog : list string :=
  ["rotate"; "crop"; "flip"; "brightness_contrast"; "sharpen"; "add_noise";
   "blur"; "filter"; "resize"].

(** [clamp(v + b, 0, 255)] *)
Definition shifted (v b : Z) : Z := Z.max 0 (Z.min 255 (v + b)).

(** The states a manager with no listener can be in: it starts fresh, and
    from then on requests are submitted, the operation in flight is
    cancelled, or the system takes a step. *)
Inductive reachable `{Collaborators} : ThreadManager.world unit -> Prop :=
| reach_fresh : reachable ThreadManager.fresh
| reach_submit w image operation kwargs :
    reachable w ->
    reachable (snd (ThreadManager.process_image ThreadManager.no_slot
                      image operation kwargs w))
| reach_cancel w :
    reachable w -> reachable (ThreadManager.cancel_current_operation w)
| reach_step w w' :
    reachable w ->
    ThreadManager.step ThreadManager.no_slot ThreadManager.no_slot w = Some w' ->
    reachable w'.

(** An idle manager holds no worker. *)
Definition idle_holds_nothing (w : ThreadManager.world unit) : Prop :=
  ThreadManager.is_processing (ThreadManager.self w) = false ->
  ThreadManager.current_worker (ThreadManager.self w) = None.

(** What a batch comes to: the image after the last step, or the index of
    the first step that fails with the worker's message for it. *)
Fixpoint chain `{Collaborators} (index : nat) (image : ndarray)
    (ops : list BatchProcessor.operation) : ndarray + nat * string :=
  match ops with
  | [] => inl image
  | op :: rest =>
      match apply_operation image op with
      | Return (Some r) => chain (S index) r rest
      | outcome => inr (index, failure_message (BatchProcessor.name op) outcome)
      end
  end.

(** The effect a batch ends with. *)
Definition batch_outcome (c : ndarray + nat * string) : Qt.effect :=
  match c with
  | inl final => Qt.batch_finished final
  | inr (index, msg) =>
      Qt.batch_error ("Batch processing failed at operation "
                      +:+ BatchProcessor.str_nat index +:+ ": " +:+ msg)
  end.

(** The workers a batch starts, in order: one per step up to and including
    the first that fails, each on the image the steps before it produced. *)
Fixpoint chain_workers `{Collaborators} (image : ndarray)
    (ops : list BatchProcessor.operation) : list ImageProcessingWorker.t :=
  match ops with
  | [] => []
  | op :: rest =>
      batch_worker image op ::
      match apply_operation image op with
      | Return (Some r) => chain_workers r rest
      | _ => []
      end
  end.

(** Every row of the image has the length of the first. *)
Definition rows_aligned (image : ndarray) : Prop :=
  match image with
  | Gray g => rect (grid_width g) g
  | Color g => rect (grid_width g) g
  end.

(** A value that is not a member of [NoiseType]. *)
Definition not_a_noise_type (v : value) : Prop :=
  match v with
  | VNoise _ => False
  | _ => True
  end.

(** The brightness slider's range. *)
Definition brightness_in_range (b : Z) : Prop := -100 <= b <= 100.

(** The conversion to [float32] and back that every operation on floats
    begins and ends with. *)
Definition through_float32 (v : Z) : Z :=
  to_uint8 (fl_clip (F32.of_Z v) (F32.of_Z 0) (F32.of_Z 255)).

(** The calls [_cleanup_worker] makes on the worker it finds: three, or
    none when the manager holds no worker. *)
Definition cleanup_log (cw : option ThreadManager.worker_thread) : list Qt.effect :=
  match cw with
  | Some c => [Qt.quit (ThreadManager.task c); Qt.wait (ThreadManager.task c);
               Qt.deleteLater (ThreadManager.task c)]
  | None => []
  end.

(** The worker the manager holds, if any, has run to its end. *)
Definition at_rest (cw : option ThreadManager.worker_thread) : Prop :=
  forall c, cw = Some c -> ThreadManager.thread c = Qt.Finished.




(** * Properties of the operation catalog *)

Section CatalogFacts.
Context `{Collaborators}.

(** ** Horizontal flip *)

Lemma grid_flip_h_involutive {A} (g : list (list A)) :
  grid_flip_h (grid_flip_h g) = g.
Proof.
  unfold grid_flip_h. rewrite map_map.
  induction g as [|r g IH]; simpl; [reflexivity|].
  now rewrite rev_involutive, IH.
Qed.

Lemma grid_flip_v_involutive {A} (g : list (list A)) :
  grid_flip_v (grid_flip_v g) = g.
Proof. apply rev_involutive. Qed.

(** C8. Flipping horizontally twice gives back the image, pixel for
    pixel. *)
Theorem flip_horizontal_twice (image : ndarray) :
  ImageProcessor.flip_image (ImageProcessor.flip_image image (VBool true)) (VBool true)
  = image.
Proof.
  unfold ImageProcessor.flip_image; simpl.
  destruct image as [g|g]; simpl; now rewrite grid_flip_h_involutive.
Qed.

(** X3. Flipping vertically twice gives back the image, pixel for pixel. *)
Lemma flip_vertical_twice (image : ndarray) :
  ImageProcessor.flip_image (ImageProcessor.flip_image image (VBool false)) (VBool false)
  = image.
Proof.
  unfold ImageProcessor.flip_image; simpl.
  destruct image as [g|g]; simpl; now rewrite grid_flip_v_involutive.
Qed.

(** ** Noise on a two-dimensional array *)

Lemma add_noise_gray (rows : list (list Z)) (noise_type intensity : value) :
  ImageProcessor.add_noise (Gray rows) noise_type intensity
  = Raise (Exc ValueError "not enough values to unpack (expected 3, got 2)").
Proof. reflexivity. Qed.

(** C10. On a two-dimensional (grayscale) image, [add_noise] raises for
    every noise type and intensity, and the worker running the
    ["add_noise"] operation on such an image emits an error signal and no
    result, whatever the parameter bag holds. *)
Theorem add_noise_requires_three_dimensions
    (rows : list (list Z)) (noise_type intensity : value) (kwargs : Kwargs) :
  ImageProcessor.add_noise (Gray rows) noise_type intensity
  = Raise (Exc ValueError "not enough values to unpack (expected 3, got 2)")
  /\ ImageProcessingWorker.run
       (ImageProcessingWorker.Build (Gray rows) "add_noise" kwargs)
     = [ImageProcessingWorker.status_update "Starting add_noise...";
        ImageProcessingWorker.progress 10;
        ImageProcessingWorker.progress 30;
        ImageProcessingWorker.error
          "Error in add_noise: not enough values to unpack (expected 3, got 2)"].
Proof. split; reflexivity. Qed.

End CatalogFacts.

(** ** Brightness and contrast at the identity parameters *)

Section BrightnessContrast.

Lemma adjust_channel_identity_check :
  forallb (fun n => adjust_channel (F32.of_float F64.one) (F32.of_Z 0) (Z.of_nat n)
                    =? Z.of_nat n) (seq 0 256) = true.
Proof. vm_compute. reflexivity. Qed.

Lemma adjust_channel_identity (v : Z) :
  byte_range v -> adjust_channel (F32.of_float F64.one) (F32.of_Z 0) v = v.
Proof.
  intros [Hlo Hhi].
  pose proof adjust_channel_identity_check as Hall.
  rewrite forallb_forall in Hall.
  specialize (Hall (Z.to_nat v)).
  rewrite Z2Nat.id in Hall by lia.
  apply Z.eqb_eq, Hall, in_seq. lia.
Qed.

Lemma map_id_on {A} (f : A -> A) (P : A -> Prop) (l : list A) :
  (forall a, P a -> f a = a) -> Forall P l -> map f l = l.
Proof.
  intros Hf Hl. induction Hl as [|a l Ha _ IH]; simpl; [reflexivity|].
  now rewrite Hf, IH.
Qed.

(** C7. With brightness 0 and contrast 1.0 the result is the input image,
    channel for channel. *)
Theorem brightness_contrast_identity (image : ndarray) :
  is_uint8 image ->
  ImageProcessor.adjust_brightness_contrast image (VInt 0) (VFloat F64.one)
  = Return image.
Proof.
  intros Hbytes.
  unfold ImageProcessor.adjust_brightness_contrast.
  cbn [as_float32 mbind result_bind].
  f_equal.
  destruct image as [g|g]; cbn [array_map]; f_equal; rewrite !map_map.
  - apply (map_id_on _ (Forall byte_range)); [|exact Hbytes].
    intros r Hr. rewrite !map_map.
    apply (map_id_on _ byte_range); [|exact Hr].
    intros v Hv. apply (adjust_channel_identity v Hv).
  - apply (map_id_on _ (Forall (Forall byte_range))); [|exact Hbytes].
    intros r Hr. rewrite !map_map.
    apply (map_id_on _ (Forall byte_range)); [|exact Hr].
    intros p Hp. rewrite !map_map.
    apply (map_id_on _ byte_range); [|exact Hp].
    intros v Hv. apply (adjust_channel_identity v Hv).
Qed.

Lemma brightness_contrast_identity_witness :
  ImageProcessor.adjust_brightness_contrast gray_2x3 (VInt 0) (VFloat F64.one)
  = Return gray_2x3.
Proof.
  apply (brightness_contrast_identity gray_2x3).
  unfold gray_2x3, is_uint8, byte_range.
  repeat constructor; lia.
Defined.

End BrightnessContrast.

(** ** Crop *)

Section Crop.

Lemma slice_index_le (i : Z) (len : nat) : (Py.slice_index i len <= len)%nat.
Proof. unfold Py.slice_index. destruct (i <? 0) eqn:E; lia. Qed.

Lemma length_slice {A} (l : list A) (start stop : Z) :
  length (Py.slice l start stop)
  = (Py.slice_index stop (length l) - Py.slice_index start (length l))%nat.
Proof.
  unfold Py.slice. rewrite length_firstn, length_skipn.
  pose proof (slice_index_le stop (length l)). lia.
Qed.

Lemma Forall_slice {A} (P : A -> Prop) (l : list A) (start stop : Z) :
  Forall P l -> Forall P (Py.slice l start stop).
Proof.
  intros Hl. unfold Py.slice. now apply Forall_take, Forall_drop.
Qed.

(** A slice whose bounds are [a] and [a + n], with both non-negative,
    holds at most [n] elements. *)
Lemma length_slice_window {A} (l : list A) (a n : Z) :
  0 <= a -> 0 <= n -> Z.of_nat (length (Py.slice l a (a + n))) <= n.
Proof.
  intros Ha Hn. rewrite length_slice. unfold Py.slice_index.
  destruct (a <? 0) eqn:E1; [lia|].
  destruct (a + n <? 0) eqn:E2; lia.
Qed.

Lemma length_slice_le {A} (l : list A) (start stop : Z) :
  (length (Py.slice l start stop) <= length l)%nat.
Proof.
  rewrite length_slice. pose proof (slice_index_le stop (length l)). lia.
Qed.

Lemma grid_slice_height {A} (g : list (list A)) (y x height width : Z) :
  0 <= y -> 0 <= height ->
  Z.of_nat (grid_height (grid_slice g y (y + height) x (x + width))) <= height
  /\ (grid_height (grid_slice g y (y + height) x (x + width)) <= grid_height g)%nat.
Proof.
  intros Hy Hh. unfold grid_height, grid_slice. rewrite length_map. split.
  - now apply length_slice_window.
  - apply length_slice_le.
Qed.

Lemma grid_slice_width {A} (g : list (list A)) (y0 y1 x width : Z) :
  rect (grid_width g) g -> 0 <= x -> 0 <= width ->
  Z.of_nat (grid_width (grid_slice g y0 y1 x (x + width))) <= width
  /\ (grid_width (grid_slice g y0 y1 x (x + width)) <= grid_width g)%nat.
Proof.
  intros Hrect Hx Hw. unfold grid_slice.
  pose proof (Forall_slice _ g y0 y1 Hrect) as Hrows.
  destruct (Py.slice g y0 y1) as [|r rows]; simpl; [lia|].
  inversion Hrows as [|? ? Hr _]; subst. split.
  - now apply length_slice_window.
  - rewrite <- Hr. apply length_slice_le.
Qed.

(** X6. For a requested size that is not negative, the cropped image is no
    wider and no taller than requested, and no larger than the source,
    wherever the rectangle is anchored. *)
Lemma crop_within_bounds (image : ndarray) (x y width height : Z) :
  match image with
  | Gray g => rect (grid_width g) g
  | Color g => rect (grid_width g) g
  end ->
  0 <= width -> 0 <= height ->
  let cropped := ImageProcessor.crop_image image x y width height in
  Z.of_nat (img_width cropped) <= width
  /\ Z.of_nat (img_height cropped) <= height
  /\ (img_width cropped <= img_width image)%nat
  /\ (img_height cropped <= img_height image)%nat.
Proof.
  intros Hrect Hw Hh. unfold ImageProcessor.crop_image.
  destruct image as [g|g]; cbn [img_width img_height];
    set (w := Z.of_nat (grid_width g)); set (h := Z.of_nat (grid_height g));
    set (x' := Z.max 0 (Z.min x w)); set (y' := Z.max 0 (Z.min y h));
    (assert (0 <= Z.min width (w - x') <= width) as Hcw by lia);
    (assert (0 <= Z.min height (h - y') <= height) as Hch by lia);
    (destruct (grid_slice_width g y' (y' + Z.min height (h - y')) x'
                (Z.min width (w - x')) Hrect) as [W1 W2]; [lia|lia|]);
    (destruct (grid_slice_height g y' x' (Z.min height (h - y'))
                (Z.min width (w - x'))) as [H1 H2]; [lia|lia|]);
    cbn zeta; repeat split; lia.
Qed.

(** The specification's example: on a 100 x 100 RGB image,
    [crop(x=90, y=90, width=50, height=50)] is the 10 x 10 region anchored
    at (90, 90). *)
Lemma crop_example :
  ImageProcessor.crop_image (coordinate_image 100 100) 90 90 50 50
  = coordinate_region 90 90 10 10.
Proof. vm_compute. reflexivity. Qed.

(** Whatever the bounds, a slice of a grid is no larger than the grid. *)
Lemma grid_slice_within {A} (g : list (list A)) (y0 y1 x0 x1 : Z) :
  rect (grid_width g) g ->
  (grid_width (grid_slice g y0 y1 x0 x1) <= grid_width g)%nat
  /\ (grid_height (grid_slice g y0 y1 x0 x1) <= grid_height g)%nat.
Proof.
  intros Hrect. unfold grid_slice, grid_height. rewrite length_map.
  split; [|apply length_slice_le].
  pose proof (Forall_slice _ g y0 y1 Hrect) as Hrows.
  destruct (Py.slice g y0 y1) as [|r rows]; simpl; [lia|].
  inversion Hrows as [|? ? Hr _]; subst.
  rewrite <- Hr. apply length_slice_le.
Qed.

(** C6 (as amended). For all integers x, y, width and height, wherever
    they lie, the cropped image is no wider and no taller than the source;
    when the requested width is not negative the result is at most that
    wide, and when the requested height is not negative it is at most that
    high.  On a 100 x 100 RGB image, [crop(x=90, y=90, width=50, height=50)]
    is the 10 x 10 region anchored at (90, 90). *)
Theorem crop_stays_within_bounds (image : ndarray) (x y width height : Z) :
  rows_aligned image ->
  let cropped := ImageProcessor.crop_image image x y width height in
  (img_width cropped <= img_width image)%nat
  /\ (img_height cropped <= img_height image)%nat
  /\ (0 <= width -> Z.of_nat (img_width cropped) <= width)
  /\ (0 <= height -> Z.of_nat (img_height cropped) <= height)
  /\ ImageProcessor.crop_image (coordinate_image 100 100) 90 90 50 50
     = coordinate_region 90 90 10 10.
Proof.
  intros Hrect. cbv zeta. unfold ImageProcessor.crop_image at 1 2 3 4.
  destruct image as [g|g]; cbn [img_width img_height rows_aligned] in *;
    set (w := Z.of_nat (grid_width g)); set (h := Z.of_nat (grid_height g));
    set (x' := Z.max 0 (Z.min x w)); set (y' := Z.max 0 (Z.min y h));
    (destruct (grid_slice_within g y' (y' + Z.min height (h - y')) x'
                 (x' + Z.min width (w - x')) Hrect) as [W0 H0]);
    (split; [exact W0|]); (split; [exact H0|]);
    (split; [intros Hw;
             destruct (grid_slice_width g y' (y' + Z.min height (h - y')) x'
                         (Z.min width (w - x')) Hrect); lia|]);
    (split; [intros Hh;
             destruct (grid_slice_height g y' x' (Z.min height (h - y'))
                         (Z.min width (w - x'))); lia|]);
    vm_compute; reflexivity.
Qed.

(** C6 fails for a requested size below zero, which is not clamped: the
    slice bounds wrap around, and on a 100 x 100 RGB image [crop(x=0, y=0,
    width=-5, height=-5)] returns the 95 x 95 region anchored at (0, 0),
    wider and taller than requested. *)
Theorem crop_negative_size :
  let cropped := ImageProcessor.crop_image (coordinate_image 100 100) 0 0 (-5) (-5) in
  cropped = coordinate_region 0 0 95 95
  /\ img_width cropped = 95%nat
  /\ img_height cropped = 95%nat
  /\ ~ (Z.of_nat (img_width cropped) <= -5)
  /\ ~ (Z.of_nat (img_height cropped) <= -5).
Proof.
  assert (ImageProcessor.crop_image (coordinate_image 100 100) 0 0 (-5) (-5)
          = coordinate_region 0 0 95 95) as E by (vm_compute; reflexivity).
  cbn zeta. rewrite E.
  assert (img_width (coordinate_region 0 0 95 95) = 95%nat) as Ew
    by (vm_compute; reflexivity).
  assert (img_height (coordinate_region 0 0 95 95) = 95%nat) as Eh
    by (vm_compute; reflexivity).
  rewrite Ew, Eh. repeat split; lia.
Qed.

End Crop.

Lemma crop_stays_within_bounds_witness :
  (img_width (ImageProcessor.crop_image gray_2x3 1 (-4) (-1) 7) <= img_width gray_2x3)%nat
  /\ Z.of_nat (img_height (ImageProcessor.crop_image gray_2x3 1 (-4) (-1) 7)) <= 7.
Proof.
  assert (rows_aligned gray_2x3) as Hrect by (cbn; repeat constructor).
  destruct (crop_stays_within_bounds gray_2x3 1 (-4) (-1) 7 Hrect)
    as (Hw & _ & _ & Hh & _).
  split; [exact Hw | apply Hh; lia].
Defined.

(** ** Rotation by quarter turns *)

Section Transpose.
Context {A : Type}.
Implicit Types (g : list (list A)) (r : list A).

Lemma omap_cons {X W} (f : X -> option W) (x : X) (l : list X) :
  omap f (x :: l) = match f x with Some y => y :: omap f l | None => omap f l end.
Proof. reflexivity. Qed.

Lemma omap_map_compose {X Y W} (f : Y -> option W) (k : X -> Y) (l : list X) :
  omap f (map k l) = omap (fun x => f (k x)) l.
Proof.
  induction l as [|x l IH]; [reflexivity|].
  cbn [map]. rewrite !omap_cons, IH. reflexivity.
Qed.

Lemma omap_ext_in {X W} (f k : X -> option W) (l : list X) :
  (forall x, In x l -> f x = k x) -> omap f l = omap k l.
Proof.
  induction l as [|x l IH]; intros Hext; [reflexivity|].
  rewrite !omap_cons, (Hext x) by (now left).
  rewrite IH by (intros; apply Hext; now right). reflexivity.
Qed.

Lemma omap_rev {X W} (f : X -> option W) (l : list X) :
  omap f (rev l) = rev (omap f l).
Proof.
  induction l as [|x l IH]; [reflexivity|].
  cbn [rev]. rewrite omap_app, IH, !omap_cons.
  destruct (f x); cbn [rev]; [reflexivity|].
  change (omap f []) with (@nil W). now rewrite app_nil_r.
Qed.

(** Reading a list back through its indices. *)
Lemma omap_lookup_seq (pre r : list A) :
  omap (fun j => (pre ++ r)%list !! j) (seq (length pre) (length r)) = r.
Proof.
  revert pre. induction r as [|a r IH]; intros pre; [reflexivity|].
  cbn [length seq]. rewrite omap_cons.
  rewrite lookup_app_r by lia. rewrite Nat.sub_diag. cbn [lookup list_lookup].
  f_equal.
  specialize (IH (pre ++ [a])%list).
  rewrite length_app in IH. simpl in IH.
  rewrite Nat.add_1_r in IH. rewrite <- app_assoc in IH. exact IH.
Qed.

Lemma omap_lookup_all r : omap (fun j => r !! j) (seq 0 (length r)) = r.
Proof. exact (omap_lookup_seq [] r). Qed.

(** Column [j] of a rectangular grid has one element per row. *)
Lemma column_lookup g (w j i : nat) :
  rect w g -> (j < w)%nat ->
  omap (fun r => r !! j) g !! i = g !! i ≫= (fun r => r !! j).
Proof.
  intros Hrect Hj. revert i.
  induction Hrect as [|r g Hr _ IH]; intros i; [reflexivity|].
  destruct (lookup_lt_is_Some_2 r j) as [a Ha]; [lia|].
  rewrite omap_cons, Ha. destruct i as [|i]; [cbn; now rewrite Ha|]. apply IH.
Qed.

Lemma column_length g (w j : nat) :
  rect w g -> (j < w)%nat -> length (omap (fun r => r !! j) g) = length g.
Proof.
  intros Hrect Hj.
  induction Hrect as [|r g Hr _ IH]; [reflexivity|].
  destruct (lookup_lt_is_Some_2 r j) as [a Ha]; [lia|].
  rewrite omap_cons, Ha. cbn [length]. now rewrite IH.
Qed.

Lemma transpose_height g : grid_height (cv2.transpose g) = grid_width g.
Proof. unfold grid_height, cv2.transpose. now rewrite length_map, length_seq. Qed.

Lemma transpose_rect g :
  rect (grid_width g) g -> rect (length g) (cv2.transpose g).
Proof.
  intros Hrect. unfold rect, cv2.transpose.
  rewrite Forall_map, Forall_forall. intros j Hj.
  apply elem_of_seq in Hj. apply (column_length g (grid_width g)); [exact Hrect|lia].
Qed.

Lemma transpose_width g :
  rect (grid_width g) g -> (0 < grid_width g)%nat ->
  grid_width (cv2.transpose g) = grid_height g.
Proof.
  intros Hrect Hw. unfold cv2.transpose.
  destruct (grid_width g) as [|w] eqn:E; [lia|]. simpl seq. simpl map.
  cbn [grid_width]. apply (column_length g (S w)); [exact Hrect|lia].
Qed.

Lemma map_seq_lookup (F : nat -> list A) g :
  (forall i r, g !! i = Some r -> F i = r) -> map F (seq 0 (length g)) = g.
Proof.
  intros HF. apply list_eq. intros i.
  destruct (g !! i) as [r|] eqn:E.
  - assert (i < length g)%nat as Hi by (eapply lookup_lt_Some; eauto).
    change (map F (seq 0 (length g))) with (F <$> seq 0 (length g)).
    rewrite list_lookup_fmap, lookup_seq_lt by exact Hi. simpl.
    now rewrite (HF i r E).
  - apply lookup_ge_None in E. apply lookup_ge_None.
    rewrite length_map, length_seq. exact E.
Qed.

(** Transposing twice gives back a rectangular grid that has columns. *)
Lemma transpose_involutive g :
  rect (grid_width g) g -> (0 < grid_width g)%nat ->
  cv2.transpose (cv2.transpose g) = g.
Proof.
  intros Hrect Hw.
  unfold cv2.transpose at 1.
  rewrite (transpose_width g Hrect Hw). unfold grid_height.
  apply map_seq_lookup. intros i r Hi.
  unfold cv2.transpose. rewrite omap_map_compose.
  rewrite (omap_ext_in _ (fun j => r !! j)).
  - assert (length r = grid_width g) as <-.
    { unfold rect in Hrect. rewrite Forall_forall in Hrect.
      apply Hrect. eapply list_elem_of_lookup_2, Hi. }
    apply omap_lookup_all.
  - intros j Hj. apply in_seq in Hj.
    rewrite (column_lookup g (grid_width g)) by (auto; lia).
    now rewrite Hi.
Qed.

End Transpose.

Section QuarterTurns.
Context {A : Type}.
Implicit Types (g : list (list A)) (r : list A).

Lemma lookup_rev r (j : nat) :
  (j < length r)%nat -> rev r !! j = r !! (length r - S j)%nat.
Proof.
  induction r as [|a r IH]; intros Hj; cbn [length] in *; [lia|].
  cbn [rev]. destruct (decide (j < length r)%nat) as [Hlt|Hge].
  - rewrite lookup_app_l by (rewrite length_rev; exact Hlt).
    rewrite IH by exact Hlt.
    replace (S (length r) - S j)%nat with (S (length r - S j)) by lia.
    reflexivity.
  - rewrite lookup_app_r by (rewrite length_rev; lia).
    rewrite length_rev.
    replace (j - length r)%nat with 0%nat by lia.
    replace (S (length r) - S j)%nat with 0%nat by lia.
    reflexivity.
Qed.

Lemma rev_seq (n : nat) : rev (seq 0 n) = map (fun j => (n - S j)%nat) (seq 0 n).
Proof.
  induction n as [|n IH]; [reflexivity|].
  rewrite seq_S at 1. rewrite rev_app_distr. cbn [rev app Nat.add].
  rewrite IH. cbn [seq map]. f_equal; [lia|].
  rewrite <- seq_shift, map_map. apply map_ext. intros j. lia.
Qed.

Lemma grid_width_flip_h g : grid_width (grid_flip_h g) = grid_width g.
Proof. destruct g as [|r g]; [reflexivity|]. cbn. apply length_rev. Qed.

Lemma grid_width_flip_v g (w : nat) :
  rect w g -> grid_width (grid_flip_v g) = grid_width g.
Proof.
  intros Hrect. unfold grid_flip_v.
  destruct g as [|r g]; [reflexivity|].
  assert (rect w (rev (r :: g))) as Hrev.
  { unfold rect in *. rewrite Forall_forall in *. intros x Hx.
    apply Hrect. apply list_elem_of_In. apply in_rev.
    now apply list_elem_of_In. }
  destruct (rev (r :: g)) as [|r' g'] eqn:E.
  - apply (f_equal (@length _)) in E. rewrite length_rev in E. discriminate.
  - inversion Hrev; subst. inversion Hrect; subst. cbn. congruence.
Qed.

Lemma rect_flip_h g (w : nat) : rect w g -> rect w (grid_flip_h g).
Proof.
  unfold rect, grid_flip_h. intros Hg.
  induction Hg as [|r g Hr _ IH]; cbn [map]; constructor; [|exact IH].
  now rewrite length_rev.
Qed.

Lemma rect_flip_v g (w : nat) : rect w g -> rect w (grid_flip_v g).
Proof.
  unfold rect, grid_flip_v. rewrite !Forall_forall. intros Hg x Hx.
  apply Hg. apply list_elem_of_In. apply in_rev. now apply list_elem_of_In.
Qed.

(** Mirroring the columns before a transpose mirrors the rows after it. *)
Lemma transpose_flip_h g :
  rect (grid_width g) g ->
  cv2.transpose (grid_flip_h g) = grid_flip_v (cv2.transpose g).
Proof.
  intros Hrect. unfold cv2.transpose.
  rewrite grid_width_flip_h. unfold grid_flip_v, grid_flip_h.
  rewrite <- map_rev, rev_seq, map_map.
  apply map_ext_in. intros j Hj. apply in_seq in Hj.
  rewrite omap_map_compose. apply omap_ext_in. intros r Hr.
  assert (length r = grid_width g) as Hlen.
  { unfold rect in Hrect. rewrite Forall_forall in Hrect.
    apply Hrect. now apply list_elem_of_In. }
  rewrite lookup_rev by lia. now rewrite Hlen.
Qed.

(** Mirroring the rows before a transpose mirrors the columns after it. *)
Lemma transpose_flip_v g :
  rect (grid_width g) g ->
  cv2.transpose (grid_flip_v g) = grid_flip_h (cv2.transpose g).
Proof.
  intros Hrect. unfold cv2.transpose.
  rewrite (grid_width_flip_v g _ Hrect). unfold grid_flip_v, grid_flip_h.
  rewrite map_map. apply map_ext. intros j. apply omap_rev.
Qed.

Lemma rect_transpose_width g :
  rect (grid_width g) g -> (0 < grid_width g)%nat ->
  rect (grid_width (cv2.transpose g)) (cv2.transpose g).
Proof.
  intros Hrect Hw. rewrite (transpose_width g Hrect Hw). now apply transpose_rect.
Qed.

Lemma rotate_cw_then_ccw g :
  rect (grid_width g) g -> (0 < grid_width g)%nat ->
  cv2.rotate_grid (cv2.rotate_grid g cv2.ROTATE_90_CLOCKWISE)
                  cv2.ROTATE_90_COUNTERCLOCKWISE = g.
Proof.
  intros Hrect Hw. cbn [cv2.rotate_grid].
  rewrite transpose_flip_h by now apply rect_transpose_width.
  rewrite grid_flip_v_involutive. now apply transpose_involutive.
Qed.

Lemma rotate_ccw_then_cw g :
  rect (grid_width g) g -> (0 < grid_width g)%nat ->
  cv2.rotate_grid (cv2.rotate_grid g cv2.ROTATE_90_COUNTERCLOCKWISE)
                  cv2.ROTATE_90_CLOCKWISE = g.
Proof.
  intros Hrect Hw. cbn [cv2.rotate_grid].
  rewrite transpose_flip_v by now apply rect_transpose_width.
  rewrite grid_flip_h_involutive. now apply transpose_involutive.
Qed.

Lemma rotate_half_turn_twice g :
  cv2.rotate_grid (cv2.rotate_grid g cv2.ROTATE_180) cv2.ROTATE_180 = g.
Proof.
  cbn [cv2.rotate_grid]. unfold grid_flip_v, grid_flip_h.
  rewrite map_rev, rev_involutive.
  apply (grid_flip_h_involutive g).
Qed.

(** A quarter turn exchanges the number of rows and of columns. *)
Lemma rotate_cw_dimensions g :
  rect (grid_width g) g -> (0 < grid_width g)%nat ->
  grid_width (cv2.rotate_grid g cv2.ROTATE_90_CLOCKWISE) = grid_height g
  /\ grid_height (cv2.rotate_grid g cv2.ROTATE_90_CLOCKWISE) = grid_width g.
Proof.
  intros Hrect Hw. cbn [cv2.rotate_grid]. split.
  - rewrite grid_width_flip_h. now apply transpose_width.
  - unfold grid_height, grid_flip_h. rewrite length_map. apply transpose_height.
Qed.

End QuarterTurns.

(** ** Rotation by zero degrees

    The facts about binary64 arithmetic used below are checked on every
    side length the vision library accepts. *)

Section ZeroTurn.

Lemma sf_same_eq (a b : spec_float) : sf_same a b = true -> a = b.
Proof.
  destruct a as [s| s| |s m e], b as [s'| s'| |s' m' e']; cbn; try discriminate;
    try reflexivity.
  - destruct s, s'; cbn; intros; congruence.
  - destruct s, s'; cbn; intros; congruence.
  - intros Hs. apply andb_prop in Hs as [Hs He]. apply andb_prop in Hs as [Hs Hm].
    apply Z.eqb_eq in He. apply Pos.eqb_eq in Hm.
    destruct s, s'; cbn in Hs; congruence.
Qed.

Lemma forall_from_spec (f : Z -> bool) (k : nat) (n z : Z) :
  forall_from f k n = true -> n <= z < n + Z.of_nat k -> f z = true.
Proof.
  revert n. induction k as [|k IH]; intros n Hall Hz; [lia|].
  cbn [forall_from] in Hall. apply andb_prop in Hall as [Hn Hrest].
  destruct (Z.eq_dec z n) as [->|Hne]; [exact Hn|].
  apply (IH (n + 1)); [exact Hrest|lia].
Qed.

Lemma side_facts_check : forall_from side_ok (Z.to_nat max_side) 0 = true.
Proof. vm_cast_no_check (eq_refl true). Qed.

Lemma side_facts (n : Z) : 0 <= n < max_side -> side_ok n = true.
Proof.
  intros Hn. apply (forall_from_spec _ _ _ _ side_facts_check).
  rewrite Z2Nat.id by (unfold max_side; lia). lia.
Qed.

Context `{Collaborators}.

(** The C library's cosine and sine at zero. *)
Hypothesis cos_zero : libm_cos (S754_zero false) = F64.one.
Hypothesis sin_zero : libm_sin (S754_zero false) = F64.zero.

(** At angle 0 the arbitrary-angle path warps by a pure translation onto a
    canvas of the source's size. *)
Lemma rotate_no_turn_is_warp (image : ndarray) (angle : value) :
  eq_int angle 90 = false -> eq_int angle 180 = false -> eq_int angle 270 = false ->
  cv2.as_double angle = Return (S754_zero false) ->
  Z.of_nat (img_width image) < max_side ->
  Z.of_nat (img_height image) < max_side ->
  ImageProcessor.rotate_image image angle
  = cv2.warpAffine image
      (zero_turn_matrix (Z.of_nat (img_width image)) (Z.of_nat (img_height image)))
      (Z.of_nat (img_width image), Z.of_nat (img_height image)).
Proof.
  intros E90 E180 E270 Eangle Hw Hh.
  set (w := Z.of_nat (img_width image)) in *.
  set (h := Z.of_nat (img_height image)) in *.
  assert (0 <= w < max_side) as Rw by (subst w; lia).
  assert (0 <= h < max_side) as Rh by (subst h; lia).
  assert (0 <= w / 2 < max_side) as Rw2
    by (split; [apply Z.div_pos; lia | apply Z.div_lt_upper_bound; lia]).
  assert (0 <= h / 2 < max_side) as Rh2
    by (split; [apply Z.div_pos; lia | apply Z.div_lt_upper_bound; lia]).
  pose proof (side_facts w Rw) as Fw. pose proof (side_facts h Rh) as Fh.
  pose proof (side_facts (w / 2) Rw2) as Fw2.
  pose proof (side_facts (h / 2) Rh2) as Fh2.
  unfold side_ok in Fw, Fh, Fw2, Fh2.
  repeat match goal with
         | F : _ && _ = true |- _ => apply andb_prop in F as [F ?]
         end.
  repeat match goal with
         | F : sf_same _ _ = true |- _ => apply sf_same_eq in F
         end.
  unfold ImageProcessor.rotate_image.
  rewrite E90, E180, E270, Eangle.
  cbn [mbind result_bind].
  unfold cv2.getRotationMatrix2D.
  change (F64.mul (S754_zero false) cv2.deg2rad) with (S754_zero false).
  rewrite cos_zero, sin_zero.
  change (F64.mul F64.one F64.one) with F64.one.
  change (F64.mul F64.zero F64.one) with F64.zero.
  cbn [cv2.m00 cv2.m01 cv2.m02 cv2.m10 cv2.m11 cv2.m12 fst snd].
  change (SFabs F64.one) with F64.one. change (SFabs F64.zero) with F64.zero.
  change (F64.sub F64.one F64.one) with F64.zero.
  fold w h.
  assert (py_int (F64.of_Z w) = Return w) as Iw.
  { unfold py_int. destruct (fl_trunc (F64.of_Z w)) as [z|]; [|discriminate].
    f_equal. now apply Z.eqb_eq. }
  assert (py_int (F64.of_Z h) = Return h) as Ih.
  { unfold py_int. destruct (fl_trunc (F64.of_Z h)) as [z|]; [|discriminate].
    f_equal. now apply Z.eqb_eq. }
  repeat match goal with
         | E : F64.mul _ _ = _ |- _ => rewrite E
         | E : F64.add _ _ = _ |- _ => rewrite E
         end.
  rewrite Iw. cbn [mbind result_bind].
  repeat match goal with
         | E : F64.mul _ _ = _ |- _ => rewrite E
         | E : F64.add _ _ = _ |- _ => rewrite E
         end.
  rewrite Ih. cbn [mbind result_bind].
  change (F64.sub F64.zero F64.zero) with F64.zero.
  change (F64.add F64.zero F64.zero) with F64.zero.
  reflexivity.
Qed.

Lemma rotate_zero_is_warp (image : ndarray) :
  Z.of_nat (img_width image) < max_side ->
  Z.of_nat (img_height image) < max_side ->
  ImageProcessor.rotate_image image (VInt 0)
  = cv2.warpAffine image
      (zero_turn_matrix (Z.of_nat (img_width image)) (Z.of_nat (img_height image)))
      (Z.of_nat (img_width image), Z.of_nat (img_height image)).
Proof. now apply rotate_no_turn_is_warp. Qed.

End ZeroTurn.

Section RotationRoundTrip.
Context `{Collaborators}.

Lemma fl_to_Q_finite (f : spec_float) :
  is_finite f = true -> exists q, fl_to_Q f = Some q.
Proof. destruct f; try discriminate; intros _; eexists; reflexivity. Qed.

Lemma rect_tabulate {X} (F : nat -> nat -> X) (w : nat) (ys : list nat) :
  rect w (map (fun y => map (F y) (seq 0 w)) ys).
Proof.
  unfold rect. induction ys as [|y ys IH]; cbn [map]; constructor; [|exact IH].
  now rewrite length_map, length_seq.
Qed.

Lemma rect_map {X Y} (f : X -> Y) (w : nat) (g : list (list X)) :
  rect w g -> rect w (map (map f) g).
Proof.
  unfold rect. intros Hg.
  induction Hg as [|r g Hr _ IH]; cbn [map]; constructor; [|exact IH].
  now rewrite length_map.
Qed.

(** [warpAffine] fills a canvas of the size it is given. *)
Lemma warpAffine_dimensions (image : ndarray) (M : cv2.Matx23) (w h : Z) :
  0 < w -> 0 < h ->
  is_finite (cv2.m00 M) = true -> is_finite (cv2.m01 M) = true ->
  is_finite (cv2.m02 M) = true -> is_finite (cv2.m10 M) = true ->
  is_finite (cv2.m11 M) = true -> is_finite (cv2.m12 M) = true ->
  exists warped,
    cv2.warpAffine image M (w, h) = Return warped
    /\ img_width warped = Z.to_nat w /\ img_height warped = Z.to_nat h
    /\ rectangular warped.
Proof.
  intros Hw Hh F00 F01 F02 F10 F11 F12.
  unfold cv2.warpAffine.
  replace ((w <=? 0) || (h <=? 0)) with false
    by (symmetry; apply orb_false_intro; apply Z.leb_gt; lia).
  destruct (fl_to_Q_finite _ F00) as [a ->].
  destruct (fl_to_Q_finite _ F01) as [b ->].
  destruct (fl_to_Q_finite _ F02) as [tx ->].
  destruct (fl_to_Q_finite _ F10) as [c ->].
  destruct (fl_to_Q_finite _ F11) as [d ->].
  destruct (fl_to_Q_finite _ F12) as [ty ->].
  assert (0 < Z.to_nat w)%nat as Pw by lia.
  destruct (Z.to_nat h) as [|h'] eqn:Eh; [lia|].
  destruct image as [g|g]; eexists; (split; [reflexivity|]);
    unfold cv2.warp_grid; destruct (cv2.invert a b tx c d ty) as [[[[[? ?] ?] ?] ?] ?];
    cbn [rectangular img_width img_height grid_height].
  - set (rows := map _ (seq 0 (S h'))).
    assert (rect (Z.to_nat w) rows) as Hrows by apply rect_tabulate.
    assert (grid_width (map (map (fun p : list Z =>
               match p with v :: _ => v | [] => 0 end)) rows) = Z.to_nat w) as Ew
      by (subst rows; cbn [seq map grid_width];
          now rewrite !length_map, length_seq).
    rewrite Ew. repeat split; try exact Pw.
    + subst rows. unfold grid_height. now rewrite !length_map, length_seq.
    + now apply rect_map.
  - set (rows := map _ (seq 0 (S h'))).
    assert (rect (Z.to_nat w) rows) as Hrows by apply rect_tabulate.
    assert (grid_width rows = Z.to_nat w) as Ew
      by (subst rows; cbn [seq map grid_width];
          now rewrite !length_map, length_seq).
    rewrite Ew. repeat split; try exact Pw; try exact Hrows.
    subst rows. unfold grid_height. now rewrite !length_map, length_seq.
Qed.

Lemma warp_zero_turn_dimensions (image : ndarray) (w h : Z) :
  0 < w < max_side -> 0 < h < max_side ->
  exists warped,
    cv2.warpAffine image (zero_turn_matrix w h) (w, h) = Return warped
    /\ img_width warped = Z.to_nat w /\ img_height warped = Z.to_nat h
    /\ rectangular warped.
Proof.
  intros Hw Hh.
  pose proof (side_facts w ltac:(lia)) as Fw.
  pose proof (side_facts h ltac:(lia)) as Fh.
  unfold side_ok in Fw, Fh.
  apply andb_prop in Fw as [_ Fw]. apply andb_prop in Fh as [_ Fh].
  apply warpAffine_dimensions; try lia; try reflexivity; assumption.
Qed.

Lemma rotate_image_90 (image : ndarray) :
  ImageProcessor.rotate_image image (VInt 90)
  = Return (cv2.rotate image cv2.ROTATE_90_CLOCKWISE).
Proof. reflexivity. Qed.

Lemma rotate_image_180 (image : ndarray) :
  ImageProcessor.rotate_image image (VInt 180)
  = Return (cv2.rotate image cv2.ROTATE_180).
Proof. reflexivity. Qed.

Lemma rotate_image_270 (image : ndarray) :
  ImageProcessor.rotate_image image (VInt 270)
  = Return (cv2.rotate image cv2.ROTATE_90_COUNTERCLOCKWISE).
Proof. reflexivity. Qed.

Lemma rotate_quarter_dimensions (image : ndarray) :
  rectangular image ->
  exists rotated,
    ImageProcessor.rotate_image image (VInt 90) = Return rotated
    /\ img_width rotated = img_height image
    /\ img_height rotated = img_width image.
Proof.
  intros Hrect. eexists. split; [apply rotate_image_90|].
  destruct image as [g|g]; destruct Hrect as [Hr Hw];
    apply (rotate_cw_dimensions g Hr Hw).
Qed.

Lemma rotate_quarter_round_trip (image : ndarray) (angle : Z) :
  rectangular image -> In angle [90; 180; 270] ->
  rotate_round_trip image angle = Return image.
Proof.
  intros Hrect Hin. unfold rotate_round_trip.
  destruct Hin as [<-|[<-|[<-|[]]]].
  - rewrite rotate_image_90. cbn [mbind result_bind].
    change (inverse_angle 90) with 270. rewrite rotate_image_270. f_equal.
    destruct image as [g|g]; destruct Hrect as [Hr Hw]; cbn [cv2.rotate]; f_equal;
      now apply rotate_cw_then_ccw.
  - rewrite rotate_image_180. cbn [mbind result_bind].
    change (inverse_angle 180) with 180. rewrite rotate_image_180. f_equal.
    destruct image as [g|g]; cbn [cv2.rotate]; f_equal;
      apply rotate_half_turn_twice.
  - rewrite rotate_image_270. cbn [mbind result_bind].
    change (inverse_angle 270) with 90. rewrite rotate_image_90. f_equal.
    destruct image as [g|g]; destruct Hrect as [Hr Hw]; cbn [cv2.rotate]; f_equal;
      now apply rotate_ccw_then_cw.
Qed.

Lemma rotate_zero_dimensions (image : ndarray) :
  libm_cos (S754_zero false) = F64.one ->
  libm_sin (S754_zero false) = F64.zero ->
  rectangular image ->
  Z.of_nat (img_width image) < max_side ->
  Z.of_nat (img_height image) < max_side ->
  exists rotated,
    ImageProcessor.rotate_image image (VInt 0) = Return rotated
    /\ img_width rotated = img_width image
    /\ img_height rotated = img_height image
    /\ rectangular rotated.
Proof.
  intros Hc Hs Hrect Hw Hh.
  rewrite (rotate_zero_is_warp Hc Hs image Hw Hh).
  assert (0 < img_width image /\ 0 < img_height image)%nat as [Pw Ph].
  { destruct image as [g|g]; destruct Hrect as [_ Hpos]; cbn in *;
      (split; [exact Hpos|]); destruct g; cbn in *; lia. }
  destruct (warp_zero_turn_dimensions image
              (Z.of_nat (img_width image)) (Z.of_nat (img_height image)))
    as (r & Er & Ew & Eh & Hr); [lia|lia|].
  exists r. rewrite !Nat2Z.id in *. auto.
Qed.

(** X25. On an image with at least one pixel: rotating by 90 exchanges
    width and height; for 90, 180 and 270 degrees, rotating and then
    rotating by the inverse angle gives back the image exactly; for 0
    degrees the round trip gives an image of the original pixel
    dimensions. *)
Theorem rotation_round_trips (image : ndarray) :
  rectangular image ->
  (exists rotated,
      ImageProcessor.rotate_image image (VInt 90) = Return rotated
      /\ img_width rotated = img_height image
      /\ img_height rotated = img_width image)
  /\ (forall angle, In angle [90; 180; 270] ->
        rotate_round_trip image angle = Return image)
  /\ (libm_cos (S754_zero false) = F64.one ->
      libm_sin (S754_zero false) = F64.zero ->
      Z.of_nat (img_width image) < max_side ->
      Z.of_nat (img_height image) < max_side ->
      exists back,
        rotate_round_trip image 0 = Return back
        /\ img_width back = img_width image
        /\ img_height back = img_height image).
Proof.
  intros Hrect. split; [now apply rotate_quarter_dimensions|].
  split; [intros angle; now apply rotate_quarter_round_trip|].
  intros Hc Hs Hw Hh.
  destruct (rotate_zero_dimensions image Hc Hs Hrect Hw Hh)
    as (r & Er & Ew & Eh & Hr).
  destruct (rotate_zero_dimensions r Hc Hs Hr) as (r' & Er' & Ew' & Eh' & _);
    [lia|lia|].
  exists r'. unfold rotate_round_trip. rewrite Er. cbn [mbind result_bind].
  change (inverse_angle 0) with 0. rewrite Er'. repeat split; congruence.
Qed.

(** C9. At 0 degrees, which is also what the rotate dialog offers first,
    the rotation is not the identity.  The angle takes the arbitrary-angle
    path, which moves the centre by [new_w / 2 - w // 2]: half a pixel on a
    side of odd length.  Every pixel is then sampled between pixels and
    against the black border: the one-pixel image of value 200 comes back
    from one rotation as 50, and from the round trip as 12 or 13, as the
    library rounds halves, with its dimensions unchanged. *)
Theorem rotate_zero_moves_odd_sides :
  libm_cos (S754_zero false) = F64.one ->
  libm_sin (S754_zero false) = F64.zero ->
  ImageProcessor.rotate_image (Gray [[200]]) (VInt 0) = Return (Gray [[50]])
  /\ ImageProcessor.rotate_image (Gray [[200]]) (VFloat F64.zero) = Return (Gray [[50]])
  /\ rotate_round_trip (Gray [[200]]) 0
     = Return (Gray [[if cv2_round_half_up 12 then 13 else 12]])
  /\ rotate_round_trip (Gray [[200]]) 0 <> Return (Gray [[200]]).
Proof.
  intros Hc Hs.
  assert (forall v angle,
             angle = VInt 0 \/ angle = VFloat F64.zero ->
             ImageProcessor.rotate_image (Gray [[v]]) angle
             = cv2.warpAffine (Gray [[v]]) (zero_turn_matrix 1 1) (1, 1)) as Hwarp.
  { intros v angle [-> | ->];
      apply (rotate_no_turn_is_warp Hc Hs); try reflexivity;
      unfold max_side; cbn; lia. }
  assert (ImageProcessor.rotate_image (Gray [[200]]) (VInt 0) = Return (Gray [[50]]))
    as E1 by (rewrite Hwarp by (now left); vm_compute; reflexivity).
  assert (ImageProcessor.rotate_image (Gray [[50]]) (VInt 0)
          = Return (Gray [[if cv2_round_half_up 12 then 13 else 12]]))
    as E2 by (rewrite Hwarp by (now left); vm_compute; reflexivity).
  assert (rotate_round_trip (Gray [[200]]) 0
          = Return (Gray [[if cv2_round_half_up 12 then 13 else 12]])) as E3.
  { unfold rotate_round_trip. rewrite E1. cbn [mbind result_bind].
    change (inverse_angle 0) with 0. exact E2. }
  split; [exact E1|].
  split; [rewrite Hwarp by (now right); vm_compute; reflexivity|].
  split; [exact E3|].
  rewrite E3. destruct (cv2_round_half_up 12); discriminate.
Qed.

End RotationRoundTrip.

Lemma rotation_round_trips_witness :
  rotate_round_trip (H := no_collaborators) gray_2x3 90 = Return gray_2x3
  /\ exists back,
       rotate_round_trip (H := no_collaborators) gray_2x3 0 = Return back
       /\ img_width back = img_width gray_2x3
       /\ img_height back = img_height gray_2x3.
Proof.
  destruct (rotation_round_trips (H := no_collaborators) gray_2x3) as (_ & H2 & H3).
  - cbn. split; [repeat constructor | lia].
  - split.
    + apply H2. left. reflexivity.
    + apply H3; [reflexivity | reflexivity | unfold max_side; cbn; lia
                | unfold max_side; cbn; lia].
Defined.

(** The specification's example: a 200 x 100 image rotated by 90 is a
    100 x 200 image. *)
Lemma rotate_example :
  exists rotated,
    ImageProcessor.rotate_image (H := no_collaborators)
      (coordinate_image 100 200) (VInt 90) = Return rotated
    /\ img_width (coordinate_image 100 200) = 200%nat
    /\ img_height (coordinate_image 100 200) = 100%nat
    /\ img_width rotated = 100%nat /\ img_height rotated = 200%nat.
Proof. eexists. split; [reflexivity|]. vm_compute. repeat split. Qed.

Lemma rotate_zero_moves_odd_sides_witness :
  ImageProcessor.rotate_image (H := no_collaborators) (Gray [[200]]) (VInt 0)
  = Return (Gray [[50]])
  /\ rotate_round_trip (H := no_collaborators) (Gray [[200]]) 0 = Return (Gray [[13]]).
Proof.
  destruct (rotate_zero_moves_odd_sides (H := no_collaborators) eq_refl eq_refl)
    as (Hone & _ & Htrip & _).
  split; [exact Hone | exact Htrip].
Defined.

(** * Properties of the task dispatcher *)

Section DispatcherFacts.
Context `{Collaborators}.
Import ThreadManager.

(** ** The trace only records *)

Section TraceIrrelevance.
Context {L : Type}.
Implicit Types (w : world L) (p : list Qt.effect).

Lemma prefix_log p e w : log e (prefix_trace p w) = prefix_trace p (log e w).
Proof. unfold log, prefix_trace; cbn. now rewrite app_assoc. Qed.

Lemma prefix_post p l w : post l (prefix_trace p w) = prefix_trace p (post l w).
Proof. reflexivity. Qed.

Lemma prefix_set_self p f w :
  set_self f (prefix_trace p w) = prefix_trace p (set_self f w).
Proof. reflexivity. Qed.

Lemma prefix_wait p c w :
  wait c (prefix_trace p w) = option_map (prefix_trace p) (wait c w).
Proof.
  unfold wait. destruct (thread c); cbn [option_map];
    now rewrite ?prefix_post, ?prefix_log.
Qed.

Lemma prefix_blocked p w : blocked (prefix_trace p w) = blocked w.
Proof. reflexivity. Qed.

Lemma prefix_cleanup p w :
  _cleanup_worker (prefix_trace p w) = prefix_trace p (_cleanup_worker w).
Proof.
  unfold _cleanup_worker. cbn [self prefix_trace].
  destruct (current_worker (self w)) as [c|]; [|reflexivity].
  fold (prefix_trace p w).
  rewrite prefix_log, prefix_wait.
  destruct (wait c (log (Qt.quit (task c)) w)) as [w'|]; cbn [option_map].
  - now rewrite prefix_log.
  - unfold stuck_in_wait. now rewrite prefix_log.
Qed.
End TraceIrrelevance.

Lemma prefix_deliver p s (w : world unit) :
  deliver no_slot no_slot s (prefix_trace p w)
  = prefix_trace p (deliver no_slot no_slot s w).
Proof.
  destruct s as [r|msg|n|msg]; cbn [deliver].
  - unfold _on_processing_finished, emit_processing_finished, set_is_processing, no_slot.
    rewrite prefix_set_self, prefix_log, prefix_blocked.
    destruct (blocked _); [reflexivity | apply prefix_cleanup].
  - unfold _on_processing_error, emit_processing_error, set_is_processing, no_slot.
    rewrite prefix_set_self, prefix_log, prefix_blocked.
    destruct (blocked _); [reflexivity | apply prefix_cleanup].
  - apply prefix_log.
  - apply prefix_log.
Qed.

Lemma prefix_step p (w : world unit) :
  step no_slot no_slot (prefix_trace p w)
  = option_map (prefix_trace p) (step no_slot no_slot w).
Proof.
  unfold step. rewrite prefix_blocked.
  destruct (blocked w); [reflexivity|].
  cbn [posted self prefix_trace].
  destruct (posted w) as [|s rest].
  - destruct (current_worker (self w)) as [c|]; [|reflexivity].
    destruct (thread c); reflexivity.
  - cbn [option_map]. f_equal.
    exact (prefix_deliver p s {| self := self w; listener := listener w;
                                 posted := rest; trace := trace w |}).
Qed.

(** Whatever is already in the trace has no bearing on what happens
    next. *)
Lemma prefix_run p fuel (w : world unit) :
  run_alone fuel (prefix_trace p w) = prefix_trace p (run_alone fuel w).
Proof.
  revert w. induction fuel as [|fuel IH]; intros w; [reflexivity|].
  unfold run_alone in *. cbn [run_event_loop]. rewrite prefix_step.
  destruct (step no_slot no_slot w) as [w'|]; cbn [option_map]; [apply IH|reflexivity].
Qed.

Lemma prefix_clear (w : world unit) : prefix_trace (trace w) (clear_trace w) = w.
Proof. destruct w. unfold prefix_trace, clear_trace; cbn. now rewrite app_nil_r. Qed.

(** ** Submitting while busy *)

(** C1. While an operation is in flight, submitting an operation that is
    not real-time returns false; the only thing that happens is the
    "already in progress" error notification: the manager's fields and the
    posted signals are as before, and however long the system runs
    afterwards it does exactly what it would have done without the
    submission.  Nothing of the rejected request is kept. *)
Theorem busy_rejects_and_drops
    (w : world unit) (image : option ndarray) (operation : string) (kwargs : Kwargs) :
  is_processing (self w) = true ->
  ImageProcessingWorker.is_real_time operation = false ->
  let busy := Qt.processing_error "Another operation is already in progress" in
  let after := snd (process_image no_slot image operation kwargs w) in
  fst (process_image no_slot image operation kwargs w) = Some false
  /\ self after = self w
  /\ posted after = posted w
  /\ trace after = (trace w ++ [busy])%list
  /\ forall fuel, exists rest,
       trace (run_alone fuel w) = (trace w ++ rest)%list
       /\ trace (run_alone fuel after) = (trace w ++ [busy] ++ rest)%list
       /\ self (run_alone fuel after) = self (run_alone fuel w)
       /\ posted (run_alone fuel after) = posted (run_alone fuel w).
Proof.
  intros Hbusy Hrt busy after.
  assert (process_image no_slot image operation kwargs w = (Some false, log busy w)) as E.
  { unfold process_image. now rewrite Hbusy, Hrt. }
  subst after. rewrite E. cbn [fst snd].
  do 4 (split; [reflexivity|]).
  intros fuel. exists (trace (run_alone fuel (clear_trace w))).
  assert (run_alone fuel w = prefix_trace (trace w) (run_alone fuel (clear_trace w)))
    as Ew by (now rewrite <- prefix_run, prefix_clear).
  assert (run_alone fuel (log busy w)
          = prefix_trace (trace w ++ [busy]) (run_alone fuel (clear_trace w))) as Ea.
  { rewrite <- prefix_run. f_equal.
    unfold log, prefix_trace, clear_trace; cbn. now rewrite app_nil_r. }
  rewrite Ew, Ea. cbn [prefix_trace trace self posted].
  rewrite <- app_assoc. do 3 (split; [reflexivity|]). reflexivity.
Qed.

(** C2. A real-time operation submitted while the manager is busy.  If
    the worker in flight is still running, it is killed, and then what
    happens is the runtime's: when the killed thread lets go, the manager
    waits for it, cleans it up, emits "Operation cancelled", starts a worker
    for the new request and returns true; when it does not, the manager
    never comes back from [wait()], so the call does not return, no worker
    is started, and nothing happens any more however long the system runs.
    If the worker in flight has already finished, or there is none, nothing
    is cancelled: the new worker is started at once and the call returns
    true, with every signal the old worker has posted still waiting to be
    delivered. *)
Theorem busy_real_time_submit {L : Type}
    (error_slot : string -> world L -> world L) (w : world L)
    (image : ndarray) (operation : string) (kwargs : Kwargs) :
  is_processing (self w) = true ->
  ImageProcessingWorker.is_real_time operation = true ->
  let worker := ImageProcessingWorker.Build image operation kwargs in
  let started (effects : list Qt.effect) : world L :=
    {| self := {| current_worker := Some {| task := worker; thread := Qt.Running |};
                  operation_queue := operation_queue (self w);
                  is_processing := true |};
       listener := listener w;
       posted := posted w;
       trace := (trace w ++ effects ++ [Qt.start worker])%list |} in
  (forall c,
      current_worker (self w) = Some c -> thread c = Qt.Running ->
      thread (terminate c) = Qt.Finished ->
      process_image error_slot (Some image) operation kwargs w
      = (Some true,
         started [Qt.terminate (task c); Qt.wait (task c);
                  Qt.quit (task c); Qt.wait (task c); Qt.deleteLater (task c);
                  Qt.processing_status "Operation cancelled"]))
  /\ (forall c,
        current_worker (self w) = Some c -> thread c = Qt.Running ->
        thread (terminate c) = Qt.Terminated ->
        let stuck :=
          {| self := {| current_worker :=
                          Some {| task := task c; thread := Qt.Terminated |};
                        operation_queue := operation_queue (self w);
                        is_processing := true |};
             listener := listener w;
             posted := posted w;
             trace := (trace w ++ [Qt.terminate (task c); Qt.wait (task c)])%list |} in
        process_image error_slot (Some image) operation kwargs w = (None, stuck)
        /\ forall finished_slot fuel,
             run_event_loop finished_slot error_slot fuel stuck = stuck)
  /\ ((forall c, current_worker (self w) = Some c -> thread c = Qt.Finished) ->
      process_image error_slot (Some image) operation kwargs w
      = (Some true, started [])).
Proof.
  intros Hbusy Hrt worker started.
  destruct w as [[cw oq ip] l q tr].
  cbn [self current_worker is_processing operation_queue listener posted trace] in *.
  subst ip. split; [|split].
  - intros [tk th] -> Hth Hrel. cbn [thread] in Hth. subst th.
    unfold terminate in Hrel. cbn [task thread] in Hrel.
    unfold process_image. cbn [self is_processing]. rewrite Hrt.
    unfold cancel_current_operation. cbn [self current_worker thread].
    unfold terminate. cbn [task].
    destruct (Qt_terminate_releases _ _ _); [|discriminate Hrel].
    cbv [_cleanup_worker wait log set_current_worker set_is_processing set_self post
         blocked wedged stuck_in_wait
         self listener posted trace current_worker thread task is_processing
         operation_queue].
    subst started. cbv beta. rewrite <- !app_assoc. reflexivity.
  - intros [tk th] -> Hth Hrel. cbn [thread] in Hth. subst th.
    unfold terminate in Hrel. cbn [task thread] in Hrel.
    cbn zeta. cbn [task]. split.
    + unfold process_image. cbn [self is_processing]. rewrite Hrt.
      unfold cancel_current_operation. cbn [self current_worker thread].
      unfold terminate. cbn [task].
      destruct (Qt_terminate_releases _ _ _); [discriminate Hrel|].
      cbv [_cleanup_worker wait log set_current_worker set_is_processing set_self post
           blocked wedged stuck_in_wait
           self listener posted trace current_worker thread task is_processing
           operation_queue].
      rewrite <- !app_assoc. reflexivity.
    + intros finished_slot fuel. destruct fuel; reflexivity.
  - intros Hrest.
    unfold process_image. cbn [self is_processing]. rewrite Hrt.
    assert (cancel_current_operation
              {| self := {| current_worker := cw; operation_queue := oq;
                            is_processing := true |};
                 listener := l; posted := q; trace := tr |}
            = {| self := {| current_worker := cw; operation_queue := oq;
                            is_processing := true |};
                 listener := l; posted := q; trace := tr |}) as ->.
    { unfold cancel_current_operation. cbn [self current_worker].
      destruct cw as [c|]; [|reflexivity]. now rewrite (Hrest c eq_refl). }
    assert (blocked {| self := {| current_worker := cw; operation_queue := oq;
                                  is_processing := true |};
                       listener := l; posted := q; trace := tr |} = false) as ->.
    { unfold blocked, wedged. cbn [self current_worker].
      destruct cw as [c|]; [|reflexivity]. now rewrite (Hrest c eq_refl). }
    subst started. cbv beta.
    cbv [log set_current_worker set_is_processing set_self
         self listener posted trace current_worker is_processing operation_queue].
    reflexivity.
Qed.

End DispatcherFacts.

Lemma busy_rejects_and_drops_witness :
  fst (ThreadManager.process_image (H := no_collaborators) ThreadManager.no_slot
         (Some gray_2x3) "rotate" {[ "angle" := VInt 90 ]} busy_world) = Some false
  /\ ThreadManager.self
       (snd (ThreadManager.process_image (H := no_collaborators) ThreadManager.no_slot
               (Some gray_2x3) "rotate" {[ "angle" := VInt 90 ]} busy_world))
     = ThreadManager.self busy_world.
Proof.
  destruct (busy_rejects_and_drops (H := no_collaborators) busy_world
              (Some gray_2x3) "rotate" {[ "angle" := VInt 90 ]})
    as (Hfst & Hself & _); [reflexivity | reflexivity |].
  split; [exact Hfst | exact Hself].
Defined.

Lemma busy_real_time_submit_witness :
  ThreadManager.process_image (H := no_collaborators) ThreadManager.no_slot
    (Some gray_2x3) "brightness_contrast" {[ "brightness" := VInt 20 ]}
    (run_alone (H := no_collaborators) 1 busy_world)
  = (Some true,
     {| ThreadManager.self :=
          {| ThreadManager.current_worker :=
               Some {| ThreadManager.task :=
                         ImageProcessingWorker.Build gray_2x3 "brightness_contrast"
                           {[ "brightness" := VInt 20 ]};
                       ThreadManager.thread := Qt.Running |};
             ThreadManager.operation_queue := [];
             ThreadManager.is_processing := true |};
        ThreadManager.listener := tt;
        ThreadManager.posted :=
          [ImageProcessingWorker.finished (Gray [[20; 30; 40]; [50; 60; 70]])];
        ThreadManager.trace :=
          [Qt.start (ImageProcessingWorker.Build gray_2x3 "brightness_contrast"
                       {[ "brightness" := VInt 10 ]});
           Qt.start (ImageProcessingWorker.Build gray_2x3 "brightness_contrast"
                       {[ "brightness" := VInt 20 ]})] |})
  /\ fst (ThreadManager.process_image (H := wedging_collaborators) ThreadManager.no_slot
            (Some gray_2x3) "brightness_contrast" {[ "brightness" := VInt 20 ]}
            busy_world)
     = None.
Proof.
  split.
  - destruct (busy_real_time_submit (H := no_collaborators) ThreadManager.no_slot
                (run_alone (H := no_collaborators) 1 busy_world)
                gray_2x3 "brightness_contrast" {[ "brightness" := VInt 20 ]}
                eq_refl eq_refl) as (_ & _ & Hstale).
    rewrite Hstale; [reflexivity|].
    intros c Hc. injection Hc as <-. reflexivity.
  - destruct (busy_real_time_submit (H := wedging_collaborators) ThreadManager.no_slot
                busy_world
                gray_2x3 "brightness_contrast" {[ "brightness" := VInt 20 ]}
                eq_refl eq_refl) as (_ & Hstuck & _).
    destruct (Hstuck {| ThreadManager.task :=
                          ImageProcessingWorker.Build gray_2x3 "brightness_contrast"
                            {[ "brightness" := VInt 10 ]};
                        ThreadManager.thread := Qt.Running |}
                eq_refl eq_refl eq_refl) as [E _].
    now rewrite E.
Defined.

(** ** The event loop *)

Section EventLoop.
Context `{Collaborators} {L : Type}.
Import ThreadManager.
Variable finished_slot : ndarray -> world L -> world L.
Variable error_slot : string -> world L -> world L.


Lemma loop_idle (fuel : nat) (w : world L) : step finished_slot error_slot w = None -> run_event_loop finished_slot error_slot fuel w = w.
Proof. intros Hq. destruct fuel; [reflexivity|]. cbn [run_event_loop]. now rewrite Hq. Qed.

Lemma loop_add (n m : nat) (w : world L) : run_event_loop finished_slot error_slot (n + m) w = run_event_loop finished_slot error_slot m (run_event_loop finished_slot error_slot n w).
Proof.
  revert w. induction n as [|n IH]; intros w; [reflexivity|].
  cbn [Nat.add run_event_loop].
  destruct (step finished_slot error_slot w) as [w'|] eqn:E; [apply IH|].
  symmetry. now apply loop_idle.
Qed.

(** Once nothing is left to do, more time changes nothing. *)
Lemma loop_settled (n fuel : nat) (w : world L) :
  step finished_slot error_slot (run_event_loop finished_slot error_slot n w) = None -> (n <= fuel)%nat -> run_event_loop finished_slot error_slot fuel w = run_event_loop finished_slot error_slot n w.
Proof.
  intros Hq Hle. replace fuel with (n + (fuel - n))%nat by lia.
  rewrite loop_add. now apply loop_idle.
Qed.

(** Progress and status signals at the head of the queue are forwarded
    one per step. *)
Lemma loop_chatter (chatter rest : list ImageProcessingWorker.signal)
    (m : t) (l : L) (tr : list Qt.effect) :
  wedged m = false ->
  forallb is_chatter chatter = true ->
  run_event_loop finished_slot error_slot (length chatter)
    {| self := m; listener := l; posted := (chatter ++ rest)%list; trace := tr |}
  = {| self := m; listener := l; posted := rest;
       trace := (tr ++ flat_map forwarded chatter)%list |}.
Proof.
  intros Hm. revert tr. induction chatter as [|s chatter IH]; intros tr Hall.
  - cbn. now rewrite app_nil_r.
  - cbn [forallb] in Hall. apply andb_prop in Hall as [Hs Hall].
    cbn [length run_event_loop app]. unfold step, blocked. cbn [posted self].
    rewrite Hm.
    destruct s as [r|msg|n|msg]; try discriminate; cbn [deliver];
      unfold log; cbn [self listener posted trace];
      rewrite IH by exact Hall; cbn [flat_map forwarded app];
      now rewrite <- app_assoc.
Qed.

End EventLoop.

(** ** What a worker's run looks like *)

Section RunShape.
Context `{Collaborators}.
Import ImageProcessingWorker.

Lemma execute_outcome_not_none (t : ImageProcessingWorker.t) :
  snd (_execute_operation t) <> Return None.
Proof.
  unfold _execute_operation. cbn [snd].
  match goal with |- (?o ≫= _) <> _ => destruct o end; cbn; discriminate.
Qed.

(** A run that produces an image: chatter, then the result. *)
Lemma run_success (t : ImageProcessingWorker.t) (r : ndarray) :
  snd (_execute_operation t) = Return (Some r) ->
  exists chatter,
    run t = (chatter ++ [finished r])%list
    /\ forallb is_chatter chatter = true
    /\ (length chatter <= 7)%nat.
Proof.
  intros Hout. unfold run.
  assert (fst (_execute_operation t)
          = if is_real_time (operation t) then [] else [progress 30]) as Hem
    by reflexivity.
  destruct (_execute_operation t) as [emitted result]. cbn [fst snd] in *. subst.
  destruct (is_real_time (operation t)).
  - exists []. split; [reflexivity|]. split; [reflexivity|]. cbn. lia.
  - eexists [_; _; _; _; _; _; _]. split; [reflexivity|]. split; [reflexivity|]. cbn. lia.
Qed.

(** A run that fails: chatter, then one error naming the operation. *)
Lemma run_failure (t : ImageProcessingWorker.t) :
  failed (snd (_execute_operation t)) ->
  exists chatter,
    run t = (chatter ++ [error (failure_message (operation t)
                                  (snd (_execute_operation t)))])%list
    /\ forallb is_chatter chatter = true
    /\ (length chatter <= 5)%nat.
Proof.
  intros Hfail. unfold run.
  assert (fst (_execute_operation t)
          = if is_real_time (operation t) then [] else [progress 30]) as Hem
    by reflexivity.
  destruct (_execute_operation t) as [emitted result]. cbn [fst snd] in *. subst.
  destruct result as [[r|]|e]; [contradiction| |]; cbn [failure_message];
    destruct (is_real_time (operation t)).
  - exists []. split; [reflexivity|]. split; [reflexivity|]. cbn. lia.
  - eexists [_; _; _; _; _]. split; [reflexivity|]. split; [reflexivity|]. cbn. lia.
  - exists []. split; [reflexivity|]. split; [reflexivity|]. cbn. lia.
  - eexists [_; _; _]. split; [reflexivity|]. split; [reflexivity|]. cbn. lia.
Qed.

Lemma append_empty_r (s : string) : s +:+ "" = s.
Proof.
  induction s as [|a s IH]; [reflexivity|].
  change (String a (s +:+ "") = String a s). now rewrite IH.
Qed.

Lemma failure_message_names_operation (operation : string)
    (outcome : result (option ndarray)) :
  Contains operation (failure_message operation outcome).
Proof.
  unfold Contains, failure_message. destruct outcome as [[r|]|e].
  - exists "Failed to execute ", "". cbn. now rewrite append_empty_r.
  - exists "Failed to execute ", "". cbn. now rewrite append_empty_r.
  - exists "Error in ", (": " +:+ exc_str e). reflexivity.
Qed.

End RunShape.

(** ** Failures *)

Section Failures.
Context `{Collaborators}.
Import ThreadManager.

(** C4. When a dispatched operation fails inside the worker (unknown
    operation name, a parameter the operation rejects, or any exception
    while processing), the manager emits one error whose message contains
    the operation's name, no result, and is idle again: nothing is posted,
    no worker is held, and the next submission is accepted. *)
Theorem failure_is_reported_and_manager_idle
    (w : world unit) (image : ndarray) (operation : string) (kwargs : Kwargs) :
  is_processing (self w) = false ->
  posted w = [] ->
  let worker := ImageProcessingWorker.Build image operation kwargs in
  let outcome := snd (ImageProcessingWorker._execute_operation worker) in
  failed outcome ->
  forall fuel, (8 <= fuel)%nat ->
  let after :=
    run_alone fuel (snd (process_image no_slot (Some image) operation kwargs w)) in
  let msg := failure_message operation outcome in
  Contains operation msg
  /\ (exists chatter,
        forallb is_chatter chatter = true
        /\ trace after
           = (trace w ++ [Qt.start worker] ++ flat_map forwarded chatter
              ++ [Qt.processing_error msg;
                  Qt.quit worker; Qt.wait worker; Qt.deleteLater worker])%list)
  /\ is_processing (self after) = false
  /\ current_worker (self after) = None
  /\ posted after = []
  /\ forall image' operation' kwargs',
       fst (process_image no_slot (Some image') operation' kwargs' after) = Some true.
Proof.
  destruct w as [[cw oq ip] l q tr].
  intros Hidle Hposted worker outcome Hfail fuel Hfuel after msg.
  cbn [self is_processing posted] in Hidle, Hposted. subst ip q.
  cbn [self is_processing posted trace operation_queue] in *.
  split; [apply failure_message_names_operation|].
  destruct (run_failure worker Hfail) as (chatter & Hrun & Hchat & Hlen).
  fold outcome in Hrun.
  change (ImageProcessingWorker.operation worker) with operation in Hrun.
  fold msg in Hrun.
  set (settled :=
         {| self := {| current_worker := None; operation_queue := oq;
                       is_processing := false |};
            listener := l;
            posted := [];
            trace := (tr ++ [Qt.start worker] ++ flat_map forwarded chatter
                      ++ [Qt.processing_error msg;
                          Qt.quit worker; Qt.wait worker; Qt.deleteLater worker])%list |}).
  assert (run_alone (S (length chatter + 1))
            (snd (process_image no_slot (Some image) operation kwargs
                    {| self := {| current_worker := cw; operation_queue := oq;
                                  is_processing := false |};
                       listener := l; posted := []; trace := tr |}))
          = settled) as Hsettled.
  { unfold run_alone.
    cbv [process_image snd log set_is_processing set_current_worker set_self
         self listener posted trace current_worker thread task is_processing
         operation_queue
       blocked wedged stuck_in_wait].
    fold worker.
    cbn [run_event_loop].
    cbv [step post set_current_worker set_self
         self listener posted trace current_worker thread task is_processing
         operation_queue
       blocked wedged stuck_in_wait].
    rewrite Hrun. cbn [app].
    rewrite loop_add, loop_chatter by first [exact Hchat | reflexivity].
    cbn [run_event_loop].
    cbv [step deliver _on_processing_error emit_processing_error no_slot
         _cleanup_worker wait log set_is_processing set_current_worker set_self
         self listener posted trace current_worker thread task is_processing
         operation_queue
       blocked wedged stuck_in_wait].
    subst settled. f_equal. rewrite <- !app_assoc. reflexivity. }
  assert (after = settled) as ->.
  { subst after. unfold run_alone in *.
    rewrite (loop_settled no_slot no_slot (S (length chatter + 1))); [exact Hsettled| |lia].
    rewrite Hsettled. reflexivity. }
  split; [exists chatter; split; [exact Hchat|reflexivity]|].
  do 3 (split; [reflexivity|]).
  intros image' operation' kwargs'. reflexivity.
Qed.

End Failures.

Lemma failure_is_reported_and_manager_idle_witness :
  Contains "sepia"
    (failure_message "sepia"
       (snd (ImageProcessingWorker._execute_operation (H := no_collaborators)
               (ImageProcessingWorker.Build gray_2x3 "sepia" ∅))))
  /\ ThreadManager.is_processing
       (ThreadManager.self
          (run_alone (H := no_collaborators) 8
             (snd (ThreadManager.process_image (H := no_collaborators)
                     ThreadManager.no_slot (Some gray_2x3) "sepia" ∅
                     ThreadManager.fresh)))) = false.
Proof.
  destruct (failure_is_reported_and_manager_idle (H := no_collaborators)
              ThreadManager.fresh gray_2x3 "sepia" ∅
              eq_refl eq_refl I 8%nat (le_n 8))
    as (Hmsg & _ & Hidle & _).
  split; [exact Hmsg | exact Hidle].
Defined.

(** * Properties of the batch sequencer *)

Section BatchFacts.
Context `{Collaborators}.
Import ThreadManager.

Lemma filter_forwarded (keep : Qt.effect -> bool)
    (chatter : list ImageProcessingWorker.signal) :
  keep = is_start \/ keep = is_batch_outcome ->
  List.filter keep (flat_map forwarded chatter) = [].
Proof.
  intros Hkeep. induction chatter as [|s chatter IH]; [reflexivity|].
  cbn [flat_map]. rewrite List.filter_app, IH, app_nil_r.
  destruct Hkeep as [-> | ->]; destruct s; reflexivity.
Qed.

Ltac reduce_world :=
  cbv [BatchProcessor.process_batch BatchProcessor._process_next_operation
       BatchProcessor._on_operation_finished BatchProcessor._on_operation_error
       BatchProcessor.emit_batch_finished
       BatchProcessor.set_batch BatchProcessor.fresh init BatchProcessor.init
       BatchProcessor.step step deliver post
       _on_processing_finished _on_processing_error
       emit_processing_finished emit_processing_error _cleanup_worker wait
       process_image snd log set_is_processing set_current_worker set_self
       self listener posted trace current_worker thread task is_processing
       operation_queue BatchProcessor.operations_queue BatchProcessor.current_image
       BatchProcessor.current_operation_index
       blocked wedged stuck_in_wait].

(** Starting a batch whose first step is [a]. *)
Lemma batch_starts (image : ndarray) (a : BatchProcessor.operation)
    (rest : list BatchProcessor.operation) :
  BatchProcessor.process_batch image (a :: rest) BatchProcessor.fresh
  = {| self := {| current_worker :=
                    Some {| task := batch_worker image a; thread := Qt.Running |};
                  operation_queue := [];
                  is_processing := true |};
       listener := {| BatchProcessor.operations_queue := a :: rest;
                      BatchProcessor.current_image := Some image;
                      BatchProcessor.current_operation_index := 0 |};
       posted := [];
       trace := [Qt.batch_progress (BatchProcessor.percent 0 (length (a :: rest)))
                   ("Processing: " +:+ BatchProcessor.name a);
                 Qt.start (batch_worker image a)] |}.
Proof. reflexivity. Qed.

(** With nothing posted, the running worker runs to its end. *)
Lemma step_worker_runs (oq : list (string * Kwargs)) (busy : bool)
    (l : BatchProcessor.t) (tr : list Qt.effect) (worker : ImageProcessingWorker.t) :
  BatchProcessor.step
    {| self := {| current_worker := Some {| task := worker; thread := Qt.Running |};
                  operation_queue := oq; is_processing := busy |};
       listener := l; posted := []; trace := tr |}
  = Some {| self := {| current_worker :=
                         Some {| task := worker; thread := Qt.Finished |};
                       operation_queue := oq;
                       is_processing := busy |};
            listener := l;
            posted := ImageProcessingWorker.run worker;
            trace := tr |}.
Proof. reflexivity. Qed.

Lemma at_rest_finished (worker : ImageProcessingWorker.t) :
  at_rest (Some {| task := worker; thread := Qt.Finished |}).
Proof. intros c Hc. injection Hc as <-. reflexivity. Qed.

Lemma at_rest_none : at_rest None.
Proof. intros c Hc. discriminate Hc. Qed.

Lemma at_rest_not_wedged (cw : option worker_thread) (oq : list (string * Kwargs))
    (busy : bool) :
  at_rest cw ->
  wedged {| current_worker := cw; operation_queue := oq; is_processing := busy |} = false.
Proof.
  intros Hrest. unfold wedged. cbn [current_worker].
  destruct cw as [c|]; [|reflexivity]. now rewrite (Hrest c eq_refl).
Qed.

(** A result arrives and another step follows: the sequencer takes the
    result as its image and dispatches the next step; the manager then
    cleans up the worker it holds, which by now is the new one, and so
    waits for it to finish. *)
Lemma step_result_then_next (cw : option worker_thread) (oq : list (string * Kwargs))
    (busy : bool) (queue : list BatchProcessor.operation) (img : option ndarray)
    (index : nat) (next : BatchProcessor.operation) (r : ndarray)
    (rest : list ImageProcessingWorker.signal) (tr : list Qt.effect) :
  at_rest cw ->
  queue !! S index = Some next ->
  BatchProcessor.step
    {| self := {| current_worker := cw; operation_queue := oq; is_processing := busy |};
       listener := {| BatchProcessor.operations_queue := queue;
                      BatchProcessor.current_image := img;
                      BatchProcessor.current_operation_index := index |};
       posted := ImageProcessingWorker.finished r :: rest;
       trace := tr |}
  = Some {| self := {| current_worker := None; operation_queue := oq;
                       is_processing := true |};
            listener := {| BatchProcessor.operations_queue := queue;
                           BatchProcessor.current_image := Some r;
                           BatchProcessor.current_operation_index := S index |};
            posted := (rest ++ ImageProcessingWorker.run (batch_worker r next))%list;
            trace := (tr ++ [Qt.processing_finished r;
                             Qt.batch_progress
                               (BatchProcessor.percent (S index) (length queue))
                               ("Processing: " +:+ BatchProcessor.name next);
                             Qt.start (batch_worker r next);
                             Qt.quit (batch_worker r next);
                             Qt.wait (batch_worker r next);
                             Qt.deleteLater (batch_worker r next)])%list |}.
Proof.
  intros Hrest Hnext.
  destruct cw as [[tk th]|];
    [pose proof (Hrest _ eq_refl) as Hth; cbn [thread] in Hth; subst th|];
    reduce_world; rewrite Hnext; reduce_world;
    fold (batch_worker r next); rewrite <- !app_assoc; reflexivity.
Qed.

(** A result arrives and no step is left: the batch is finished. *)
Lemma step_result_then_done (oq : list (string * Kwargs))
    (busy : bool) (queue : list BatchProcessor.operation) (img : option ndarray)
    (index : nat) (r : ndarray) (tr : list Qt.effect) :
  queue !! S index = None ->
  BatchProcessor.step
    {| self := {| current_worker := None; operation_queue := oq; is_processing := busy |};
       listener := {| BatchProcessor.operations_queue := queue;
                      BatchProcessor.current_image := img;
                      BatchProcessor.current_operation_index := index |};
       posted := [ImageProcessingWorker.finished r];
       trace := tr |}
  = Some {| self := {| current_worker := None; operation_queue := oq;
                       is_processing := false |};
            listener := {| BatchProcessor.operations_queue := queue;
                           BatchProcessor.current_image := Some r;
                           BatchProcessor.current_operation_index := S index |};
            posted := [];
            trace := (tr ++ [Qt.processing_finished r; Qt.batch_finished r])%list |}.
Proof.
  intros Hnext. reduce_world. rewrite Hnext. reduce_world.
  rewrite <- !app_assoc. reflexivity.
Qed.

(** An error arrives: the sequencer reports the failure and stops. *)
Lemma step_error_aborts (worker : ImageProcessingWorker.t)
    (oq : list (string * Kwargs)) (busy : bool) (l : BatchProcessor.t)
    (msg : string) (tr : list Qt.effect) :
  BatchProcessor.step
    {| self := {| current_worker := Some {| task := worker; thread := Qt.Finished |};
                  operation_queue := oq; is_processing := busy |};
       listener := l;
       posted := [ImageProcessingWorker.error msg];
       trace := tr |}
  = Some {| self := {| current_worker := None; operation_queue := oq;
                       is_processing := false |};
            listener := l;
            posted := [];
            trace := (tr ++ [Qt.processing_error msg;
                             Qt.batch_error
                               ("Batch processing failed at operation "
                                +:+ BatchProcessor.str_nat
                                      (BatchProcessor.current_operation_index l)
                                +:+ ": " +:+ msg);
                             Qt.quit worker; Qt.wait worker;
                             Qt.deleteLater worker])%list |}.
Proof.
  reduce_world. rewrite <- !app_assoc. reflexivity.
Qed.

Lemma loop_step (n : nat) (w w' : BatchProcessor.world) :
  BatchProcessor.step w = Some w' ->
  BatchProcessor.run_event_loop (S n) w = BatchProcessor.run_event_loop n w'.
Proof.
  intros Hs. unfold BatchProcessor.run_event_loop, BatchProcessor.step in *.
  cbn [run_event_loop]. now rewrite Hs.
Qed.

Lemma loop_forwards (chatter rest : list ImageProcessingWorker.signal) (n : nat)
    (m : ThreadManager.t) (l : BatchProcessor.t) (tr : list Qt.effect) :
  wedged m = false ->
  forallb is_chatter chatter = true ->
  BatchProcessor.run_event_loop (length chatter + n)
    {| self := m; listener := l; posted := (chatter ++ rest)%list; trace := tr |}
  = BatchProcessor.run_event_loop n
      {| self := m; listener := l; posted := rest;
         trace := (tr ++ flat_map forwarded chatter)%list |}.
Proof.
  intros Hm Hc. unfold BatchProcessor.run_event_loop.
  now rewrite loop_add, loop_chatter.
Qed.

(** The settled world after a batch of two steps that both succeed. *)
Lemma batch_of_two_settles (image : ndarray) (a b : BatchProcessor.operation)
    (ia ib : ndarray) :
  apply_operation image a = Return (Some ia) ->
  apply_operation ia b = Return (Some ib) ->
  exists (n : nat) (ca cb : list ImageProcessingWorker.signal),
    (n <= 17)%nat
    /\ BatchProcessor.run_event_loop n
         (BatchProcessor.process_batch image [a; b] BatchProcessor.fresh)
       = {| self := init;
            listener := {| BatchProcessor.operations_queue := [a; b];
                           BatchProcessor.current_image := Some ib;
                           BatchProcessor.current_operation_index := 2 |};
            posted := [];
            trace :=
              ([Qt.batch_progress (BatchProcessor.percent 0 2)
                  ("Processing: " +:+ BatchProcessor.name a);
                Qt.start (batch_worker image a)]
               ++ flat_map forwarded ca
               ++ [Qt.processing_finished ia;
                   Qt.batch_progress (BatchProcessor.percent 1 2)
                     ("Processing: " +:+ BatchProcessor.name b);
                   Qt.start (batch_worker ia b);
                   Qt.quit (batch_worker ia b);
                   Qt.wait (batch_worker ia b);
                   Qt.deleteLater (batch_worker ia b)]
               ++ flat_map forwarded cb
               ++ [Qt.processing_finished ib; Qt.batch_finished ib])%list |}.
Proof.
  intros Ha Hb.
  destruct (run_success (batch_worker image a) ia Ha) as (ca & Hra & Hca & Hla).
  destruct (run_success (batch_worker ia b) ib Hb) as (cb & Hrb & Hcb & Hlb).
  exists (S (length ca + S (length cb + 1))), ca, cb.
  split; [lia|].
  rewrite batch_starts.
  rewrite (loop_step _ _ _ (step_worker_runs _ _ _ _ _)), Hra.
  rewrite loop_forwards by first [exact Hca | reflexivity].
  rewrite (loop_step _ _ _ (step_result_then_next _ _ _ [a; b] _ 0 b ia [] _
                              (at_rest_finished _) eq_refl)).
  cbn [app]. rewrite Hrb.
  rewrite loop_forwards by first [exact Hcb | reflexivity].
  rewrite (loop_step _ _ _ (step_result_then_done _ _ [a; b] _ 1 ib _ eq_refl)).
  cbn [BatchProcessor.run_event_loop run_event_loop length].
  unfold init; f_equal; repeat (progress (rewrite <- ?app_assoc; cbn [app]));
    reflexivity.
Qed.

(** The settled world after a batch whose first step fails. *)
Lemma batch_aborts_on_failure (image : ndarray) (a : BatchProcessor.operation)
    (rest : list BatchProcessor.operation) :
  failed (apply_operation image a) ->
  exists (n : nat) (ca : list ImageProcessingWorker.signal),
    (n <= 7)%nat
    /\ BatchProcessor.run_event_loop n
         (BatchProcessor.process_batch image (a :: rest) BatchProcessor.fresh)
       = {| self := init;
            listener := {| BatchProcessor.operations_queue := a :: rest;
                           BatchProcessor.current_image := Some image;
                           BatchProcessor.current_operation_index := 0 |};
            posted := [];
            trace :=
              ([Qt.batch_progress (BatchProcessor.percent 0 (length (a :: rest)))
                  ("Processing: " +:+ BatchProcessor.name a);
                Qt.start (batch_worker image a)]
               ++ flat_map forwarded ca
               ++ [Qt.processing_error
                     (failure_message (BatchProcessor.name a) (apply_operation image a));
                   Qt.batch_error
                     ("Batch processing failed at operation 0: "
                      +:+ failure_message (BatchProcessor.name a)
                            (apply_operation image a));
                   Qt.quit (batch_worker image a);
                   Qt.wait (batch_worker image a);
                   Qt.deleteLater (batch_worker image a)])%list |}.
Proof.
  intros Hfail.
  destruct (run_failure (batch_worker image a) Hfail) as (ca & Hra & Hca & Hla).
  exists (S (length ca + 1)), ca.
  split; [lia|].
  rewrite batch_starts.
  rewrite (loop_step _ _ _ (step_worker_runs _ _ _ _ _)), Hra.
  rewrite loop_forwards by first [exact Hca | reflexivity].
  rewrite (loop_step _ _ _ (step_error_aborts _ _ _ _ _ _)).
  cbn [BatchProcessor.run_event_loop run_event_loop].
  unfold init; f_equal; repeat (progress (rewrite <- ?app_assoc; cbn [app]));
    reflexivity.
Qed.

(** Nothing the manager or the sequencer does takes anything away from
    the trace. *)
Lemma extends_refl {L} (w : world L) : extends w w.
Proof. exists []. now rewrite app_nil_r. Qed.

Lemma extends_trans {L} (w1 w2 w3 : world L) :
  extends w1 w2 -> extends w2 w3 -> extends w1 w3.
Proof. intros [d1 E1] [d2 E2]. exists (d1 ++ d2)%list. now rewrite E2, E1, app_assoc. Qed.

Lemma extends_same {L} (w w' : world L) : trace w' = trace w -> extends w w'.
Proof. intros E. exists []. now rewrite app_nil_r. Qed.

Lemma log_extends {L} e (w w' : world L) : extends w w' -> extends w (log e w').
Proof. intros Hw. eapply extends_trans; [exact Hw|]. now exists [e]. Qed.

Lemma post_extends {L} l (w w' : world L) : extends w w' -> extends w (post l w').
Proof. intros Hw. eapply extends_trans; [exact Hw|]. now apply extends_same. Qed.

Lemma set_self_extends {L} f (w w' : world L) :
  extends w w' -> extends w (set_self f w').
Proof. intros Hw. eapply extends_trans; [exact Hw|]. now apply extends_same. Qed.

Lemma set_batch_extends b (w w' : BatchProcessor.world) :
  extends w w' -> extends w (BatchProcessor.set_batch b w').
Proof. intros Hw. eapply extends_trans; [exact Hw|]. now apply extends_same. Qed.

Lemma wait_extends {L} c (w w' v : world L) :
  extends w w' -> wait c w' = Some v -> extends w v.
Proof.
  intros Hw. unfold wait.
  destruct (thread c); intros [= <-]; auto using log_extends, post_extends.
Qed.

Lemma cleanup_extends {L} (w w' : world L) :
  extends w w' -> extends w (_cleanup_worker w').
Proof.
  intros Hw. unfold _cleanup_worker, set_current_worker, stuck_in_wait.
  destruct (current_worker (self w')) as [c|]; [|exact Hw].
  destruct (wait c (log (Qt.quit (task c)) w')) as [v|] eqn:Ev.
  - apply set_self_extends, log_extends.
    eapply wait_extends; [|exact Ev]. now apply log_extends.
  - auto using log_extends.
Qed.

Lemma cancel_extends {L} (w w' : world L) :
  extends w w' -> extends w (cancel_current_operation w').
Proof.
  intros Hw.
  unfold cancel_current_operation, set_is_processing, set_current_worker, stuck_in_wait.
  destruct (current_worker (self w')) as [c|]; [|exact Hw].
  destruct (thread c); try exact Hw.
  match goal with
  | |- context [wait ?c' ?w0] => destruct (wait c' w0) as [v|] eqn:Ev
  end.
  - apply log_extends, set_self_extends, cleanup_extends.
    eapply wait_extends; [|exact Ev].
    auto using set_self_extends, log_extends.
  - auto using set_self_extends, log_extends.
Qed.

Lemma process_image_extends {L} (error_slot : string -> world L -> world L)
    image operation kwargs (w w' : world L) :
  (forall msg v v', extends v v' -> extends v (error_slot msg v')) ->
  extends w w' ->
  extends w (snd (process_image error_slot image operation kwargs w')).
Proof.
  intros Hslot Hw.
  unfold process_image, emit_processing_error, set_is_processing, set_current_worker.
  destruct (is_processing (self w')); [destruct (ImageProcessingWorker.is_real_time _)|];
    try destruct (blocked (cancel_current_operation w'));
    try destruct image; cbn [snd];
    auto 10 using set_self_extends, log_extends, cancel_extends.
Qed.

Lemma on_operation_error_extends msg (w w' : BatchProcessor.world) :
  extends w w' -> extends w (BatchProcessor._on_operation_error msg w').
Proof. intros Hw. unfold BatchProcessor._on_operation_error. now apply log_extends. Qed.

Lemma process_next_extends (w w' : BatchProcessor.world) :
  extends w w' -> extends w (BatchProcessor._process_next_operation w').
Proof.
  intros Hw. unfold BatchProcessor._process_next_operation,
    BatchProcessor.emit_batch_finished.
  destruct (_ !! _).
  - apply process_image_extends; [apply on_operation_error_extends|].
    now apply log_extends.
  - destruct (BatchProcessor.current_image _); [now apply log_extends|exact Hw].
Qed.

Lemma on_operation_finished_extends r (w w' : BatchProcessor.world) :
  extends w w' -> extends w (BatchProcessor._on_operation_finished r w').
Proof.
  intros Hw. unfold BatchProcessor._on_operation_finished.
  now apply process_next_extends, set_batch_extends.
Qed.

Lemma step_trace_grows (w w' : BatchProcessor.world) :
  BatchProcessor.step w = Some w' -> extends w w'.
Proof.
  unfold BatchProcessor.step, step.
  destruct (blocked w); [discriminate|].
  destruct (posted w) as [|s rest] eqn:Hp.
  - destruct (current_worker (self w)) as [c|]; [|discriminate].
    destruct (thread c); try discriminate. intros [= <-].
    apply set_self_extends, post_extends, extends_refl.
  - intros [= <-].
    set (w0 := {| self := self w; listener := listener w;
                  posted := rest; trace := trace w |}).
    assert (extends w w0) as H0 by (now apply extends_same).
    destruct s as [r|msg|n|msg]; cbn [deliver].
    + unfold _on_processing_finished, emit_processing_finished, set_is_processing.
      assert (extends w (BatchProcessor._on_operation_finished r
                           (log (Qt.processing_finished r)
                              (set_self (fun m => {| current_worker := current_worker m;
                                                     operation_queue := operation_queue m;
                                                     is_processing := false |}) w0))))
        as Hslot
        by (apply on_operation_finished_extends, log_extends, set_self_extends, H0).
      destruct (blocked _); [exact Hslot | now apply cleanup_extends].
    + unfold _on_processing_error, emit_processing_error, set_is_processing.
      assert (extends w (BatchProcessor._on_operation_error msg
                           (log (Qt.processing_error msg)
                              (set_self (fun m => {| current_worker := current_worker m;
                                                     operation_queue := operation_queue m;
                                                     is_processing := false |}) w0))))
        as Hslot
        by (apply on_operation_error_extends, log_extends, set_self_extends, H0).
      destruct (blocked _); [exact Hslot | now apply cleanup_extends].
    + now apply log_extends.
    + now apply log_extends.
Qed.

Lemma loop_trace_grows (n : nat) (w : BatchProcessor.world) :
  extends w (BatchProcessor.run_event_loop n w).
Proof.
  revert w. induction n as [|n IH]; intros w; [apply extends_refl|].
  unfold BatchProcessor.run_event_loop in *. cbn [run_event_loop].
  destruct (step BatchProcessor._on_operation_finished
              BatchProcessor._on_operation_error w) as [w'|] eqn:Hs.
  - eapply extends_trans; [apply (step_trace_grows w w' Hs)|apply IH].
  - apply extends_refl.
Qed.

Lemma loop_split (n m : nat) (w : BatchProcessor.world) :
  BatchProcessor.run_event_loop (n + m) w
  = BatchProcessor.run_event_loop m (BatchProcessor.run_event_loop n w).
Proof. unfold BatchProcessor.run_event_loop. apply loop_add. Qed.

Lemma loop_settles (n fuel : nat) (w : BatchProcessor.world) :
  BatchProcessor.step (BatchProcessor.run_event_loop n w) = None ->
  (n <= fuel)%nat ->
  BatchProcessor.run_event_loop fuel w = BatchProcessor.run_event_loop n w.
Proof.
  unfold BatchProcessor.run_event_loop, BatchProcessor.step. apply loop_settled.
Qed.

(** Whatever the trace holds at some time is still at its front at every
    later time. *)
Lemma loop_trace_prefix (n m : nat) (w : BatchProcessor.world) :
  extends (BatchProcessor.run_event_loop n w)
          (BatchProcessor.run_event_loop (n + m) w).
Proof. rewrite loop_split. apply loop_trace_grows. Qed.

(** C3. The sequencer on an empty list emits the input image as the
    batch's result at once, and nothing else happens.  On two steps that
    both succeed, the batch ends with exactly one outcome, the image that
    the second step yields on the image that the first step yields on
    the input; the two workers are started in that order, each on the
    image just described.  When the first step fails, the only
    worker ever started is the first step's, and the batch ends with one
    error that names step 0 and carries the worker's message. *)
Theorem batch_sequencing (image : ndarray) (a b : BatchProcessor.operation) :
  (trace (BatchProcessor.process_batch image [] BatchProcessor.fresh)
   = [Qt.batch_finished image]
   /\ BatchProcessor.step (BatchProcessor.process_batch image [] BatchProcessor.fresh)
      = None)
  /\ (forall ia ib,
        apply_operation image a = Return (Some ia) ->
        apply_operation ia b = Return (Some ib) ->
        forall fuel, (17 <= fuel)%nat ->
        let final :=
          BatchProcessor.run_event_loop fuel
            (BatchProcessor.process_batch image [a; b] BatchProcessor.fresh) in
        List.filter is_batch_outcome (trace final) = [Qt.batch_finished ib]
        /\ List.filter is_start (trace final)
           = [Qt.start (batch_worker image a); Qt.start (batch_worker ia b)]
        /\ BatchProcessor.current_image (listener final) = Some ib
        /\ BatchProcessor.step final = None)
  /\ (failed (apply_operation image a) ->
      (forall fuel,
          List.filter is_start
            (trace (BatchProcessor.run_event_loop fuel
                      (BatchProcessor.process_batch image [a; b] BatchProcessor.fresh)))
          = [Qt.start (batch_worker image a)])
      /\ forall fuel, (7 <= fuel)%nat ->
         let final :=
           BatchProcessor.run_event_loop fuel
             (BatchProcessor.process_batch image [a; b] BatchProcessor.fresh) in
         List.filter is_batch_outcome (trace final)
         = [Qt.batch_error
              ("Batch processing failed at operation 0: "
               +:+ failure_message (BatchProcessor.name a) (apply_operation image a))]
         /\ BatchProcessor.step final = None).
Proof.
  split; [split; reflexivity|]. split.
  - intros ia ib Ha Hb fuel Hfuel final.
    destruct (batch_of_two_settles image a b ia ib Ha Hb) as (n & ca & cb & Hn & Hrun).
    assert (BatchProcessor.step
              (BatchProcessor.run_event_loop n
                 (BatchProcessor.process_batch image [a; b] BatchProcessor.fresh))
            = None) as Hq by (rewrite Hrun; reflexivity).
    subst final. rewrite (loop_settles n fuel _ Hq) by lia. rewrite Hrun.
    cbn [trace listener BatchProcessor.current_image].
    split; [|split; [|split; [reflexivity|reflexivity]]].
    + rewrite !List.filter_app.
      rewrite !(filter_forwarded is_batch_outcome) by now right. reflexivity.
    + rewrite !List.filter_app.
      rewrite !(filter_forwarded is_start) by now left. reflexivity.
  - intros Hfail.
    destruct (batch_aborts_on_failure image a [b] Hfail) as (n & ca & Hn & Hrun).
    assert (BatchProcessor.step
              (BatchProcessor.run_event_loop n
                 (BatchProcessor.process_batch image [a; b] BatchProcessor.fresh))
            = None) as Hq by (rewrite Hrun; reflexivity).
    assert (List.filter is_start
              (trace (BatchProcessor.run_event_loop n
                        (BatchProcessor.process_batch image [a; b] BatchProcessor.fresh)))
            = [Qt.start (batch_worker image a)]) as Hstarts.
    { rewrite Hrun. cbn [trace]. rewrite !List.filter_app.
      rewrite !(filter_forwarded is_start) by now left. reflexivity. }
    split.
    + intros fuel.
      destruct (Nat.le_gt_cases n fuel) as [Hle|Hgt].
      * now rewrite (loop_settles n fuel _ Hq Hle).
      * destruct (loop_trace_grows fuel
                    (BatchProcessor.process_batch image [a; b] BatchProcessor.fresh))
          as [d Hd].
        destruct (loop_trace_prefix fuel (n - fuel)
                    (BatchProcessor.process_batch image [a; b] BatchProcessor.fresh))
          as [d' Hd'].
        replace (fuel + (n - fuel))%nat with n in Hd' by lia.
        rewrite Hd' in Hstarts. rewrite Hd in Hstarts |- *.
        rewrite batch_starts in Hstarts |- *. cbn [trace] in *.
        rewrite !List.filter_app in *. cbn [List.filter is_start app] in *.
        injection Hstarts as Hnil. apply app_eq_nil in Hnil as [-> _]. reflexivity.
    + intros fuel Hfuel final. subst final.
      rewrite (loop_settles n fuel _ Hq) by lia. rewrite Hrun. cbn [trace].
      split; [|reflexivity].
      rewrite !List.filter_app.
      rewrite !(filter_forwarded is_batch_outcome) by now right. reflexivity.
Qed.

End BatchFacts.

Lemma batch_sequencing_witness :
  List.filter is_batch_outcome
    (ThreadManager.trace
       (BatchProcessor.run_event_loop (H := no_collaborators) 17
          (BatchProcessor.process_batch (H := no_collaborators) gray_2x3
             [flip_step; crop_step] BatchProcessor.fresh)))
  = [Qt.batch_finished (Gray [[20; 10]; [50; 40]])]
  /\ List.filter is_start
       (ThreadManager.trace
          (BatchProcessor.run_event_loop (H := no_collaborators) 7
             (BatchProcessor.process_batch (H := no_collaborators) gray_2x3
                [unknown_step; crop_step] BatchProcessor.fresh)))
     = [Qt.start (batch_worker gray_2x3 unknown_step)].
Proof.
  split.
  - destruct (batch_sequencing (H := no_collaborators) gray_2x3 flip_step crop_step)
      as (_ & Hok & _).
    apply (Hok (Gray [[30; 20; 10]; [60; 50; 40]]) (Gray [[20; 10]; [50; 40]])
             eq_refl eq_refl 17%nat (le_n 17)).
  - destruct (batch_sequencing (H := no_collaborators) gray_2x3 unknown_step crop_step)
      as (_ & _ & Hfail).
    apply (Hfail I).
Defined.

(** * Missing and out-of-range parameters *)

Section Parameters.
Context `{Collaborators}.

Lemma kwargs_get_default (image : ndarray) (kwargs : Kwargs) (key : string) (d : value) :
  default_kwargs image !! key = Some d ->
  kwargs_get (kwargs ∪ default_kwargs image) key d = kwargs_get kwargs key d.
Proof.
  intros Hd. unfold kwargs_get. rewrite lookup_union, Hd.
  destruct (kwargs !! key) as [v|]; reflexivity.
Qed.

Lemma execute_with_defaults (t : ImageProcessingWorker.t) :
  ImageProcessingWorker._execute_operation (with_defaults t)
  = ImageProcessingWorker._execute_operation t.
Proof.
  destruct t as [image operation kwargs].
  unfold ImageProcessingWorker._execute_operation, with_defaults.
  cbn [ImageProcessingWorker.image ImageProcessingWorker.operation
       ImageProcessingWorker.kwargs].
  rewrite !(kwargs_get_default image kwargs) by reflexivity.
  reflexivity.
Qed.

(** Called with four integers, [crop_image] as Python runs it is
    [crop_image] on integers. *)
Lemma crop_image_on_integers (image : ndarray) (x y width height : Z) :
  ImageProcessor.crop_image_values image (VInt x) (VInt y) (VInt width) (VInt height)
  = Return (ImageProcessor.crop_image image x y width height).
Proof.
  unfold ImageProcessor.crop_image_values, ImageProcessor.crop_image,
    builtin_min, builtin_max, py_lt, py_sub, py_add.
  cbn [as_number mbind result_bind as_index].
  repeat (match goal with
          | |- context [?a <? ?b] => destruct (Z.ltb_spec a b)
          end; cbn [as_number mbind result_bind as_index]).
  all: destruct image; do 2 f_equal; f_equal; lia.
Qed.

(** A crop request with four integers never fails, wherever they lie. *)
Lemma crop_request_returns (image : ndarray) (x y width height : Z) :
  snd (ImageProcessingWorker._execute_operation (crop_request image x y width height))
  = Return (Some (ImageProcessor.crop_image image x y width height)).
Proof.
  change (snd (ImageProcessingWorker._execute_operation
                 (crop_request image x y width height)))
    with (img ← ImageProcessor.crop_image_values image
                  (VInt x) (VInt y) (VInt width) (VInt height);
          Return (Some img)).
  now rewrite crop_image_on_integers.
Qed.

Lemma sharpen_unknown_method (image : ndarray) (method strength : value) :
  eq_str method "laplacian" = false ->
  eq_str method "unsharp_mask" = false ->
  ImageProcessor.sharpen_image image method strength = Return image.
Proof. intros H1 H2. unfold ImageProcessor.sharpen_image. now rewrite H1, H2. Qed.

(** C5 (as amended). A request in which a named parameter is missing runs
    exactly as if the parameter had been given its default value; a crop
    request with any four integers returns an image (the rectangle is
    clamped, not rejected); sharpening with a method that is neither
    "laplacian" nor "unsharp_mask" returns the input image unchanged. *)
Theorem parameters_default_and_clamp (t : ImageProcessingWorker.t) :
  ImageProcessingWorker._execute_operation t
  = ImageProcessingWorker._execute_operation (with_defaults t)
  /\ (forall image x y width height,
        snd (ImageProcessingWorker._execute_operation
               (crop_request image x y width height))
        = Return (Some (ImageProcessor.crop_image image x y width height)))
  /\ (forall image method strength,
        eq_str method "laplacian" = false ->
        eq_str method "unsharp_mask" = false ->
        ImageProcessor.sharpen_image image method strength = Return image).
Proof.
  split; [symmetry; apply execute_with_defaults|].
  split; [apply crop_request_returns|apply sharpen_unknown_method].
Qed.

End Parameters.

Lemma parameters_default_and_clamp_witness :
  ImageProcessor.sharpen_image (H := no_collaborators) gray_2x3 (VStr "edge") (VInt 3)
  = Return gray_2x3.
Proof.
  destruct (parameters_default_and_clamp (H := no_collaborators)
              (ImageProcessingWorker.Build gray_2x3 "flip" ∅)) as (_ & _ & Hsharpen).
  apply Hsharpen; reflexivity.
Defined.

(** C5 fails: with every parameter missing, crop and flip return an image,
    and a crop whose rectangle lies outside the image returns an image. *)
Lemma missing_parameter_is_not_an_error :
  snd (ImageProcessingWorker._execute_operation (H := no_collaborators)
         (ImageProcessingWorker.Build gray_2x3 "crop" ∅))
  = Return (Some gray_2x3)
  /\ snd (ImageProcessingWorker._execute_operation (H := no_collaborators)
            (ImageProcessingWorker.Build gray_2x3 "flip" ∅))
     = Return (Some (Gray [[30; 20; 10]; [60; 50; 40]]))
  /\ snd (ImageProcessingWorker._execute_operation (H := no_collaborators)
            (crop_request gray_2x3 (-7) 1 1000 1000))
     = Return (Some (Gray [[40; 50; 60]])).
Proof. repeat split. Qed.

(** * Further properties of the operation catalog *)

Section CropRegion.

Lemma slice_in_range {A} (l : list A) (a n : Z) :
  0 <= a -> 0 <= n -> a + n <= Z.of_nat (length l) ->
  Py.slice l a (a + n) = take (Z.to_nat n) (drop (Z.to_nat a) l).
Proof.
  intros Ha Hn Hlen. unfold Py.slice, Py.slice_index.
  destruct (a <? 0) eqn:E1; [lia|]. destruct (a + n <? 0) eqn:E2; [lia|].
  f_equal; [lia|]. f_equal. lia.
Qed.

Lemma grid_slice_lookup {A} (g : list (list A)) (x y w h : Z) (i j : nat) :
  rect (grid_width g) g ->
  0 <= x -> 0 <= y -> 0 <= w -> 0 <= h ->
  x + w <= Z.of_nat (grid_width g) -> y + h <= Z.of_nat (grid_height g) ->
  Z.of_nat i < h -> Z.of_nat j < w ->
  grid_slice g y (y + h) x (x + w) !! i ≫= (fun r : list A => r !! j)
  = g !! (Z.to_nat y + i)%nat ≫= (fun r : list A => r !! (Z.to_nat x + j)%nat).
Proof.
  intros Hrect Hx Hy Hw Hh Hxw Hyh Hi Hj. unfold grid_slice, grid_height in *.
  rewrite slice_in_range by lia.
  change (map ?f ?l) with (f <$> l). rewrite list_lookup_fmap.
  rewrite lookup_take_lt by lia. rewrite lookup_drop.
  destruct (g !! (Z.to_nat y + i)%nat) as [r|] eqn:Er; [|reflexivity].
  cbn [fmap option_fmap option_map mbind option_bind].
  assert (length r = grid_width g) as Hr.
  { unfold rect in Hrect. rewrite Forall_forall in Hrect.
    apply Hrect. eapply list_elem_of_lookup_2, Er. }
  rewrite slice_in_range by lia.
  rewrite lookup_take_lt by lia. now rewrite lookup_drop.
Qed.

Lemma grid_slice_dimensions {A} (g : list (list A)) (x y w h : Z) :
  rect (grid_width g) g ->
  0 <= x -> 0 <= y -> 0 <= w -> 0 < h ->
  x + w <= Z.of_nat (grid_width g) -> y + h <= Z.of_nat (grid_height g) ->
  Z.of_nat (grid_width (grid_slice g y (y + h) x (x + w))) = w
  /\ Z.of_nat (grid_height (grid_slice g y (y + h) x (x + w))) = h.
Proof.
  intros Hrect Hx Hy Hw Hh Hxw Hyh. unfold grid_slice, grid_height in *.
  pose proof (Forall_slice _ g y (y + h) Hrect) as Hrows.
  pose proof (length_slice g y (y + h)) as Hlen.
  unfold Py.slice_index in Hlen.
  destruct (y <? 0) eqn:E1; [lia|]. destruct (y + h <? 0) eqn:E2; [lia|].
  split; [|rewrite length_map; lia].
  destruct (Py.slice g y (y + h)) as [|r rows]; [cbn in Hlen; lia|].
  cbn [map grid_width]. inversion Hrows as [|? ? Hr _]; subst.
  rewrite length_slice. unfold Py.slice_index.
  destruct (x <? 0) eqn:E3; [lia|]. destruct (x + w <? 0) eqn:E4; lia.
Qed.

(** X1. A rectangle that lies inside the image is cut out exactly: the
    result has the requested width and height, and its pixel at (i, j) is the
    source's pixel at (y + i, x + j). *)
Theorem crop_returns_the_rectangle (image : ndarray) (x y width height : Z) :
  rectangular image ->
  0 <= x -> 0 <= y -> 0 < width -> 0 < height ->
  x + width <= Z.of_nat (img_width image) ->
  y + height <= Z.of_nat (img_height image) ->
  let cropped := ImageProcessor.crop_image image x y width height in
  Z.of_nat (img_width cropped) = width
  /\ Z.of_nat (img_height cropped) = height
  /\ forall i j : nat,
       Z.of_nat i < height -> Z.of_nat j < width ->
       pixel cropped i j = pixel image (Z.to_nat y + i) (Z.to_nat x + j).
Proof.
  intros Hrect Hx Hy Hw Hh Hxw Hyh. unfold ImageProcessor.crop_image.
  destruct image as [g|g]; destruct Hrect as [Hr _]; cbn [img_width img_height] in *;
    replace (Z.max 0 (Z.min x (Z.of_nat (grid_width g)))) with x by lia;
    replace (Z.max 0 (Z.min y (Z.of_nat (grid_height g)))) with y by lia;
    replace (Z.min width (Z.of_nat (grid_width g) - x)) with width by lia;
    replace (Z.min height (Z.of_nat (grid_height g) - y)) with height by lia;
    cbn zeta; cbn [img_width img_height pixel];
    (destruct (grid_slice_dimensions g x y width height) as [Dw Dh]; try lia;
     [exact Hr|]);
    (split; [exact Dw|]); (split; [exact Dh|]);
    intros i j Hi Hj;
    rewrite (grid_slice_lookup g x y width height i j) by (auto; lia);
    reflexivity.
Qed.

End CropRegion.

Lemma crop_returns_the_rectangle_witness :
  pixel (ImageProcessor.crop_image gray_2x3 1 0 2 2) 1 1 = Some [60].
Proof.
  destruct (crop_returns_the_rectangle gray_2x3 1 0 2 2) as (_ & _ & Hpix).
  - cbn. split; [repeat constructor | lia].
  - lia.
  - lia.
  - lia.
  - lia.
  - cbn. lia.
  - cbn. lia.
  - rewrite (Hpix 1%nat 1%nat) by lia. reflexivity.
Defined.

Section CatalogMore.
Context `{Collaborators}.

Lemma slice_whole {A} (l : list A) : Py.slice l 0 (0 + Z.of_nat (length l)) = l.
Proof.
  rewrite slice_in_range by lia. cbn [Z.to_nat drop].
  rewrite Nat2Z.id. apply firstn_all.
Qed.

Lemma crop_whole (image : ndarray) :
  rows_aligned image ->
  ImageProcessor.crop_image image 0 0
    (Z.of_nat (img_width image)) (Z.of_nat (img_height image)) = image.
Proof.
  intros Hrect. unfold ImageProcessor.crop_image.
  destruct image as [g|g]; cbn [img_width img_height rows_aligned] in *;
    replace (Z.max 0 (Z.min 0 (Z.of_nat (grid_width g)))) with 0 by lia;
    replace (Z.max 0 (Z.min 0 (Z.of_nat (grid_height g)))) with 0 by lia;
    replace (Z.min (Z.of_nat (grid_width g)) (Z.of_nat (grid_width g) - 0))
      with (Z.of_nat (grid_width g)) by lia;
    replace (Z.min (Z.of_nat (grid_height g)) (Z.of_nat (grid_height g) - 0))
      with (Z.of_nat (grid_height g)) by lia;
    f_equal; unfold grid_slice, grid_height; rewrite slice_whole;
    apply (map_id_on _ (fun r => length r = grid_width g)); try exact Hrect;
    intros r <-; apply slice_whole.
Qed.

(** X2. A crop request that names no parameter returns the image as it
    is. *)
Theorem crop_without_parameters_is_identity (image : ndarray) :
  rows_aligned image ->
  snd (ImageProcessingWorker._execute_operation
         (ImageProcessingWorker.Build image "crop" ∅))
  = Return (Some image).
Proof.
  intros Hrect.
  change (snd (ImageProcessingWorker._execute_operation
                 (ImageProcessingWorker.Build image "crop" ∅)))
    with (img ← ImageProcessor.crop_image_values image (VInt 0) (VInt 0)
                  (VInt (Z.of_nat (img_width image)))
                  (VInt (Z.of_nat (img_height image)));
          Return (Some img)).
  now rewrite crop_image_on_integers, crop_whole.
Qed.

(** X4. Inverting twice gives back an 8-bit image. *)
Theorem invert_twice (image : ndarray) :
  is_uint8 image ->
  (inverted ← ImageProcessor.apply_filter image (VFilter INVERT);
   ImageProcessor.apply_filter inverted (VFilter INVERT))
  = Return image.
Proof.
  intros Hbytes. cbn [ImageProcessor.apply_filter mbind result_bind]. f_equal.
  assert (forall v, byte_range v -> (255 - (255 - v) mod 256) mod 256 = v) as Hinv.
  { intros v [Hlo Hhi]. rewrite (Z.mod_small (255 - v)) by lia.
    rewrite Z.mod_small; lia. }
  destruct image as [g|g]; cbn [array_map]; f_equal; rewrite !map_map.
  - apply (map_id_on _ (Forall byte_range)); [|exact Hbytes].
    intros r Hr. rewrite !map_map. now apply (map_id_on _ byte_range).
  - apply (map_id_on _ (Forall (Forall byte_range))); [|exact Hbytes].
    intros r Hr. rewrite !map_map.
    apply (map_id_on _ (Forall byte_range)); [|exact Hr].
    intros p Hp. rewrite !map_map. now apply (map_id_on _ byte_range).
Qed.

End CatalogMore.

Lemma crop_without_parameters_is_identity_witness :
  snd (ImageProcessingWorker._execute_operation (H := no_collaborators)
         (ImageProcessingWorker.Build gray_2x3 "crop" ∅))
  = Return (Some gray_2x3).
Proof.
  apply (crop_without_parameters_is_identity (H := no_collaborators) gray_2x3).
  cbn. repeat constructor.
Defined.

Lemma invert_twice_witness :
  (inverted ← ImageProcessor.apply_filter (H := no_collaborators) gray_2x3 (VFilter INVERT);
   ImageProcessor.apply_filter (H := no_collaborators) inverted (VFilter INVERT))
  = Return gray_2x3.
Proof.
  apply (invert_twice (H := no_collaborators) gray_2x3).
  unfold gray_2x3, is_uint8, byte_range. repeat constructor; lia.
Defined.

Section TurnsCompose.
Context {A : Type}.
Implicit Types g : list (list A).

Lemma flips_commute g : grid_flip_h (grid_flip_v g) = grid_flip_v (grid_flip_h g).
Proof. unfold grid_flip_h, grid_flip_v. apply map_rev. Qed.

Lemma two_quarter_turns g :
  rect (grid_width g) g -> (0 < grid_width g)%nat ->
  cv2.rotate_grid (cv2.rotate_grid g cv2.ROTATE_90_CLOCKWISE) cv2.ROTATE_90_CLOCKWISE
  = cv2.rotate_grid g cv2.ROTATE_180.
Proof.
  intros Hrect Hw. cbn [cv2.rotate_grid].
  rewrite transpose_flip_h by now apply rect_transpose_width.
  rewrite transpose_involutive by assumption.
  apply flips_commute.
Qed.

Lemma half_turn_rectangular g :
  rect (grid_width g) g -> (0 < grid_width g)%nat ->
  rect (grid_width (cv2.rotate_grid g cv2.ROTATE_180)) (cv2.rotate_grid g cv2.ROTATE_180)
  /\ (0 < grid_width (cv2.rotate_grid g cv2.ROTATE_180))%nat.
Proof.
  intros Hrect Hw. cbn [cv2.rotate_grid].
  assert (grid_width (grid_flip_v (grid_flip_h g)) = grid_width g) as E.
  { rewrite (grid_width_flip_v _ (grid_width g)) by now apply rect_flip_h.
    apply grid_width_flip_h. }
  rewrite E. split; [|exact Hw]. now apply rect_flip_v, rect_flip_h.
Qed.

End TurnsCompose.

Section CatalogNumbers.
Context `{Collaborators}.

(** X5. On an image with at least one pixel, two rotations by 90 degrees
    are a rotation by 180, and four give back the image. *)
Theorem quarter_turns_compose (image : ndarray) :
  rectangular image ->
  (once ← ImageProcessor.rotate_image image (VInt 90);
   ImageProcessor.rotate_image once (VInt 90))
  = ImageProcessor.rotate_image image (VInt 180)
  /\ (once ← ImageProcessor.rotate_image image (VInt 90);
      twice ← ImageProcessor.rotate_image once (VInt 90);
      thrice ← ImageProcessor.rotate_image twice (VInt 90);
      ImageProcessor.rotate_image thrice (VInt 90))
     = Return image.
Proof.
  intros Hrect. rewrite rotate_image_180.
  destruct image as [g|g]; destruct Hrect as [Hr Hw];
    destruct (half_turn_rectangular g Hr Hw) as [Hr2 Hw2];
    repeat (first [rewrite rotate_image_90 | progress cbn [mbind result_bind cv2.rotate]]);
    rewrite (two_quarter_turns g Hr Hw), ?(two_quarter_turns _ Hr2 Hw2),
      ?rotate_half_turn_twice; split; reflexivity.
Qed.

(** ** Brightness *)

Lemma brightness_shift_check :
  forall_from (fun b => forall_from (fun v =>
      adjust_channel (F32.of_float F64.one) (F32.of_Z b) v =? shifted v b) 256 0)
    201 (-100) = true.
Proof. vm_cast_no_check (eq_refl true). Qed.

Lemma brightness_shift_channel (b v : Z) :
  brightness_in_range b -> byte_range v ->
  adjust_channel (F32.of_float F64.one) (F32.of_Z b) v = shifted v b.
Proof.
  intros Hb Hv. unfold brightness_in_range, byte_range in *.
  pose proof (forall_from_spec _ _ _ b brightness_shift_check ltac:(lia)) as Hrow.
  cbv beta in Hrow.
  pose proof (forall_from_spec _ _ _ v Hrow ltac:(lia)) as Hcell.
  now apply Z.eqb_eq.
Qed.

Lemma map_ext_on {X Y} (f k : X -> Y) (P : X -> Prop) (l : list X) :
  (forall a, P a -> f a = k a) -> Forall P l -> map f l = map k l.
Proof.
  intros Hf Hl. induction Hl as [|a l Ha _ IH]; cbn [map]; [reflexivity|].
  now rewrite Hf, IH.
Qed.

(** X7. With contrast 1.0 and a brightness within the slider's range, every
    channel of an 8-bit image is shifted by the brightness and saturates at
    0 and 255. *)
Theorem brightness_shifts_and_saturates (image : ndarray) (brightness : Z) :
  is_uint8 image -> brightness_in_range brightness ->
  ImageProcessor.adjust_brightness_contrast image (VInt brightness) (VFloat F64.one)
  = Return (array_map (fun v => shifted v brightness) image).
Proof.
  intros Hbytes Hb.
  unfold ImageProcessor.adjust_brightness_contrast.
  cbn [as_float32 mbind result_bind]. f_equal.
  destruct image as [g|g]; cbn [array_map]; f_equal; rewrite !map_map.
  - apply (map_ext_on _ _ (Forall byte_range)); [|exact Hbytes].
    intros r Hr. rewrite !map_map.
    apply (map_ext_on _ _ byte_range); [|exact Hr].
    intros v Hv. apply (brightness_shift_channel brightness v Hb Hv).
  - apply (map_ext_on _ _ (Forall (Forall byte_range))); [|exact Hbytes].
    intros r Hr. rewrite !map_map.
    apply (map_ext_on _ _ (Forall byte_range)); [|exact Hr].
    intros p Hp. rewrite !map_map.
    apply (map_ext_on _ _ byte_range); [|exact Hp].
    intros v Hv. apply (brightness_shift_channel brightness v Hb Hv).
Qed.

(** ** Noise of no known kind *)

Lemma through_float32_check :
  forall_from (fun v => through_float32 v =? v) 256 0 = true.
Proof. vm_cast_no_check (eq_refl true). Qed.

Lemma through_float32_identity (v : Z) : byte_range v -> through_float32 v = v.
Proof.
  intros Hv. unfold byte_range in Hv.
  apply Z.eqb_eq, (forall_from_spec _ _ _ v through_float32_check). lia.
Qed.

(** X8. When the noise type is not a member of [NoiseType], [add_noise]
    returns an 8-bit colour image unchanged, whatever the intensity. *)
Theorem add_noise_of_no_kind (rows : list (list (list Z))) (noise_type intensity : value) :
  is_uint8 (Color rows) -> not_a_noise_type noise_type ->
  ImageProcessor.add_noise (Color rows) noise_type intensity = Return (Color rows).
Proof.
  intros Hbytes Hkind. unfold ImageProcessor.add_noise. cbn [shape].
  destruct noise_type as [z|f|b|s|n|f]; try contradiction;
    cbn [mbind result_bind]; f_equal; f_equal; rewrite !map_map;
    apply (map_id_on _ (Forall (Forall byte_range))); try exact Hbytes;
    intros r Hr; rewrite !map_map;
    apply (map_id_on _ (Forall byte_range)); try exact Hr;
    intros p Hp; rewrite !map_map;
    apply (map_id_on _ byte_range); try exact Hp;
    intros v Hv; apply (through_float32_identity v Hv).
Qed.

(** ** Resizing to no height *)

(** X9. Resizing with the aspect ratio kept and a requested height of 0
    fails with a division by zero, before the vision library is asked for
    anything. *)
Theorem resize_zero_height (image : ndarray) (width : Z) :
  exists msg,
    ImageProcessor.resize_image image (VInt width) (VInt 0) (VBool true)
    = Raise (Exc ZeroDivisionError msg).
Proof.
  unfold ImageProcessor.resize_image. cbn [truthy].
  destruct (py_truediv (VInt (Z.of_nat (img_width image)))
              (VInt (Z.of_nat (img_height image)))) as [ratio|e] eqn:E.
  - cbn [mbind result_bind]. eexists. reflexivity.
  - cbn [mbind result_bind]. unfold py_truediv in E. cbn [as_number] in E.
    destruct (Z.of_nat (img_height image) =? 0); [|discriminate].
    injection E as <-. eexists. reflexivity.
Qed.

End CatalogNumbers.

Lemma quarter_turns_compose_witness :
  (once ← ImageProcessor.rotate_image (H := no_collaborators) gray_2x3 (VInt 90);
   ImageProcessor.rotate_image (H := no_collaborators) once (VInt 90))
  = ImageProcessor.rotate_image (H := no_collaborators) gray_2x3 (VInt 180).
Proof.
  apply (quarter_turns_compose (H := no_collaborators) gray_2x3).
  cbn. split; [repeat constructor | lia].
Defined.

Lemma brightness_shifts_and_saturates_witness :
  ImageProcessor.adjust_brightness_contrast gray_2x3 (VInt 30) (VFloat F64.one)
  = Return (Gray [[40; 50; 60]; [70; 80; 90]]).
Proof.
  apply (brightness_shifts_and_saturates gray_2x3 30).
  - unfold gray_2x3, is_uint8, byte_range. repeat constructor; lia.
  - unfold brightness_in_range. lia.
Defined.

Lemma add_noise_of_no_kind_witness :
  ImageProcessor.add_noise (H := no_collaborators)
    (Color [[[1; 2; 3]; [4; 5; 6]]]) (VStr "gaussian") (VInt 1)
  = Return (Color [[[1; 2; 3]; [4; 5; 6]]]).
Proof.
  apply (add_noise_of_no_kind (H := no_collaborators)).
  - unfold is_uint8, byte_range. repeat constructor; lia.
  - exact I.
Defined.

(** * Further properties of the worker *)

Section WorkerMore.
Context `{Collaborators}.
Import ImageProcessingWorker.

(** X11. A brightness/contrast request, the one real-time operation, makes
    the worker emit exactly one signal, its result or its error, and no
    progress or status. *)
Theorem real_time_run_is_silent (image : ndarray) (kwargs : Kwargs) :
  run (Build image "brightness_contrast" kwargs)
  = match ImageProcessor.adjust_brightness_contrast image
            (kwargs_get kwargs "brightness" (VInt 0))
            (kwargs_get kwargs "contrast" (VFloat F64.one)) with
    | Return result => [finished result]
    | Raise e => [error ("Error in brightness_contrast: " +:+ exc_str e)]
    end.
Proof.
  unfold run, _execute_operation.
  cbn [operation ImageProcessingWorker.image ImageProcessingWorker.kwargs
       is_real_time real_time_operations
       existsb String.eqb Ascii.eqb Bool.eqb orb app].
  destruct (ImageProcessor.adjust_brightness_contrast _ _ _); reflexivity.
Qed.

(** X12. For an operation that is not real-time the worker reports, in this
    order: "Starting", 10, 30, then either 90, "Finalizing", 100, "completed"
    and the result, or, when the operation raises, the error alone. *)
Theorem run_milestones (t : ImageProcessingWorker.t) :
  is_real_time (operation t) = false ->
  (forall result,
      snd (_execute_operation t) = Return (Some result) ->
      run t = [status_update ("Starting " +:+ operation t +:+ "...");
               progress 10; progress 30; progress 90;
               status_update ("Finalizing " +:+ operation t +:+ "...");
               progress 100;
               status_update (operation t +:+ " completed successfully");
               finished result])
  /\ (forall e,
        snd (_execute_operation t) = Raise e ->
        run t = [status_update ("Starting " +:+ operation t +:+ "...");
                 progress 10; progress 30;
                 error ("Error in " +:+ operation t +:+ ": " +:+ exc_str e)]).
Proof.
  intros Hrt.
  assert (fst (_execute_operation t) = [progress 30]) as Hem
    by (unfold _execute_operation; cbn [fst]; now rewrite Hrt).
  unfold run. rewrite Hrt.
  destruct (_execute_operation t) as [emitted outcome]. cbn [fst snd] in *. subst emitted.
  split; intros x ->; reflexivity.
Qed.

Lemma eqb_of_not_in (s : string) (l : list string) (name : string) :
  ~ In s l -> In name l -> String.eqb s name = false.
Proof.
  intros Hnot Hin. apply String.eqb_neq. intros ->. contradiction.
Qed.

(** X13. A name outside the catalog makes the operation raise "Unknown
    operation: <name>", and the worker reports it as "Error in <name>:
    Unknown operation: <name>" after the first two milestones. *)
Theorem unknown_operation_is_reported (image : ndarray) (name : string) (kwargs : Kwargs) :
  ~ In name catalog ->
  snd (_execute_operation (Build image name kwargs))
  = Raise (Exc ValueError ("Unknown operation: " +:+ name))
  /\ run (Build image name kwargs)
     = [status_update ("Starting " +:+ name +:+ "...");
        progress 10; progress 30;
        error ("Error in " +:+ name +:+ ": " +:+ "Unknown operation: " +:+ name)].
Proof.
  intros Hnot.
  assert (snd (_execute_operation (Build image name kwargs))
          = Raise (Exc ValueError ("Unknown operation: " +:+ name))) as Hout.
  { unfold _execute_operation.
    cbn [snd operation ImageProcessingWorker.image ImageProcessingWorker.kwargs].
    rewrite !(eqb_of_not_in name catalog) by (try exact Hnot; unfold catalog; cbn; tauto).
    reflexivity. }
  split; [exact Hout|].
  assert (is_real_time name = false) as Hrt.
  { unfold is_real_time, real_time_operations. cbn [existsb].
    rewrite (eqb_of_not_in name catalog) by (try exact Hnot; unfold catalog; cbn; tauto).
    reflexivity. }
  destruct (run_milestones (Build image name kwargs) Hrt) as [_ Hfail].
  apply (Hfail _ Hout).
Qed.

End WorkerMore.

Lemma run_milestones_witness :
  ImageProcessingWorker.run (H := no_collaborators)
    (ImageProcessingWorker.Build gray_2x3 "flip" ∅)
  = [ImageProcessingWorker.status_update "Starting flip...";
     ImageProcessingWorker.progress 10; ImageProcessingWorker.progress 30;
     ImageProcessingWorker.progress 90;
     ImageProcessingWorker.status_update "Finalizing flip...";
     ImageProcessingWorker.progress 100;
     ImageProcessingWorker.status_update "flip completed successfully";
     ImageProcessingWorker.finished (Gray [[30; 20; 10]; [60; 50; 40]])].
Proof.
  destruct (run_milestones (H := no_collaborators)
              (ImageProcessingWorker.Build gray_2x3 "flip" ∅) eq_refl) as [Hok _].
  apply (Hok (Gray [[30; 20; 10]; [60; 50; 40]]) eq_refl).
Defined.

Lemma unknown_operation_is_reported_witness :
  snd (ImageProcessingWorker._execute_operation (H := no_collaborators)
         (ImageProcessingWorker.Build gray_2x3 "posterize" ∅))
  = Raise (Exc ValueError "Unknown operation: posterize").
Proof.
  apply (unknown_operation_is_reported (H := no_collaborators) gray_2x3 "posterize" ∅).
  unfold catalog. cbn. intros Hin.
  repeat (destruct Hin as [Hin|Hin]; [discriminate Hin|]). exact Hin.
Defined.

(** * Further properties of the task dispatcher *)

Section DispatcherMore.
Context `{Collaborators}.
Import ThreadManager.

(** X14. Submitting to an idle manager is accepted; when the operation
    yields an image, the manager emits that image once, after the worker's
    progress, and is idle again with no worker held. *)
Theorem success_is_delivered_and_manager_idle
    (w : world unit) (image : ndarray) (operation : string) (kwargs : Kwargs)
    (result : ndarray) :
  is_processing (self w) = false ->
  posted w = [] ->
  let worker := ImageProcessingWorker.Build image operation kwargs in
  snd (ImageProcessingWorker._execute_operation worker) = Return (Some result) ->
  forall fuel, (10 <= fuel)%nat ->
  let after :=
    run_alone fuel (snd (process_image no_slot (Some image) operation kwargs w)) in
  fst (process_image no_slot (Some image) operation kwargs w) = Some true
  /\ (exists chatter,
        forallb is_chatter chatter = true
        /\ trace after
           = (trace w ++ [Qt.start worker] ++ flat_map forwarded chatter
              ++ [Qt.processing_finished result;
                  Qt.quit worker; Qt.wait worker; Qt.deleteLater worker])%list)
  /\ is_processing (self after) = false
  /\ current_worker (self after) = None
  /\ posted after = [].
Proof.
  destruct w as [[cw oq ip] l q tr].
  intros Hidle Hposted worker Hout fuel Hfuel after.
  cbn [self is_processing posted] in Hidle, Hposted. subst ip q.
  cbn [self is_processing posted trace operation_queue] in *.
  split; [reflexivity|].
  destruct (run_success worker result Hout) as (chatter & Hrun & Hchat & Hlen).
  set (settled :=
         {| self := {| current_worker := None; operation_queue := oq;
                       is_processing := false |};
            listener := l;
            posted := [];
            trace := (tr ++ [Qt.start worker] ++ flat_map forwarded chatter
                      ++ [Qt.processing_finished result;
                          Qt.quit worker; Qt.wait worker; Qt.deleteLater worker])%list |}).
  assert (run_alone (S (length chatter + 1))
            (snd (process_image no_slot (Some image) operation kwargs
                    {| self := {| current_worker := cw; operation_queue := oq;
                                  is_processing := false |};
                       listener := l; posted := []; trace := tr |}))
          = settled) as Hsettled.
  { unfold run_alone.
    cbv [process_image snd log set_is_processing set_current_worker set_self
         self listener posted trace current_worker thread task is_processing
         operation_queue
       blocked wedged stuck_in_wait].
    fold worker.
    cbn [run_event_loop].
    cbv [step post set_current_worker set_self
         self listener posted trace current_worker thread task is_processing
         operation_queue
       blocked wedged stuck_in_wait].
    rewrite Hrun. cbn [app].
    rewrite loop_add, loop_chatter by first [exact Hchat | reflexivity].
    cbn [run_event_loop].
    cbv [step deliver _on_processing_finished emit_processing_finished no_slot
         _cleanup_worker wait log set_is_processing set_current_worker set_self
         self listener posted trace current_worker thread task is_processing
         operation_queue
       blocked wedged stuck_in_wait].
    subst settled. f_equal. rewrite <- !app_assoc. reflexivity. }
  assert (after = settled) as ->.
  { subst after. unfold run_alone in *.
    rewrite (loop_settled no_slot no_slot (S (length chatter + 1))); [exact Hsettled| |lia].
    rewrite Hsettled. reflexivity. }
  split; [exists chatter; split; [exact Hchat|reflexivity]|].
  do 2 (split; [reflexivity|]). reflexivity.
Qed.

(** Cancelling a running worker, when its killed thread lets go. *)
Lemma cancel_returns {L : Type} (w : world L) (c : worker_thread) :
  current_worker (self w) = Some c ->
  thread c = Qt.Running ->
  thread (terminate c) = Qt.Finished ->
  cancel_current_operation w
  = {| self := {| current_worker := None;
                  operation_queue := operation_queue (self w);
                  is_processing := false |};
       listener := listener w;
       posted := posted w;
       trace := (trace w ++
                 [Qt.terminate (task c); Qt.wait (task c);
                  Qt.quit (task c); Qt.wait (task c); Qt.deleteLater (task c);
                  Qt.processing_status "Operation cancelled"])%list |}.
Proof.
  destruct w as [[cw oq ip] l q tr]. destruct c as [tk th].
  cbn [self current_worker thread posted]. intros -> -> Hrel.
  unfold terminate in Hrel. cbn [task thread] in Hrel.
  unfold cancel_current_operation. cbn [self current_worker thread].
  unfold terminate. cbn [task].
  destruct (Qt_terminate_releases _ _ _); [|discriminate Hrel].
  cbv [_cleanup_worker wait log set_current_worker set_is_processing set_self post
       blocked wedged stuck_in_wait
       self listener posted trace current_worker thread task is_processing
       operation_queue].
  rewrite <- !app_assoc. reflexivity.
Qed.

(** Cancelling a running worker, when its killed thread does not let go:
    the manager is left inside [wait()]. *)
Lemma cancel_blocks {L : Type} (w : world L) (c : worker_thread) :
  current_worker (self w) = Some c ->
  thread c = Qt.Running ->
  thread (terminate c) = Qt.Terminated ->
  cancel_current_operation w
  = {| self := {| current_worker := Some {| task := task c; thread := Qt.Terminated |};
                  operation_queue := operation_queue (self w);
                  is_processing := is_processing (self w) |};
       listener := listener w;
       posted := posted w;
       trace := (trace w ++ [Qt.terminate (task c); Qt.wait (task c)])%list |}.
Proof.
  destruct w as [[cw oq ip] l q tr]. destruct c as [tk th].
  cbn [self current_worker thread posted]. intros -> -> Hrel.
  unfold terminate in Hrel. cbn [task thread] in Hrel.
  unfold cancel_current_operation. cbn [self current_worker thread].
  unfold terminate. cbn [task].
  destruct (Qt_terminate_releases _ _ _); [discriminate Hrel|].
  cbv [_cleanup_worker wait log set_current_worker set_is_processing set_self post
       blocked wedged stuck_in_wait
       self listener posted trace current_worker thread task is_processing
       operation_queue].
  rewrite <- !app_assoc. reflexivity.
Qed.

(** X15. Cancelling while a worker runs kills it, and the rest is the
    runtime's.  When the killed thread lets go, the manager waits for it,
    cleans it up, marks itself idle and emits "Operation cancelled"; the
    worker posts nothing, so with nothing posted before, nothing is ever
    delivered from the cancelled operation, and the next submission is
    accepted.  When it does not, the manager never comes back from
    [wait()]: the busy flag stays as it was, no "Operation cancelled" is
    emitted, and nothing happens any more however long the system runs. *)
Theorem cancel_running_worker {L : Type}
    (error_slot : string -> world L -> world L) (w : world L) (c : worker_thread) :
  current_worker (self w) = Some c ->
  thread c = Qt.Running ->
  (thread (terminate c) = Qt.Finished ->
   cancel_current_operation w
   = {| self := {| current_worker := None;
                   operation_queue := operation_queue (self w);
                   is_processing := false |};
        listener := listener w;
        posted := posted w;
        trace := (trace w ++
                  [Qt.terminate (task c); Qt.wait (task c);
                   Qt.quit (task c); Qt.wait (task c); Qt.deleteLater (task c);
                   Qt.processing_status "Operation cancelled"])%list |}
   /\ (posted w = [] ->
       forall finished_slot,
         step finished_slot error_slot (cancel_current_operation w) = None)
   /\ forall image operation kwargs,
        fst (process_image error_slot (Some image) operation kwargs
               (cancel_current_operation w)) = Some true)
  /\ (thread (terminate c) = Qt.Terminated ->
      cancel_current_operation w
      = {| self := {| current_worker :=
                        Some {| task := task c; thread := Qt.Terminated |};
                      operation_queue := operation_queue (self w);
                      is_processing := is_processing (self w) |};
           listener := listener w;
           posted := posted w;
           trace := (trace w ++ [Qt.terminate (task c); Qt.wait (task c)])%list |}
      /\ forall finished_slot fuel,
           run_event_loop finished_slot error_slot fuel (cancel_current_operation w)
           = cancel_current_operation w).
Proof.
  intros Hc Hrun. split; intros Hrel.
  - rewrite (cancel_returns w c Hc Hrun Hrel).
    split; [reflexivity|]. split.
    + intros Hq finished_slot. unfold step, blocked. cbn [self posted wedged current_worker].
      now rewrite Hq.
    + intros image operation kwargs. reflexivity.
  - rewrite (cancel_blocks w c Hc Hrun Hrel).
    split; [reflexivity|].
    intros finished_slot fuel. destruct fuel; reflexivity.
Qed.

(** X16. Cancelling does nothing at all unless the held worker is running:
    with no worker, or with a worker that has finished and whose signals
    wait to be delivered, the manager stays as it is, busy flag included. *)
Theorem cancel_without_running_worker {L : Type} (w : world L) :
  (forall c, current_worker (self w) = Some c -> thread c <> Qt.Running) ->
  cancel_current_operation w = w.
Proof.
  intros Hnot. unfold cancel_current_operation.
  destruct (current_worker (self w)) as [c|] eqn:Ec; [|reflexivity].
  specialize (Hnot c eq_refl). destruct (thread c); [contradiction|reflexivity..].
Qed.

(** X17. A submission without an image is refused with a "Failed to start
    processing" error.  On an idle manager nothing else changes.  When it
    is a real-time submission made while a worker runs, that worker is
    killed first: if its thread lets go, the cancellation completes, the
    failure is reported all the same and the manager is left idle; if it
    does not, the call never returns and no failure is reported. *)
Theorem submit_without_image (w : world unit) (operation : string) (kwargs : Kwargs) :
  let failure :=
    Qt.processing_error
      "Failed to start processing: 'NoneType' object has no attribute 'copy'" in
  (is_processing (self w) = false ->
   process_image no_slot None operation kwargs w = (Some false, log failure w))
  /\ (forall c,
        is_processing (self w) = true ->
        current_worker (self w) = Some c ->
        thread c = Qt.Running ->
        ImageProcessingWorker.is_real_time operation = true ->
        (thread (terminate c) = Qt.Finished ->
         process_image no_slot None operation kwargs w
         = (Some false, log failure (cancel_current_operation w))
         /\ is_processing
              (self (snd (process_image no_slot None operation kwargs w))) = false
         /\ current_worker
              (self (snd (process_image no_slot None operation kwargs w))) = None)
        /\ (thread (terminate c) = Qt.Terminated ->
            process_image no_slot None operation kwargs w
            = (None, cancel_current_operation w)
            /\ trace (cancel_current_operation w)
               = (trace w ++ [Qt.terminate (task c); Qt.wait (task c)])%list)).
Proof.
  intros failure. split.
  - intros Hidle. unfold process_image. now rewrite Hidle.
  - intros c Hbusy Hc Hrun Hrt. split; intros Hrel.
    + assert (process_image no_slot None operation kwargs w
              = (Some false, log failure (cancel_current_operation w))) as E.
      { unfold process_image. rewrite Hbusy, Hrt.
        now rewrite (cancel_returns w c Hc Hrun Hrel). }
      rewrite E. split; [reflexivity|]. cbn [snd].
      rewrite (cancel_returns w c Hc Hrun Hrel). split; reflexivity.
    + assert (process_image no_slot None operation kwargs w
              = (None, cancel_current_operation w)) as E.
      { unfold process_image. rewrite Hbusy, Hrt.
        now rewrite (cancel_blocks w c Hc Hrun Hrel). }
      rewrite E. split; [reflexivity|].
      now rewrite (cancel_blocks w c Hc Hrun Hrel).
Qed.

End DispatcherMore.

Lemma success_is_delivered_and_manager_idle_witness :
  ThreadManager.is_processing
    (ThreadManager.self
       (run_alone (H := no_collaborators) 10
          (snd (ThreadManager.process_image (H := no_collaborators)
                  ThreadManager.no_slot (Some gray_2x3) "flip" ∅
                  ThreadManager.fresh)))) = false.
Proof.
  assert (snd (ImageProcessingWorker._execute_operation (H := no_collaborators)
                 (ImageProcessingWorker.Build gray_2x3 "flip" ∅))
          = Return (Some (Gray [[30; 20; 10]; [60; 50; 40]]))) as Hout by reflexivity.
  destruct (success_is_delivered_and_manager_idle (H := no_collaborators)
              ThreadManager.fresh gray_2x3 "flip" ∅
              (Gray [[30; 20; 10]; [60; 50; 40]])
              eq_refl eq_refl Hout 10%nat (le_n 10))
    as (_ & _ & Hidle & _).
  exact Hidle.
Defined.

Lemma cancel_running_worker_witness :
  ThreadManager.is_processing
    (ThreadManager.self
       (ThreadManager.cancel_current_operation (H := no_collaborators) busy_world))
  = false.
Proof.
  destruct (cancel_running_worker (H := no_collaborators) ThreadManager.no_slot
              busy_world
              {| ThreadManager.task :=
                   ImageProcessingWorker.Build gray_2x3 "brightness_contrast"
                     {[ "brightness" := VInt 10 ]};
                 ThreadManager.thread := Qt.Running |} eq_refl eq_refl) as [Hclean _].
  destruct (Hclean eq_refl) as [-> _]. reflexivity.
Defined.

Lemma cancel_without_running_worker_witness :
  ThreadManager.cancel_current_operation (H := no_collaborators) ThreadManager.fresh
  = ThreadManager.fresh.
Proof.
  apply (cancel_without_running_worker (H := no_collaborators)).
  intros c Hc. discriminate Hc.
Defined.

Lemma submit_without_image_witness :
  fst (ThreadManager.process_image (H := no_collaborators) ThreadManager.no_slot
         None "brightness_contrast" ∅ busy_world) = Some false
  /\ ThreadManager.is_processing
       (ThreadManager.self
          (snd (ThreadManager.process_image (H := no_collaborators)
                  ThreadManager.no_slot None "brightness_contrast" ∅ busy_world)))
     = false.
Proof.
  destruct (submit_without_image (H := no_collaborators) busy_world
              "brightness_contrast" ∅) as [_ Hbusy].
  destruct (Hbusy {| ThreadManager.task :=
                       ImageProcessingWorker.Build gray_2x3 "brightness_contrast"
                         {[ "brightness" := VInt 10 ]};
                     ThreadManager.thread := Qt.Running |}
              eq_refl eq_refl eq_refl eq_refl) as [Hclean _].
  destruct (Hclean eq_refl) as (E & Hidle & _).
  split; [now rewrite E | exact Hidle].
Defined.

(** * An invariant of the dispatcher *)

Section Invariant.
Context `{Collaborators}.
Import ThreadManager.

Lemma idle_after_log e (w : world unit) :
  idle_holds_nothing w -> idle_holds_nothing (log e w).
Proof. intros Hw. exact Hw. Qed.

Lemma cleanup_holds_nothing (w : world unit) :
  blocked w = false -> current_worker (self (_cleanup_worker w)) = None.
Proof.
  unfold _cleanup_worker, blocked, wedged, wait.
  destruct (current_worker (self w)) as [c|] eqn:Ec; [|intros _; exact Ec].
  destruct (thread c); [reflexivity | reflexivity | discriminate].
Qed.

Lemma idle_after_cancel (w : world unit) :
  idle_holds_nothing w -> idle_holds_nothing (cancel_current_operation w).
Proof.
  intros Hw. unfold cancel_current_operation.
  destruct (current_worker (self w)) as [c|] eqn:Ec; [|exact Hw].
  destruct (thread c); try exact Hw.
  unfold terminate, wait. cbn [thread task].
  destruct (Qt_terminate_releases _ _ _).
  - intros _. reflexivity.
  - intros Hidle. cbn in Hidle. specialize (Hw Hidle). congruence.
Qed.

Lemma idle_after_submit image operation kwargs (w : world unit) :
  idle_holds_nothing w ->
  idle_holds_nothing (snd (process_image no_slot image operation kwargs w)).
Proof.
  intros Hw. unfold process_image.
  destruct (is_processing (self w)) eqn:Hbusy.
  - destruct (ImageProcessingWorker.is_real_time operation).
    + pose proof (idle_after_cancel w Hw) as Hc.
      destruct (blocked (cancel_current_operation w)); [exact Hc|].
      destruct image; cbn [snd]; [intros Hf; discriminate Hf|exact Hc].
    + exact Hw.
  - destruct image; cbn [snd]; [intros Hf; discriminate Hf|exact Hw].
Qed.

Lemma idle_after_step (w w' : world unit) :
  idle_holds_nothing w -> step no_slot no_slot w = Some w' -> idle_holds_nothing w'.
Proof.
  intros Hw. unfold step.
  destruct (blocked w) eqn:Hb; [discriminate|].
  destruct (posted w) as [|s rest].
  - destruct (current_worker (self w)) as [c|] eqn:Ec; [|discriminate].
    destruct (thread c); try discriminate. intros [= <-].
    intros Hidle. cbn in Hidle. specialize (Hw Hidle). congruence.
  - intros [= <-]. destruct s as [r|msg|n|msg]; cbn [deliver].
    + intros _. unfold _on_processing_finished, emit_processing_finished, no_slot.
      change (blocked (log (Qt.processing_finished r)
                         (set_is_processing false
                            {| self := self w; listener := listener w;
                               posted := rest; trace := trace w |})))
        with (blocked w).
      rewrite Hb. now apply cleanup_holds_nothing.
    + intros _. unfold _on_processing_error, emit_processing_error, no_slot.
      change (blocked (log (Qt.processing_error msg)
                         (set_is_processing false
                            {| self := self w; listener := listener w;
                               posted := rest; trace := trace w |})))
        with (blocked w).
      rewrite Hb. now apply cleanup_holds_nothing.
    + exact Hw.
    + exact Hw.
Qed.

(** X18. In every state a manager can reach from its creation by
    submissions, cancellations and steps of the event loop, an idle manager
    holds no worker: whenever a worker is held, the manager reports busy. *)
Theorem idle_manager_holds_no_worker (w : world unit) :
  reachable w -> idle_holds_nothing w.
Proof.
  intros Hreach. induction Hreach as [|w image operation kwargs _ IH|w _ IH|w w' _ IH Hs].
  - intros _. reflexivity.
  - now apply idle_after_submit.
  - now apply idle_after_cancel.
  - now apply (idle_after_step w w').
Qed.

(** X19. A real-time submission that arrives after the worker in flight has
    finished, but before its result has been delivered, cancels nothing:
    the result of the superseded request is still emitted, before
    the new one. *)
Theorem superseded_result_is_still_delivered
    (old : ImageProcessingWorker.t) (stale : ndarray)
    (oq : list (string * Kwargs)) (tr : list Qt.effect)
    (image : ndarray) (operation : string) (kwargs : Kwargs) (result : ndarray) :
  ImageProcessingWorker.is_real_time operation = true ->
  let worker := ImageProcessingWorker.Build image operation kwargs in
  snd (ImageProcessingWorker._execute_operation worker) = Return (Some result) ->
  let w :=
    {| self := {| current_worker := Some {| task := old; thread := Qt.Finished |};
                  operation_queue := oq; is_processing := true |};
       listener := tt;
       posted := [ImageProcessingWorker.finished stale];
       trace := tr |} in
  fst (process_image no_slot (Some image) operation kwargs w) = Some true
  /\ forall fuel, (2 <= fuel)%nat ->
     run_alone fuel (snd (process_image no_slot (Some image) operation kwargs w))
     = {| self := {| current_worker := None; operation_queue := oq;
                     is_processing := false |};
          listener := tt;
          posted := [];
          trace := (tr ++ [Qt.start worker;
                           Qt.processing_finished stale;
                           Qt.quit worker; Qt.wait worker; Qt.deleteLater worker;
                           Qt.processing_finished result])%list |}.
Proof.
  intros Hrt worker Hout w.
  assert (ImageProcessingWorker.run worker = [ImageProcessingWorker.finished result])
    as Hrun.
  { unfold ImageProcessingWorker.run.
    change (ImageProcessingWorker.operation worker) with operation. rewrite Hrt.
    assert (fst (ImageProcessingWorker._execute_operation worker) = []) as Hem
      by (unfold ImageProcessingWorker._execute_operation; cbn [fst];
          change (ImageProcessingWorker.operation worker) with operation;
          now rewrite Hrt).
    destruct (ImageProcessingWorker._execute_operation worker) as [emitted outcome].
    cbn [fst snd] in *. subst. reflexivity. }
  assert (process_image no_slot (Some image) operation kwargs w
          = (Some true,
             {| self := {| current_worker :=
                             Some {| task := worker; thread := Qt.Running |};
                           operation_queue := oq; is_processing := true |};
                listener := tt;
                posted := [ImageProcessingWorker.finished stale];
                trace := (tr ++ [Qt.start worker])%list |})) as E.
  { unfold process_image. subst w. cbn [self is_processing]. rewrite Hrt.
    reflexivity. }
  rewrite E. cbn [fst snd]. split; [reflexivity|].
  intros fuel Hfuel. unfold run_alone.
  assert (run_event_loop no_slot no_slot 2
            {| self := {| current_worker :=
                            Some {| task := worker; thread := Qt.Running |};
                          operation_queue := oq; is_processing := true |};
               listener := tt;
               posted := [ImageProcessingWorker.finished stale];
               trace := (tr ++ [Qt.start worker])%list |}
          = {| self := {| current_worker := None; operation_queue := oq;
                          is_processing := false |};
               listener := tt;
               posted := [];
               trace := (tr ++ [Qt.start worker;
                                Qt.processing_finished stale;
                                Qt.quit worker; Qt.wait worker; Qt.deleteLater worker;
                                Qt.processing_finished result])%list |}) as Hsettled.
  { cbn [run_event_loop].
    cbv [step deliver _on_processing_finished emit_processing_finished no_slot
         _cleanup_worker wait log post set_is_processing set_current_worker set_self
         self listener posted trace current_worker thread task is_processing
         operation_queue
       blocked wedged stuck_in_wait].
    rewrite Hrun. cbn [app].
    cbv [step deliver _on_processing_finished emit_processing_finished no_slot
         _cleanup_worker wait log post set_is_processing set_current_worker set_self
         self listener posted trace current_worker thread task is_processing
         operation_queue
       blocked wedged stuck_in_wait].
    f_equal. rewrite <- !app_assoc. reflexivity. }
  rewrite (loop_settled no_slot no_slot 2); [exact Hsettled| |lia].
  rewrite Hsettled. reflexivity.
Qed.

End Invariant.

Lemma idle_manager_holds_no_worker_witness :
  ThreadManager.current_worker
    (ThreadManager.self
       (ThreadManager.cancel_current_operation (H := no_collaborators) busy_world))
  = None.
Proof.
  apply (idle_manager_holds_no_worker (H := no_collaborators)).
  - apply reach_cancel. unfold busy_world. apply reach_submit. apply reach_fresh.
  - reflexivity.
Defined.

Lemma superseded_result_is_still_delivered_witness :
  fst (ThreadManager.process_image (H := no_collaborators) ThreadManager.no_slot
         (Some gray_2x3) "brightness_contrast" ∅
         {| ThreadManager.self :=
              {| ThreadManager.current_worker :=
                   Some {| ThreadManager.task :=
                             ImageProcessingWorker.Build gray_2x3 "brightness_contrast" ∅;
                           ThreadManager.thread := Qt.Finished |};
                 ThreadManager.operation_queue := [];
                 ThreadManager.is_processing := true |};
            ThreadManager.listener := tt;
            ThreadManager.posted := [ImageProcessingWorker.finished gray_2x3];
            ThreadManager.trace := [] |}) = Some true.
Proof.
  assert (snd (ImageProcessingWorker._execute_operation (H := no_collaborators)
                 (ImageProcessingWorker.Build gray_2x3 "brightness_contrast" ∅))
          = Return (Some gray_2x3)) as Hout by (vm_compute; reflexivity).
  destruct (superseded_result_is_still_delivered (H := no_collaborators)
              (ImageProcessingWorker.Build gray_2x3 "brightness_contrast" ∅)
              gray_2x3 [] [] gray_2x3 "brightness_contrast" ∅ gray_2x3 eq_refl Hout)
    as [Haccepted _].
  exact Haccepted.
Defined.

(** * Batches of any length *)

Section BatchChain.
Context `{Collaborators}.
Import ThreadManager.

Lemma cleanup_log_filters (cw : option worker_thread) :
  List.filter is_start (cleanup_log cw) = []
  /\ List.filter is_batch_outcome (cleanup_log cw) = [].
Proof. destruct cw; split; reflexivity. Qed.

Ltac reduce_batch :=
  cbv [BatchProcessor.process_batch BatchProcessor._process_next_operation
       BatchProcessor._on_operation_finished BatchProcessor._on_operation_error
       BatchProcessor.emit_batch_finished
       BatchProcessor.set_batch BatchProcessor.fresh init BatchProcessor.init
       BatchProcessor.step step deliver post
       _on_processing_finished _on_processing_error
       emit_processing_finished emit_processing_error _cleanup_worker wait
       process_image snd log set_is_processing set_current_worker set_self
       self listener posted trace current_worker thread task is_processing
       operation_queue BatchProcessor.operations_queue BatchProcessor.current_image
       BatchProcessor.current_operation_index cleanup_log
       blocked wedged stuck_in_wait].

Lemma step_last_result (cw : option worker_thread) (oq : list (string * Kwargs))
    (busy : bool) (queue : list BatchProcessor.operation) (img : option ndarray)
    (index : nat) (r : ndarray) (tr : list Qt.effect) :
  at_rest cw ->
  queue !! S index = None ->
  BatchProcessor.step
    {| self := {| current_worker := cw; operation_queue := oq; is_processing := busy |};
       listener := {| BatchProcessor.operations_queue := queue;
                      BatchProcessor.current_image := img;
                      BatchProcessor.current_operation_index := index |};
       posted := [ImageProcessingWorker.finished r];
       trace := tr |}
  = Some {| self := {| current_worker := None; operation_queue := oq;
                       is_processing := false |};
            listener := {| BatchProcessor.operations_queue := queue;
                           BatchProcessor.current_image := Some r;
                           BatchProcessor.current_operation_index := S index |};
            posted := [];
            trace := (tr ++ [Qt.processing_finished r; Qt.batch_finished r]
                      ++ cleanup_log cw)%list |}.
Proof.
  intros Hrest Hnext.
  destruct cw as [[tk th]|];
    [pose proof (Hrest _ eq_refl) as Hth; cbn [thread] in Hth; subst th|];
    reduce_batch; rewrite Hnext; reduce_batch; rewrite <- !app_assoc; reflexivity.
Qed.

Lemma step_error (cw : option worker_thread) (oq : list (string * Kwargs))
    (busy : bool) (l : BatchProcessor.t) (msg : string) (tr : list Qt.effect) :
  at_rest cw ->
  BatchProcessor.step
    {| self := {| current_worker := cw; operation_queue := oq; is_processing := busy |};
       listener := l;
       posted := [ImageProcessingWorker.error msg];
       trace := tr |}
  = Some {| self := {| current_worker := None; operation_queue := oq;
                       is_processing := false |};
            listener := l;
            posted := [];
            trace := (tr ++ [Qt.processing_error msg;
                             batch_outcome
                               (inr (BatchProcessor.current_operation_index l, msg))]
                      ++ cleanup_log cw)%list |}.
Proof.
  intros Hrest.
  destruct cw as [[tk th]|];
    [pose proof (Hrest _ eq_refl) as Hth; cbn [thread] in Hth; subst th|];
    reduce_batch; cbv [batch_outcome]; rewrite <- !app_assoc; reflexivity.
Qed.

Lemma lookup_after {X} (done : list X) (x y : X) (rest : list X) :
  (done ++ x :: y :: rest)%list !! S (length done) = Some y.
Proof.
  rewrite lookup_app_r by lia.
  replace (S (length done) - length done)%nat with 1%nat by lia. reflexivity.
Qed.

Lemma lookup_past {X} (done : list X) (x : X) :
  (done ++ [x])%list !! S (length done) = None.
Proof. apply lookup_ge_None. rewrite length_app. cbn. lia. Qed.

(** From the moment the worker of step [op] has run: the rest of the batch. *)
Lemma batch_rest_settles (rest done : list BatchProcessor.operation)
    (op : BatchProcessor.operation) (img : ndarray) (cur : option ndarray)
    (cw : option worker_thread) (oq : list (string * Kwargs)) (busy : bool)
    (tr : list Qt.effect) :
  at_rest cw ->
  exists (n : nat) (d : list Qt.effect) (l : BatchProcessor.t),
    (n <= 9 * S (length rest))%nat
    /\ BatchProcessor.run_event_loop n
         {| self := {| current_worker := cw; operation_queue := oq;
                       is_processing := busy |};
            listener := {| BatchProcessor.operations_queue := (done ++ op :: rest)%list;
                           BatchProcessor.current_image := cur;
                           BatchProcessor.current_operation_index := length done |};
            posted := ImageProcessingWorker.run (batch_worker img op);
            trace := tr |}
       = {| self := {| current_worker := None; operation_queue := oq;
                       is_processing := false |};
            listener := l; posted := []; trace := (tr ++ d)%list |}
    /\ List.filter is_batch_outcome d
       = [batch_outcome (chain (length done) img (op :: rest))]
    /\ List.filter is_start d
       = map Qt.start (tl (chain_workers img (op :: rest))).
Proof.
  revert done op img cur cw busy tr.
  induction rest as [|op' rest IH]; intros done op img cur cw busy tr Hrest.
  - (* the last step *)
    cbn [chain chain_workers tl]. unfold apply_operation.
    destruct (snd (ImageProcessingWorker._execute_operation (batch_worker img op)))
      as [[r|]|e] eqn:Hout.
    + destruct (run_success _ r Hout) as (c & Hrun & Hc & Hlen).
      exists (length c + 1)%nat. eexists. eexists. split; [cbn; lia|]. split.
      * rewrite Hrun, loop_forwards
          by first [exact Hc | exact (at_rest_not_wedged _ _ _ Hrest)].
        rewrite (loop_step _ _ _ (step_last_result _ _ _ _ _ _ _ _ Hrest
                                    (lookup_past done op))).
        cbn [BatchProcessor.run_event_loop run_event_loop].
        f_equal. rewrite <- !app_assoc. reflexivity.
      * destruct (cleanup_log_filters cw) as [Fs Fo].
        rewrite !List.filter_app, Fs, Fo.
        rewrite !filter_forwarded by tauto. split; reflexivity.
    + exfalso. exact (execute_outcome_not_none _ Hout).
    + assert (failed (snd (ImageProcessingWorker._execute_operation
                             (batch_worker img op)))) as Hfail by now rewrite Hout.
      destruct (run_failure _ Hfail) as (c & Hrun & Hc & Hlen).
      rewrite Hout in Hrun.
      exists (length c + 1)%nat. eexists. eexists. split; [cbn; lia|]. split.
      * rewrite Hrun, loop_forwards
          by first [exact Hc | exact (at_rest_not_wedged _ _ _ Hrest)].
        rewrite (loop_step _ _ _ (step_error _ _ _ _ _ _ Hrest)).
        cbn [BatchProcessor.run_event_loop run_event_loop].
        f_equal. rewrite <- !app_assoc. reflexivity.
      * destruct (cleanup_log_filters cw) as [Fs Fo].
        rewrite !List.filter_app, Fs, Fo.
        rewrite !filter_forwarded by tauto. split; reflexivity.
  - (* a step with others after it *)
    cbn [chain chain_workers tl]. unfold apply_operation at 1 2.
    destruct (snd (ImageProcessingWorker._execute_operation (batch_worker img op)))
      as [[r|]|e] eqn:Hout.
    + destruct (run_success _ r Hout) as (c & Hrun & Hc & Hlen).
      destruct (IH (done ++ [op])%list op' r (Some r) None true
                  (((tr ++ flat_map forwarded c)
                    ++ [Qt.processing_finished r;
                        Qt.batch_progress
                          (BatchProcessor.percent (S (length done))
                             (length (done ++ op :: op' :: rest)))
                          ("Processing: " +:+ BatchProcessor.name op');
                        Qt.start (batch_worker r op');
                        Qt.quit (batch_worker r op');
                        Qt.wait (batch_worker r op');
                        Qt.deleteLater (batch_worker r op')]))%list)
        as (n & d & l & Hn & Hloop & Hfo & Hfs).
      { intros c0 Hc0. discriminate Hc0. }
      rewrite length_app in Hloop, Hfo. cbn [length] in Hloop, Hfo.
      rewrite Nat.add_1_r in Hloop, Hfo.
      rewrite <- app_assoc in Hloop. cbn [app] in Hloop.
      exists (length c + S n)%nat. eexists. exists l.
      split; [cbn [length] in *; lia|]. split.
      * rewrite Hrun, loop_forwards
          by first [exact Hc | exact (at_rest_not_wedged _ _ _ Hrest)].
        rewrite (loop_step _ _ _ (step_result_then_next _ _ _ _ _ _ op' r [] _ Hrest
                                    (lookup_after done op op' rest))).
        cbn [app]. rewrite Hloop. f_equal. rewrite <- !app_assoc. reflexivity.
      * rewrite !List.filter_app, !filter_forwarded by tauto.
        cbn [List.filter is_batch_outcome is_start app].
        rewrite Hfo, Hfs. split; [reflexivity|].
        cbn [chain_workers tl map]. unfold apply_operation. rewrite Hout.
        reflexivity.
    + exfalso. exact (execute_outcome_not_none _ Hout).
    + assert (failed (snd (ImageProcessingWorker._execute_operation
                             (batch_worker img op)))) as Hfail by now rewrite Hout.
      destruct (run_failure _ Hfail) as (c & Hrun & Hc & Hlen).
      rewrite Hout in Hrun.
      exists (length c + 1)%nat. eexists. eexists. split; [cbn [length]; lia|]. split.
      * rewrite Hrun, loop_forwards
          by first [exact Hc | exact (at_rest_not_wedged _ _ _ Hrest)].
        rewrite (loop_step _ _ _ (step_error _ _ _ _ _ _ Hrest)).
        cbn [BatchProcessor.run_event_loop run_event_loop].
        f_equal. rewrite <- !app_assoc. reflexivity.
      * destruct (cleanup_log_filters cw) as [Fs Fo].
        rewrite !List.filter_app, Fs, Fo.
        rewrite !filter_forwarded by tauto.
        split; [reflexivity | unfold apply_operation; rewrite Hout; reflexivity].
Qed.

(** X20. A batch of any length, given nine turns of the event loop per
    step and one more, comes to rest with exactly one outcome: the image
    that the steps yield one after another on the input when all succeed,
    else one error naming the index of the first step that fails with the
    worker's message.  The workers started are, in order, those of the
    steps up to and including the first that fails, each on the image the
    steps before it produced; the manager ends idle and holds no worker. *)
Theorem batch_of_any_length (image : ndarray)
    (ops : list BatchProcessor.operation) (fuel : nat) :
  (9 * length ops + 1 <= fuel)%nat ->
  let final :=
    BatchProcessor.run_event_loop fuel
      (BatchProcessor.process_batch image ops BatchProcessor.fresh) in
  List.filter is_batch_outcome (trace final) = [batch_outcome (chain 0 image ops)]
  /\ List.filter is_start (trace final) = map Qt.start (chain_workers image ops)
  /\ is_processing (self final) = false
  /\ current_worker (self final) = None
  /\ BatchProcessor.step final = None.
Proof.
  intros Hfuel final. subst final.
  destruct ops as [|a rest].
  - assert (BatchProcessor.step
              (BatchProcessor.run_event_loop 0
                 (BatchProcessor.process_batch image [] BatchProcessor.fresh))
            = None) as Hq by reflexivity.
    rewrite (loop_settles 0 fuel _ Hq) by lia.
    repeat split; reflexivity.
  - destruct (batch_rest_settles rest [] a image (Some image)
                (Some {| task := batch_worker image a; thread := Qt.Finished |})
                [] true
                [Qt.batch_progress (BatchProcessor.percent 0 (length (a :: rest)))
                   ("Processing: " +:+ BatchProcessor.name a);
                 Qt.start (batch_worker image a)])
      as (n & d & l & Hn & Hloop & Hfo & Hfs).
    { intros c Hc. injection Hc as <-. reflexivity. }
    cbn [app length] in Hloop, Hfo.
    assert (BatchProcessor.run_event_loop (S n)
              (BatchProcessor.process_batch image (a :: rest) BatchProcessor.fresh)
            = {| self := {| current_worker := None; operation_queue := [];
                            is_processing := false |};
                 listener := l; posted := [];
                 trace := ([Qt.batch_progress
                              (BatchProcessor.percent 0 (length (a :: rest)))
                              ("Processing: " +:+ BatchProcessor.name a);
                            Qt.start (batch_worker image a)] ++ d)%list |}) as Hrun.
    { rewrite batch_starts.
      rewrite (loop_step _ _ _ (step_worker_runs _ _ _ _ _)). exact Hloop. }
    assert (BatchProcessor.step
              (BatchProcessor.run_event_loop (S n)
                 (BatchProcessor.process_batch image (a :: rest) BatchProcessor.fresh))
            = None) as Hq by (rewrite Hrun; reflexivity).
    rewrite (loop_settles (S n) fuel _ Hq) by (cbn [length] in *; lia).
    rewrite Hrun. cbn [trace self is_processing current_worker].
    split; [|split; [|split; [reflexivity|split; reflexivity]]].
    + rewrite List.filter_app, Hfo. reflexivity.
    + rewrite List.filter_app, Hfs. cbn [chain_workers tl map List.filter is_start app].
      reflexivity.
Qed.

End BatchChain.

Lemma batch_of_any_length_witness :
  (9 * length [flip_step; crop_step; flip_step] + 1 <= 28)%nat
  /\ List.filter is_batch_outcome
       (ThreadManager.trace
          (BatchProcessor.run_event_loop (H := no_collaborators) 28
             (BatchProcessor.process_batch (H := no_collaborators) gray_2x3
                [flip_step; crop_step; flip_step] BatchProcessor.fresh)))
     = [batch_outcome
          (chain (H := no_collaborators) 0 gray_2x3 [flip_step; crop_step; flip_step])].
Proof.
  assert (9 * length [flip_step; crop_step; flip_step] + 1 <= 28)%nat as Hfuel
    by (cbn [length]; lia).
  split; [exact Hfuel|].
  exact (proj1 (batch_of_any_length (H := no_collaborators) gray_2x3
                  [flip_step; crop_step; flip_step] 28 Hfuel)).
Defined.

(** * Rectangles, clamping and progress *)

Section Bounds.

(** X21. On an image that is not empty, [ensure_image_bounds] returns a
    rectangle of at least one pixel that lies inside the image, whatever
    rectangle it is given. *)
Theorem ensure_image_bounds_fits (image : ndarray) (x y width height : Z)
    (x' y' w' h' : Z) :
  (0 < img_width image)%nat -> (0 < img_height image)%nat ->
  image_utils.ensure_image_bounds (Some image) x y width height = (x', y', w', h') ->
  0 <= x' /\ 0 <= y' /\ 1 <= w' /\ 1 <= h'
  /\ x' + w' <= Z.of_nat (img_width image)
  /\ y' + h' <= Z.of_nat (img_height image).
Proof.
  intros Hw Hh E. unfold image_utils.ensure_image_bounds in E. cbn zeta in E.
  injection E as <- <- <- <-. lia.
Qed.

(** X22. A rectangle of at least one pixel that already lies inside the
    image is returned unchanged; hence applying [ensure_image_bounds] to
    its own result changes nothing, on any image. *)
Theorem ensure_image_bounds_fixes (image : ndarray) (x y width height : Z) :
  (0 <= x -> 0 <= y -> 1 <= width -> 1 <= height ->
   x + width <= Z.of_nat (img_width image) ->
   y + height <= Z.of_nat (img_height image) ->
   image_utils.ensure_image_bounds (Some image) x y width height
   = (x, y, width, height))
  /\ (forall x' y' w' h',
        image_utils.ensure_image_bounds (Some image) x y width height
        = (x', y', w', h') ->
        image_utils.ensure_image_bounds (Some image) x' y' w' h' = (x', y', w', h')).
Proof.
  split.
  - intros Hx Hy Hw Hh Hxw Hyh. unfold image_utils.ensure_image_bounds. cbn zeta.
    f_equal; [f_equal; [f_equal|]|]; lia.
  - intros x' y' w' h' E. unfold image_utils.ensure_image_bounds in *.
    cbn zeta in *. injection E as <- <- <- <-.
    f_equal; [f_equal; [f_equal|]|]; lia.
Qed.

(** X23. Cropping to the rectangle [ensure_image_bounds] returns gives an
    image of exactly that rectangle's width and height, whatever rectangle
    was asked for, negative sizes included. *)
Theorem crop_of_ensured_rectangle (image : ndarray) (x y width height : Z)
    (x' y' w' h' : Z) :
  rectangular image ->
  (0 < img_width image)%nat -> (0 < img_height image)%nat ->
  image_utils.ensure_image_bounds (Some image) x y width height = (x', y', w', h') ->
  Z.of_nat (img_width (ImageProcessor.crop_image image x' y' w' h')) = w'
  /\ Z.of_nat (img_height (ImageProcessor.crop_image image x' y' w' h')) = h'.
Proof.
  intros Hrect Hw Hh E. unfold image_utils.ensure_image_bounds in E. cbn zeta in E.
  injection E as <- <- <- <-.
  unfold ImageProcessor.crop_image.
  destruct image as [g|g]; destruct Hrect as [Hr _]; cbn [img_width img_height] in *;
    set (W := Z.of_nat (grid_width g)) in *; set (Hg := Z.of_nat (grid_height g)) in *;
    set (x' := Z.max 0 (Z.min x (W - 1))); set (y' := Z.max 0 (Z.min y (Hg - 1)));
    set (w' := Z.max 1 (Z.min width (W - x')));
    set (h' := Z.max 1 (Z.min height (Hg - y')));
    replace (Z.max 0 (Z.min x' W)) with x' by lia;
    replace (Z.max 0 (Z.min y' Hg)) with y' by lia;
    replace (Z.min w' (W - x')) with w' by lia;
    replace (Z.min h' (Hg - y')) with h' by lia;
    cbn zeta; cbn [img_width img_height];
    apply grid_slice_dimensions; (exact Hr || (subst W Hg; lia)).
Qed.

End Bounds.

Lemma ensure_image_bounds_fits_witness :
  image_utils.ensure_image_bounds (Some gray_2x3) 5 (-4) (-5) 9 = (2, 0, 1, 2)
  /\ 2 + 1 <= Z.of_nat (img_width gray_2x3).
Proof.
  assert (image_utils.ensure_image_bounds (Some gray_2x3) 5 (-4) (-5) 9 = (2, 0, 1, 2))
    as E by reflexivity.
  split; [exact E|].
  assert (0 < img_width gray_2x3)%nat as Hw by (cbn; lia).
  assert (0 < img_height gray_2x3)%nat as Hh by (cbn; lia).
  exact (proj1 (proj2 (proj2 (proj2 (proj2
           (ensure_image_bounds_fits gray_2x3 5 (-4) (-5) 9 2 0 1 2 Hw Hh E)))))).
Defined.

Lemma ensure_image_bounds_fixes_witness :
  image_utils.ensure_image_bounds (Some gray_2x3) 1 0 2 2 = (1, 0, 2, 2).
Proof.
  apply (proj1 (ensure_image_bounds_fixes gray_2x3 1 0 2 2)); cbn; lia.
Defined.

Lemma crop_of_ensured_rectangle_witness :
  Z.of_nat (img_width (ImageProcessor.crop_image gray_2x3 0 0 1 1)) = 1.
Proof.
  assert (rectangular gray_2x3) as Hrect by (cbn; split; [repeat constructor | lia]).
  assert (0 < img_width gray_2x3)%nat as Hw by (cbn; lia).
  assert (0 < img_height gray_2x3)%nat as Hh by (cbn; lia).
  assert (image_utils.ensure_image_bounds (Some gray_2x3) 0 0 (-5) (-5) = (0, 0, 1, 1))
    as E by reflexivity.
  exact (proj1 (crop_of_ensured_rectangle gray_2x3 0 0 (-5) (-5) 0 0 1 1
                  Hrect Hw Hh E)).
Defined.

Lemma crop_within_bounds_witness :
  Z.of_nat (img_width (ImageProcessor.crop_image gray_2x3 2 1 5 0)) <= 5.
Proof.
  assert (rect (grid_width [[10; 20; 30]; [40; 50; 60]]) [[10; 20; 30]; [40; 50; 60]])
    as Hrect by (repeat constructor).
  assert (0 <= 5) as Hw by lia.
  assert (0 <= 0) as Hh by lia.
  exact (proj1 (crop_within_bounds gray_2x3 2 1 5 0 Hrect Hw Hh)).
Defined.

Section Clamp.
Import image_utils.

Lemma SFcompare_antisym (a b : spec_float) :
  SFcompare b a = option_map CompOpp (SFcompare a b).
Proof.
  destruct a as [sa|sa| |sa ma ea], b as [sb|sb| |sb mb eb]; cbn;
    try destruct sa; try destruct sb; try reflexivity;
    rewrite (Z.compare_antisym ea eb); destruct (ea ?= eb)%Z; cbn; try reflexivity;
    change (Pos.compare_cont Eq ?p ?q) with (Pos.compare p q);
    rewrite (Pos.compare_antisym ma mb); try reflexivity;
    destruct (ma ?= mb)%positive; reflexivity.
Qed.

Lemma SFleb_refl (a : spec_float) (b : spec_float) :
  SFleb a b = true -> SFleb a a = true /\ SFleb b b = true.
Proof.
  unfold SFleb.
  destruct a as [sa|sa| |sa ma ea], b as [sb|sb| |sb mb eb]; cbn;
    try discriminate; intros _;
    try destruct sa; try destruct sb; cbn; rewrite ?Z.compare_refl; cbn;
    change (Pos.compare_cont Eq ?p ?q) with (Pos.compare p q);
    rewrite ?Pos.compare_refl; split; reflexivity.
Qed.

Lemma SFltb_SFleb (a b : spec_float) : SFltb a b = true -> SFleb a b = true.
Proof. unfold SFltb, SFleb. destruct (SFcompare a b) as [[| |]|]; congruence. Qed.

Lemma not_SFltb_SFleb (a b : spec_float) :
  SFleb a a = true -> SFleb b b = true -> SFltb b a = false -> SFleb a b = true.
Proof.
  intros Ha Hb. unfold SFltb, SFleb in *. rewrite (SFcompare_antisym a b).
  destruct (SFcompare a b) as [[| |]|] eqn:E; cbn; try congruence.
  destruct a as [sa|sa| |sa ma ea], b as [sb|sb| |sb mb eb];
    cbn in E, Ha, Hb; discriminate.
Qed.

(** X24. When the bounds are in order, [clamp_value] returns a value
    between them for every input, a NaN included; a NaN input is clamped to
    the lower bound whatever the bounds are. *)
Theorem clamp_value_in_range (value min_val max_val : spec_float) :
  (SFleb min_val max_val = true ->
   SFleb min_val (clamp_value value min_val max_val) = true
   /\ SFleb (clamp_value value min_val max_val) max_val = true)
  /\ (fl_is_nan value = true -> clamp_value value min_val max_val = min_val).
Proof.
  split.
  - intros Hle. destruct (SFleb_refl _ _ Hle) as [Hlo Hhi].
    unfold clamp_value, py_max, py_min.
    destruct (SFltb max_val value) eqn:E1.
    + destruct (SFltb min_val max_val) eqn:E2; auto.
    + destruct (SFltb min_val value) eqn:E2; [|auto].
      split; [now apply SFltb_SFleb|].
      apply not_SFltb_SFleb; [|exact Hhi|exact E1].
      apply SFltb_SFleb in E2. exact (proj2 (SFleb_refl _ _ E2)).
  - intros Hnan. destruct value; try discriminate Hnan.
    unfold clamp_value, py_max, py_min.
    destruct max_val, min_val; reflexivity.
Qed.

End Clamp.

Lemma clamp_value_in_range_witness :
  SFleb (F64.of_Z 1) (image_utils.clamp_value (F64.of_Z 12) (F64.of_Z 1) (F64.of_Z 5))
  = true.
Proof.
  assert (SFleb (F64.of_Z 1) (F64.of_Z 5) = true) as Hle by reflexivity.
  exact (proj1 (proj1 (clamp_value_in_range (F64.of_Z 12) (F64.of_Z 1) (F64.of_Z 5))
                  Hle)).
Defined.

Section Progress.



End Progress.


(** * Cropping with a coordinate that is not an integer *)

Section CropValues.

Lemma Z_lt_float_mono (a b : Z) (f : spec_float) :
  a <= b -> Z_lt_float a f = false -> Z_lt_float b f = false.
Proof.
  intros Hab. unfold Z_lt_float.
  destruct f as [s|s| |s m e]; try (intros E; exact E);
    (destruct (fl_to_Q _) as [q|]; [|reflexivity]);
    rewrite !negb_false_iff, !Qle_bool_iff; intros Hq;
    (eapply Qle_trans; [exact Hq|]); now rewrite <- Zle_Qle.
Qed.

(** X26. [crop_image] called with a float for x and integers for the rest:
    a float that is not above 0 (a NaN included) is replaced by 0 and a
    float above the image's width by that width, both integers, and the
    crop goes through as for that integer; a float in between reaches the
    slice as it is and the call raises [TypeError]. *)
Theorem crop_with_float_x (image : ndarray) (f : spec_float) (y width height : Z) :
  (Z_lt_float 0 f = false ->
   ImageProcessor.crop_image_values image (VFloat f) (VInt y) (VInt width) (VInt height)
   = Return (ImageProcessor.crop_image image 0 y width height))
  /\ (Z_lt_float (Z.of_nat (img_width image)) f = true ->
      ImageProcessor.crop_image_values image (VFloat f) (VInt y) (VInt width) (VInt height)
      = Return (ImageProcessor.crop_image image (Z.of_nat (img_width image))
                  y width height))
  /\ (Z_lt_float 0 f = true ->
      Z_lt_float (Z.of_nat (img_width image)) f = false ->
      exists msg,
        ImageProcessor.crop_image_values image (VFloat f) (VInt y) (VInt width)
          (VInt height)
        = Raise (Exc TypeError msg)).
Proof.
  set (W := Z.of_nat (img_width image)).
  assert (0 <= W) as HW by (subst W; lia).
  split; [|split].
  - intros Hlow.
    pose proof (Z_lt_float_mono 0 W f HW Hlow) as Hhigh.
    rewrite <- crop_image_on_integers.
    unfold ImageProcessor.crop_image_values. fold W.
    assert (builtin_min (VFloat f) (VInt W) = Return (VFloat f)) as ->
      by (unfold builtin_min, py_lt; cbn [as_number mbind result_bind];
          now rewrite Hhigh).
    assert (builtin_min (VInt 0) (VInt W) = Return (VInt 0)) as ->
      by (unfold builtin_min, py_lt; cbn [as_number mbind result_bind];
          now destruct (Z.ltb_spec W 0); [lia|]).
    cbn [mbind result_bind].
    assert (builtin_max (VInt 0) (VFloat f) = Return (VInt 0)) as ->
      by (unfold builtin_max, py_lt; cbn [as_number mbind result_bind];
          now rewrite Hlow).
    assert (builtin_max (VInt 0) (VInt 0) = Return (VInt 0)) as -> by reflexivity.
    reflexivity.
  - intros Hhigh.
    rewrite <- crop_image_on_integers.
    unfold ImageProcessor.crop_image_values. fold W.
    assert (builtin_min (VFloat f) (VInt W) = Return (VInt W)) as ->
      by (unfold builtin_min, py_lt; cbn [as_number mbind result_bind];
          now rewrite Hhigh).
    assert (builtin_min (VInt W) (VInt W) = Return (VInt W)) as ->
      by (unfold builtin_min, py_lt; cbn [as_number mbind result_bind];
          now rewrite Z.ltb_irrefl).
    reflexivity.
  - intros Hlow Hhigh.
    unfold ImageProcessor.crop_image_values. fold W.
    assert (builtin_min (VFloat f) (VInt W) = Return (VFloat f)) as ->
      by (unfold builtin_min, py_lt; cbn [as_number mbind result_bind];
          now rewrite Hhigh).
    cbn [mbind result_bind].
    assert (builtin_max (VInt 0) (VFloat f) = Return (VFloat f)) as ->
      by (unfold builtin_max, py_lt; cbn [as_number mbind result_bind];
          now rewrite Hlow).
    unfold builtin_min, builtin_max, py_lt, py_sub, py_add.
    cbn [as_number mbind result_bind number_to_float].
    repeat (match goal with
            | |- context [if ?b then _ else _] => destruct b
            end; cbn [as_number mbind result_bind number_to_float as_index]).
    all: eexists; reflexivity.
Qed.

End CropValues.

Lemma crop_with_float_x_witness :
  ImageProcessor.crop_image_values gray_2x3
    (VFloat (SFopp (F64.div (F64.of_Z 3) (F64.of_Z 2)))) (VInt 0) (VInt 2) (VInt 1)
  = Return (Gray [[10; 20]])
  /\ exists msg,
       ImageProcessor.crop_image_values gray_2x3
         (VFloat (F64.div (F64.of_Z 3) (F64.of_Z 2))) (VInt 0) (VInt 2) (VInt 1)
       = Raise (Exc TypeError msg).
Proof.
  split.
  - destruct (crop_with_float_x gray_2x3 (SFopp (F64.div (F64.of_Z 3) (F64.of_Z 2)))
                0 2 1) as (Hlow & _ & _).
    rewrite Hlow by reflexivity. reflexivity.
  - destruct (crop_with_float_x gray_2x3 (F64.div (F64.of_Z 3) (F64.of_Z 2))
                0 2 1) as (_ & _ & Hmid).
    apply Hmid; reflexivity.
Defined.

(** * Rotation by zero degrees on sides of even length *)

Section EvenSides.
Context `{Collaborators}.

Lemma even_side_check : forall_from even_side_ok (Z.to_nat (max_side / 2)) 0 = true.
Proof. vm_cast_no_check (eq_refl true). Qed.

Lemma even_side_shift (n : Z) :
  0 <= n < max_side -> Z.even n = true -> half_pixel_shift n = F64.zero.
Proof.
  intros Hn Heven. apply Z.even_spec in Heven as [k ->].
  apply sf_same_eq.
  apply (forall_from_spec even_side_ok _ _ k even_side_check).
  unfold max_side in *. change (Z.of_nat (Z.to_nat (32768 / 2))) with 16384. lia.
Qed.

Lemma tabulate_lookup {X} (l : list X) (d : nat -> X) :
  (forall i x, l !! i = Some x -> d i = x) ->
  map d (seq 0 (length l)) = l.
Proof.
  intros Hd. apply list_eq. intros i.
  change (map d (seq 0 (length l))) with (d <$> seq 0 (length l)).
  rewrite list_lookup_fmap.
  destruct (l !! i) as [x|] eqn:Ei.
  - rewrite lookup_seq_lt by (eapply lookup_lt_Some, Ei). cbn.
    f_equal. now apply Hd.
  - rewrite lookup_seq_ge by (now apply lookup_ge_None). reflexivity.
Qed.

Lemma round_nearest_integer (v : Q) (p : Z) :
  (v == inject_Z p)%Q -> cv2.round_nearest v = p.
Proof.
  intros Hv. unfold cv2.round_nearest.
  assert (Qfloor v = p) as -> by (rewrite Hv; apply Qfloor_Z).
  assert ((v - inject_Z p ?= 1 # 2)%Q = Lt) as ->; [|reflexivity].
  assert (v - inject_Z p == 0)%Q as -> by (rewrite Hv; ring).
  reflexivity.
Qed.

Lemma bilinear_at_pixel (g : list (list (list Z))) (c : nat) (sx sy : Q) (x y : Z) :
  (sx == inject_Z x)%Q -> (sy == inject_Z y)%Q ->
  cv2.bilinear g c sx sy = cv2.pixel_at g c x y.
Proof.
  intros Hx Hy. unfold cv2.bilinear.
  assert (Qfloor sx = x) as -> by (rewrite Hx; apply Qfloor_Z).
  assert (Qfloor sy = y) as -> by (rewrite Hy; apply Qfloor_Z).
  cbv zeta. apply round_nearest_integer.
  rewrite Hx, Hy. rewrite !Z.add_0_r. ring.
Qed.

(** Sampling at the identity gives back the grid. *)
Lemma warp_identity (g : list (list (list Z))) (channels : nat)
    (a11 a12 b1 a21 a22 b2 : Q) :
  (a11 == 1)%Q -> (a12 == 0)%Q -> (b1 == 0)%Q ->
  (a21 == 0)%Q -> (a22 == 1)%Q -> (b2 == 0)%Q ->
  rect (grid_width g) g ->
  Forall (Forall (fun p => length p = channels)) g ->
  cv2.warp_grid g channels (a11, a12, b1, a21, a22, b2) (grid_width g) (grid_height g)
  = g.
Proof.
  intros H11 H12 H1 H21 H22 H2 Hrect Hch. unfold cv2.warp_grid, grid_height.
  apply tabulate_lookup. intros j row Hrow.
  assert (length row = grid_width g) as Hlen.
  { unfold rect in Hrect. rewrite Forall_forall in Hrect.
    apply Hrect. eapply list_elem_of_lookup_2, Hrow. }
  assert (Forall (fun p => length p = channels) row) as Hpix.
  { rewrite Forall_forall in Hch. apply Hch.
    eapply list_elem_of_lookup_2, Hrow. }
  rewrite <- Hlen. apply tabulate_lookup. intros i p Hp.
  assert (length p = channels) as Hc.
  { rewrite Forall_forall in Hpix. apply Hpix.
    eapply list_elem_of_lookup_2, Hp. }
  rewrite <- Hc. apply tabulate_lookup. intros c v Hv.
  rewrite (bilinear_at_pixel g c _ _ (Z.of_nat i) (Z.of_nat j))
    by (rewrite ?H11, ?H12, ?H1, ?H21, ?H22, ?H2; ring).
  unfold cv2.pixel_at.
  replace ((Z.of_nat i <? 0) || (Z.of_nat j <? 0)) with false
    by (symmetry; apply orb_false_intro; apply Z.ltb_ge; lia).
  now rewrite !Nat2Z.id, Hrow, Hp, Hv.
Qed.

Lemma warp_at_rest (image : ndarray) :
  wf_image image ->
  cv2.warpAffine image (zero_turn_matrix 0 0)
    (Z.of_nat (img_width image), Z.of_nat (img_height image))
  = Return image.
Proof.
  intros Hwf. unfold cv2.warpAffine.
  assert (0 < img_width image /\ 0 < img_height image)%nat as [Hw Hh]
    by (destruct image; cbn in *; tauto).
  replace ((Z.of_nat (img_width image) <=? 0) || (Z.of_nat (img_height image) <=? 0))
    with false by (symmetry; apply orb_false_intro; apply Z.leb_gt; lia).
  rewrite !Nat2Z.id.
  cbv [zero_turn_matrix cv2.m00 cv2.m01 cv2.m02 cv2.m10 cv2.m11 cv2.m12].
  change (half_pixel_shift 0) with F64.zero.
  destruct (fl_to_Q F64.one) as [a|] eqn:Ea; [|discriminate Ea].
  destruct (fl_to_Q F64.zero) as [b|] eqn:Eb; [|discriminate Eb].
  destruct (fl_to_Q (SFopp F64.zero)) as [c|] eqn:Ec; [|discriminate Ec].
  injection Ea as <-. injection Eb as <-. injection Ec as <-.
  cbv zeta.
  destruct (cv2.invert _ _ _ _ _ _) as [[[[[a11 a12] b1] a21] a22] b2] eqn:Einv.
  vm_compute in Einv. injection Einv as <- <- <- <- <- <-.
  destruct image as [g|g]; cbn [img_width img_height] in *.
  - destruct Hwf as (_ & _ & Hrect & _).
    replace (grid_width g) with (grid_width (map (map (fun v : Z => [v])) g))
      by (destruct g; cbn; [reflexivity|now rewrite length_map]).
    replace (grid_height g) with (grid_height (map (map (fun v : Z => [v])) g))
      by (unfold grid_height; now rewrite length_map).
    rewrite warp_identity; try reflexivity.
    + do 2 f_equal. rewrite map_map.
      rewrite <- (map_id g) at 2. apply map_ext. intros row.
      rewrite map_map. rewrite <- (map_id row) at 2. now apply map_ext.
    + unfold rect in *. rewrite Forall_map.
      replace (grid_width (map (map (fun v : Z => [v])) g)) with (grid_width g)
        by (destruct g; cbn; [reflexivity|now rewrite length_map]).
      eapply Forall_impl; [exact Hrect|]. cbn. intros row Hr. now rewrite length_map.
    + rewrite Forall_map. apply Forall_forall. intros row _.
      rewrite Forall_map. apply Forall_forall. intros v _. reflexivity.
  - destruct Hwf as (Hh' & Hw' & Hrect & [ch Hch] & _).
    assert (match g with (p :: _) :: _ => length p | _ => O end = ch) as ->.
    { destruct g as [|[|p row] g']; cbn in Hw', Hh'; try lia.
      inversion Hch as [|? ? Hrow _]; subst. now inversion Hrow. }
    rewrite warp_identity; try reflexivity; assumption.
Qed.

(** X27. On a well-formed image whose sides are both even the rotation by
    0 degrees returns the image itself, pixel for pixel, for the integer 0
    and for the float 0.0: the centre then moves by nothing, and every
    pixel is sampled where it lies. *)
Theorem rotate_zero_keeps_even_sides (image : ndarray) :
  libm_cos (S754_zero false) = F64.one ->
  libm_sin (S754_zero false) = F64.zero ->
  wf_image image ->
  Z.of_nat (img_width image) < max_side ->
  Z.of_nat (img_height image) < max_side ->
  Z.even (Z.of_nat (img_width image)) = true ->
  Z.even (Z.of_nat (img_height image)) = true ->
  ImageProcessor.rotate_image image (VInt 0) = Return image
  /\ ImageProcessor.rotate_image image (VFloat F64.zero) = Return image.
Proof.
  intros Hc Hs Hwf Hw Hh Ew Eh.
  assert (forall angle,
             angle = VInt 0 \/ angle = VFloat F64.zero ->
             ImageProcessor.rotate_image image angle = Return image) as Hboth.
  { intros angle Hangle.
    rewrite (rotate_no_turn_is_warp Hc Hs image angle);
      try (destruct Hangle as [-> | ->]; reflexivity); try assumption.
    unfold zero_turn_matrix.
    rewrite !even_side_shift by (assumption || lia).
    now apply warp_at_rest. }
  split; apply Hboth; [now left | now right].
Qed.

End EvenSides.

Lemma rotate_zero_keeps_even_sides_witness :
  ImageProcessor.rotate_image (H := no_collaborators) (Gray [[10; 20]; [30; 40]]) (VInt 0)
  = Return (Gray [[10; 20]; [30; 40]]).
Proof.
  refine (proj1 (rotate_zero_keeps_even_sides (H := no_collaborators)
                   (Gray [[10; 20]; [30; 40]]) _ _ _ _ _ _ _)).
  - reflexivity.
  - reflexivity.
  - cbn. repeat split; try lia; repeat constructor; lia.
  - reflexivity.
  - reflexivity.
  - reflexivity.
  - reflexivity.
Defined.
